(** * RowController: a shallow embedding of the grid's row-rendering controller

    The development follows [rowController.ts]: the classifier that picks the
    row type, the reconcile pass that keeps the cell slots of a row in step
    with the columns to show, the full-width refresh, the row editing state
    machine, the second-pass queues and the teardown.

    Collaborators of the controller (column model, focus controller, cell and
    row components, event service, task queue, DOM) are not part of the class.
    What they answer is read from a [Beans] value; what the controller asks
    them to do is appended to the [effects] of the state, in call order.  A
    call on a collaborator is taken to return without calling back into the
    controller. *)

From Stdlib Require Import List String Ascii Bool Arith NArith Lia Permutation.
Import ListNotations.

(* ================================================================= *)
(** ** JavaScript objects used as string-keyed maps *)

(** [cellComps] is a plain object [{ [key: string]: CellComp | null }].  The
    controller enumerates it with [Object.keys], so the order of the keys
    matters: it is the order in which cells are signalled and destroyed.  An
    object lists its array-index keys first, in ascending numeric order, and
    then its other string keys in the order they were first assigned.  Column
    ids such as ["0"] and ["1"] are array indices, so the enumeration order is
    modelled rather than assumed to be the insertion order. *)
Module JsObject.

Definition isDigit (a : ascii) : bool :=
  let n := N_of_ascii a in (48 <=? n)%N && (n <=? 57)%N.

Fixpoint decimalValue (s : string) (acc : N) : option N :=
  match s with
  | EmptyString => Some acc
  | String a rest =>
      if isDigit a then decimalValue rest (10 * acc + (N_of_ascii a - 48))%N
      else None
  end.

(** An array index is a canonical decimal numeral (no leading zero) below
    [2^32 - 1]. *)
Definition arrayIndex (k : string) : option N :=
  match k with
  | EmptyString => None
  | String a rest =>
      if Ascii.eqb a "0" && negb (String.eqb rest EmptyString) then None
      else match decimalValue k 0 with
           | Some n => if (n <? 4294967295)%N then Some n else None
           | None => None
           end
  end.

Definition isArrayIndex (k : string) : bool :=
  match arrayIndex k with Some _ => true | None => false end.

Definition indexLeb (k1 k2 : string) : bool :=
  match arrayIndex k1, arrayIndex k2 with
  | Some n1, Some n2 => (n1 <=? n2)%N
  | _, _ => true
  end.

Fixpoint insertIndexKey (k : string) (ks : list string) : list string :=
  match ks with
  | [] => [k]
  | k' :: ks' => if indexLeb k k' then k :: ks else k' :: insertIndexKey k ks'
  end.

Definition sortIndexKeys (ks : list string) : list string :=
  fold_right insertIndexKey [] ks.

(** The own-property order of keys that were created in the order [ks]. *)
Definition ownKeyOrder (ks : list string) : list string :=
  sortIndexKeys (filter isArrayIndex ks)
    ++ filter (fun k => negb (isArrayIndex k)) ks.

(** The members a plain object inherits from [Object.prototype].  The maps
    below hold the own properties of an object and nothing else.  For an
    object that still has [Object.prototype] as its prototype, reading [o[k]]
    at a key that is not an own key answers the inherited member when [k] is
    one of these names, and [undefined] otherwise; and [o[k] = v] files an
    own key for every [k] but ["__proto__"], which replaces the prototype and
    files nothing.  So [get] and [set] are [o[k]] and [o[k] = v] at every own
    key and at every key that is not [inherited]; a statement that reads or
    writes a slot which may not exist yet says which keys it is about. *)
Definition inheritedNames : list string :=
  ["constructor"; "__defineGetter__"; "__defineSetter__"; "hasOwnProperty";
   "__lookupGetter__"; "__lookupSetter__"; "isPrototypeOf";
   "propertyIsEnumerable"; "toString"; "valueOf"; "__proto__";
   "toLocaleString"]%string.

Definition inherited (k : string) : bool :=
  existsb (String.eqb k) inheritedNames.

Section Entries.
Context {V : Type}.

(** The entries in creation order; a well-formed object has each key once. *)
Definition t := list (string * V).

Definition empty : t := [].

(** The own property [k] of [o]: [None] is JavaScript's [undefined].  This is
    [o[k]] unless [k] is no own key and is [inherited]. *)
Fixpoint get (o : t) (k : string) : option V :=
  match o with
  | [] => None
  | (k', v) :: o' => if String.eqb k' k then Some v else get o' k
  end.

(** [o[k] = v] on the own properties: an existing key keeps its place, a new
    key goes last.  A new key ["__proto__"] is the one the assignment would
    not file. *)
Fixpoint set (o : t) (k : string) (v : V) : t :=
  match o with
  | [] => [(k, v)]
  | (k', v') :: o' =>
      if String.eqb k' k then (k', v) :: o' else (k', v') :: set o' k v
  end.

(** [Object.keys(o)]. *)
Definition keys (o : t) : list string := ownKeyOrder (map fst o).

Definition wf (o : t) : Prop := NoDup (map fst o).

End Entries.
Arguments t : clear implicits.

End JsObject.

(* ================================================================= *)
(** ** Data model *)

(** A [Column] is an object of the column model; the controller compares
    columns by identity ([===], [indexOf]), so a column is its reference.  Two
    columns may carry the same id: pivoting reuses ids for new columns. *)
Definition Column := nat.

(** [column.getPinned()]: [Constants.PINNED_LEFT], [Constants.PINNED_RIGHT],
    or neither. *)
Inductive Pinned := PinnedLeft | PinnedRight | NotPinned.

(** The containers a row projects into.  The constructor builds at most one
    [RowComp] per segment and never replaces it, so a [RowComp] and the
    element it answers to [getGui()] are named by their segment. *)
Inductive Segment := SegFullWidth | SegCenter | SegLeft | SegRight.

Definition RowComp := Segment.
Definition HTMLElement := Segment.
Definition getGui (rowComp : RowComp) : HTMLElement := rowComp.

Definition Segment_eqb (a b : Segment) : bool :=
  match a, b with
  | SegFullWidth, SegFullWidth | SegCenter, SegCenter
  | SegLeft, SegLeft | SegRight, SegRight => true
  | _, _ => false
  end.

(** A cell component: its identity, and the two constructor arguments it
    answers back ([getColumn()], [getParentRow()]). *)
Record CellComp := {
  cellId : nat;
  getColumn : Column;
  getParentRow : HTMLElement
}.

(** [a === b] on cell components. *)
Definition sameCellComp (a b : CellComp) : bool := cellId a =? cellId b.

(** The part of [createFullWidthParams] that differs between two calls on the
    same row. *)
Record FullWidthParams := {
  eGridCell : HTMLElement;
  pinned : Pinned
}.

(** A full-width cell renderer; [refresh] is an optional method. *)
Record ICellRendererComp := {
  refresh : option (FullWidthParams -> bool)
}.

Record RowNode := {
  stub : bool;
  detail : bool;
  group : bool;
  footer : bool;
  isFullWidthCell : bool;
  rowIndex : nat
}.

Inductive RowType :=
| Normal
| FullWidth
| FullWidthLoading
| FullWidthGroup
| FullWidthDetail.

Inductive EventType :=
| EVENT_ROW_VALUE_CHANGED
| EVENT_ROW_EDITING_STARTED
| EVENT_ROW_EDITING_STOPPED
| EVENT_VIRTUAL_ROW_REMOVED.

(** A function handed to the controller by a collaborator.  Calling it is
    recorded; what it does happens outside the controller. *)
Definition Callback := nat.

(** The closures the constructor queues for the create second pass. *)
Inductive CreateFunc :=
| SlideRowInFunc
| FadeRowInFunc.

(** What the remove second pass can hold: the controller's own
    [destroyContainingCells.bind(this)], or a collaborator's function. *)
Inductive RemoveFunc :=
| DestroyContainingCellsFunc
| ExternalFunc (f : Callback).

(** Work handed to [beans.taskQueue.createTask]. *)
Inductive Task :=
| RefreshCellsInAnimationFrameTask
| LazyCreateCellsTask (cols : list Column) (eRow : HTMLElement).

Record TaskEntry := {
  task : Task;
  index : nat;
  taskList : string
}.

(** Calls the controller makes on its collaborators. *)
Inductive Effect :=
| NewCellComp (cellComp : CellComp) (printLayout editingRow : bool)
| AppendChild (eRow : HTMLElement) (cellComp : CellComp)
| CellDetach (cellComp : CellComp)
| CellDestroy (cellComp : CellComp)
| SetDomChildOrder (eRow : HTMLElement) (order : list (option CellComp))
| CellStopEditing (cellComp : CellComp) (cancel : bool)
| CellStartEditingIfEnabled (cellComp : CellComp) (keyPress : option nat)
    (charPress : option string) (cellStartedEdit : bool)
| AddOrRemoveCssClass (element : HTMLElement) (className : string) (on : bool)
| FullWidthRefresh (rowComp : RowComp) (params : FullWidthParams)
| DestroyFullWidthComponent (rowComp : RowComp)
| CallCallback (f : Callback)
| EventServiceDispatch (type : EventType)
| LocalDispatch (type : EventType)
| SuperDestroy.

(** What the collaborators answer while one method of the controller runs. *)
Record Beans := {
  (* Column *)
  getId : Column -> string;
  getPinned : Column -> Pinned;
  (* columnController *)
  getAllDisplayedColumns : list Column;
  getViewportCenterColumnsForRow : list Column;
  getDisplayedLeftColumnsForRow : list Column;
  getDisplayedRightColumnsForRow : list Column;
  isPivotMode : bool;
  (* gridOptionsWrapper and beans flags *)
  isSuppressAnimationFrame : bool;
  isEnsureDomOrder : bool;
  isGroupUseEntireRow : bool -> bool;
  doingMasterDetail : bool;
  (* CellComp.isEditing() *)
  isEditing : CellComp -> bool;
  (* focusController.isCellFocused(cellComp.getCellPosition()) *)
  isCellFocused : CellComp -> bool;
  (* RowComp.getFullWidthRowComp() *)
  getFullWidthRowComp : RowComp -> option ICellRendererComp
}.

(** The fields of the class that the modelled methods read or write, followed
    by the collaborators' side of the world: the next fresh cell identity, the
    task queue and the calls made so far. *)
Record RowController := {
  rowNode : RowNode;
  rowType : RowType;
  allRowComps : list RowComp;
  leftRowComp : option RowComp;
  rightRowComp : option RowComp;
  centerRowComp : option RowComp;
  fullWidthRowComp : option RowComp;
  fullWidthRowDestroyFuncs : list Callback;
  active : bool;
  editingRow : bool;
  rowContainerReadyCount : nat;
  refreshNeeded : bool;
  columnRefreshPending : bool;
  cellComps : JsObject.t (option CellComp);
  createSecondPassFuncs : list CreateFunc;
  removeFirstPassFuncs : list Callback;
  removeSecondPassFuncs : list RemoveFunc;
  elementOrderChanged : bool;
  printLayout : bool;
  nextCellComp : nat;
  taskQueue : list TaskEntry;
  effects : list Effect
}.

(** Field assignments. *)
Definition set_rowType (v : RowType) (c : RowController) : RowController :=
  {| rowNode := rowNode c; rowType := v; allRowComps := allRowComps c; leftRowComp :=
     leftRowComp c; rightRowComp := rightRowComp c; centerRowComp := centerRowComp c;
     fullWidthRowComp := fullWidthRowComp c; fullWidthRowDestroyFuncs :=
     fullWidthRowDestroyFuncs c; active := active c; editingRow := editingRow c;
     rowContainerReadyCount := rowContainerReadyCount c; refreshNeeded := refreshNeeded
     c; columnRefreshPending := columnRefreshPending c; cellComps := cellComps c;
     createSecondPassFuncs := createSecondPassFuncs c; removeFirstPassFuncs :=
     removeFirstPassFuncs c; removeSecondPassFuncs := removeSecondPassFuncs c;
     elementOrderChanged := elementOrderChanged c; printLayout := printLayout c;
     nextCellComp := nextCellComp c; taskQueue := taskQueue c; effects := effects c |}.

Definition set_fullWidthRowDestroyFuncs (v : list Callback) (c : RowController) : RowController :=
  {| rowNode := rowNode c; rowType := rowType c; allRowComps := allRowComps c;
     leftRowComp := leftRowComp c; rightRowComp := rightRowComp c; centerRowComp :=
     centerRowComp c; fullWidthRowComp := fullWidthRowComp c; fullWidthRowDestroyFuncs
     := v; active := active c; editingRow := editingRow c; rowContainerReadyCount :=
     rowContainerReadyCount c; refreshNeeded := refreshNeeded c; columnRefreshPending :=
     columnRefreshPending c; cellComps := cellComps c; createSecondPassFuncs :=
     createSecondPassFuncs c; removeFirstPassFuncs := removeFirstPassFuncs c;
     removeSecondPassFuncs := removeSecondPassFuncs c; elementOrderChanged :=
     elementOrderChanged c; printLayout := printLayout c; nextCellComp := nextCellComp
     c; taskQueue := taskQueue c; effects := effects c |}.

Definition set_active (v : bool) (c : RowController) : RowController :=
  {| rowNode := rowNode c; rowType := rowType c; allRowComps := allRowComps c;
     leftRowComp := leftRowComp c; rightRowComp := rightRowComp c; centerRowComp :=
     centerRowComp c; fullWidthRowComp := fullWidthRowComp c; fullWidthRowDestroyFuncs
     := fullWidthRowDestroyFuncs c; active := v; editingRow := editingRow c;
     rowContainerReadyCount := rowContainerReadyCount c; refreshNeeded := refreshNeeded
     c; columnRefreshPending := columnRefreshPending c; cellComps := cellComps c;
     createSecondPassFuncs := createSecondPassFuncs c; removeFirstPassFuncs :=
     removeFirstPassFuncs c; removeSecondPassFuncs := removeSecondPassFuncs c;
     elementOrderChanged := elementOrderChanged c; printLayout := printLayout c;
     nextCellComp := nextCellComp c; taskQueue := taskQueue c; effects := effects c |}.

Definition set_editingRow (v : bool) (c : RowController) : RowController :=
  {| rowNode := rowNode c; rowType := rowType c; allRowComps := allRowComps c;
     leftRowComp := leftRowComp c; rightRowComp := rightRowComp c; centerRowComp :=
     centerRowComp c; fullWidthRowComp := fullWidthRowComp c; fullWidthRowDestroyFuncs
     := fullWidthRowDestroyFuncs c; active := active c; editingRow := v;
     rowContainerReadyCount := rowContainerReadyCount c; refreshNeeded := refreshNeeded
     c; columnRefreshPending := columnRefreshPending c; cellComps := cellComps c;
     createSecondPassFuncs := createSecondPassFuncs c; removeFirstPassFuncs :=
     removeFirstPassFuncs c; removeSecondPassFuncs := removeSecondPassFuncs c;
     elementOrderChanged := elementOrderChanged c; printLayout := printLayout c;
     nextCellComp := nextCellComp c; taskQueue := taskQueue c; effects := effects c |}.

Definition set_rowContainerReadyCount (v : nat) (c : RowController) : RowController :=
  {| rowNode := rowNode c; rowType := rowType c; allRowComps := allRowComps c;
     leftRowComp := leftRowComp c; rightRowComp := rightRowComp c; centerRowComp :=
     centerRowComp c; fullWidthRowComp := fullWidthRowComp c; fullWidthRowDestroyFuncs
     := fullWidthRowDestroyFuncs c; active := active c; editingRow := editingRow c;
     rowContainerReadyCount := v; refreshNeeded := refreshNeeded c; columnRefreshPending
     := columnRefreshPending c; cellComps := cellComps c; createSecondPassFuncs :=
     createSecondPassFuncs c; removeFirstPassFuncs := removeFirstPassFuncs c;
     removeSecondPassFuncs := removeSecondPassFuncs c; elementOrderChanged :=
     elementOrderChanged c; printLayout := printLayout c; nextCellComp := nextCellComp
     c; taskQueue := taskQueue c; effects := effects c |}.

Definition set_refreshNeeded (v : bool) (c : RowController) : RowController :=
  {| rowNode := rowNode c; rowType := rowType c; allRowComps := allRowComps c;
     leftRowComp := leftRowComp c; rightRowComp := rightRowComp c; centerRowComp :=
     centerRowComp c; fullWidthRowComp := fullWidthRowComp c; fullWidthRowDestroyFuncs
     := fullWidthRowDestroyFuncs c; active := active c; editingRow := editingRow c;
     rowContainerReadyCount := rowContainerReadyCount c; refreshNeeded := v;
     columnRefreshPending := columnRefreshPending c; cellComps := cellComps c;
     createSecondPassFuncs := createSecondPassFuncs c; removeFirstPassFuncs :=
     removeFirstPassFuncs c; removeSecondPassFuncs := removeSecondPassFuncs c;
     elementOrderChanged := elementOrderChanged c; printLayout := printLayout c;
     nextCellComp := nextCellComp c; taskQueue := taskQueue c; effects := effects c |}.

Definition set_columnRefreshPending (v : bool) (c : RowController) : RowController :=
  {| rowNode := rowNode c; rowType := rowType c; allRowComps := allRowComps c;
     leftRowComp := leftRowComp c; rightRowComp := rightRowComp c; centerRowComp :=
     centerRowComp c; fullWidthRowComp := fullWidthRowComp c; fullWidthRowDestroyFuncs
     := fullWidthRowDestroyFuncs c; active := active c; editingRow := editingRow c;
     rowContainerReadyCount := rowContainerReadyCount c; refreshNeeded := refreshNeeded
     c; columnRefreshPending := v; cellComps := cellComps c; createSecondPassFuncs :=
     createSecondPassFuncs c; removeFirstPassFuncs := removeFirstPassFuncs c;
     removeSecondPassFuncs := removeSecondPassFuncs c; elementOrderChanged :=
     elementOrderChanged c; printLayout := printLayout c; nextCellComp := nextCellComp
     c; taskQueue := taskQueue c; effects := effects c |}.

Definition set_cellComps (v : JsObject.t (option CellComp)) (c : RowController) : RowController :=
  {| rowNode := rowNode c; rowType := rowType c; allRowComps := allRowComps c;
     leftRowComp := leftRowComp c; rightRowComp := rightRowComp c; centerRowComp :=
     centerRowComp c; fullWidthRowComp := fullWidthRowComp c; fullWidthRowDestroyFuncs
     := fullWidthRowDestroyFuncs c; active := active c; editingRow := editingRow c;
     rowContainerReadyCount := rowContainerReadyCount c; refreshNeeded := refreshNeeded
     c; columnRefreshPending := columnRefreshPending c; cellComps := v;
     createSecondPassFuncs := createSecondPassFuncs c; removeFirstPassFuncs :=
     removeFirstPassFuncs c; removeSecondPassFuncs := removeSecondPassFuncs c;
     elementOrderChanged := elementOrderChanged c; printLayout := printLayout c;
     nextCellComp := nextCellComp c; taskQueue := taskQueue c; effects := effects c |}.

Definition set_createSecondPassFuncs (v : list CreateFunc) (c : RowController) : RowController :=
  {| rowNode := rowNode c; rowType := rowType c; allRowComps := allRowComps c;
     leftRowComp := leftRowComp c; rightRowComp := rightRowComp c; centerRowComp :=
     centerRowComp c; fullWidthRowComp := fullWidthRowComp c; fullWidthRowDestroyFuncs
     := fullWidthRowDestroyFuncs c; active := active c; editingRow := editingRow c;
     rowContainerReadyCount := rowContainerReadyCount c; refreshNeeded := refreshNeeded
     c; columnRefreshPending := columnRefreshPending c; cellComps := cellComps c;
     createSecondPassFuncs := v; removeFirstPassFuncs := removeFirstPassFuncs c;
     removeSecondPassFuncs := removeSecondPassFuncs c; elementOrderChanged :=
     elementOrderChanged c; printLayout := printLayout c; nextCellComp := nextCellComp
     c; taskQueue := taskQueue c; effects := effects c |}.

Definition set_removeFirstPassFuncs (v : list Callback) (c : RowController) : RowController :=
  {| rowNode := rowNode c; rowType := rowType c; allRowComps := allRowComps c;
     leftRowComp := leftRowComp c; rightRowComp := rightRowComp c; centerRowComp :=
     centerRowComp c; fullWidthRowComp := fullWidthRowComp c; fullWidthRowDestroyFuncs
     := fullWidthRowDestroyFuncs c; active := active c; editingRow := editingRow c;
     rowContainerReadyCount := rowContainerReadyCount c; refreshNeeded := refreshNeeded
     c; columnRefreshPending := columnRefreshPending c; cellComps := cellComps c;
     createSecondPassFuncs := createSecondPassFuncs c; removeFirstPassFuncs := v;
     removeSecondPassFuncs := removeSecondPassFuncs c; elementOrderChanged :=
     elementOrderChanged c; printLayout := printLayout c; nextCellComp := nextCellComp
     c; taskQueue := taskQueue c; effects := effects c |}.

Definition set_removeSecondPassFuncs (v : list RemoveFunc) (c : RowController) : RowController :=
  {| rowNode := rowNode c; rowType := rowType c; allRowComps := allRowComps c;
     leftRowComp := leftRowComp c; rightRowComp := rightRowComp c; centerRowComp :=
     centerRowComp c; fullWidthRowComp := fullWidthRowComp c; fullWidthRowDestroyFuncs
     := fullWidthRowDestroyFuncs c; active := active c; editingRow := editingRow c;
     rowContainerReadyCount := rowContainerReadyCount c; refreshNeeded := refreshNeeded
     c; columnRefreshPending := columnRefreshPending c; cellComps := cellComps c;
     createSecondPassFuncs := createSecondPassFuncs c; removeFirstPassFuncs :=
     removeFirstPassFuncs c; removeSecondPassFuncs := v; elementOrderChanged :=
     elementOrderChanged c; printLayout := printLayout c; nextCellComp := nextCellComp
     c; taskQueue := taskQueue c; effects := effects c |}.

Definition set_elementOrderChanged (v : bool) (c : RowController) : RowController :=
  {| rowNode := rowNode c; rowType := rowType c; allRowComps := allRowComps c;
     leftRowComp := leftRowComp c; rightRowComp := rightRowComp c; centerRowComp :=
     centerRowComp c; fullWidthRowComp := fullWidthRowComp c; fullWidthRowDestroyFuncs
     := fullWidthRowDestroyFuncs c; active := active c; editingRow := editingRow c;
     rowContainerReadyCount := rowContainerReadyCount c; refreshNeeded := refreshNeeded
     c; columnRefreshPending := columnRefreshPending c; cellComps := cellComps c;
     createSecondPassFuncs := createSecondPassFuncs c; removeFirstPassFuncs :=
     removeFirstPassFuncs c; removeSecondPassFuncs := removeSecondPassFuncs c;
     elementOrderChanged := v; printLayout := printLayout c; nextCellComp :=
     nextCellComp c; taskQueue := taskQueue c; effects := effects c |}.

Definition set_nextCellComp (v : nat) (c : RowController) : RowController :=
  {| rowNode := rowNode c; rowType := rowType c; allRowComps := allRowComps c;
     leftRowComp := leftRowComp c; rightRowComp := rightRowComp c; centerRowComp :=
     centerRowComp c; fullWidthRowComp := fullWidthRowComp c; fullWidthRowDestroyFuncs
     := fullWidthRowDestroyFuncs c; active := active c; editingRow := editingRow c;
     rowContainerReadyCount := rowContainerReadyCount c; refreshNeeded := refreshNeeded
     c; columnRefreshPending := columnRefreshPending c; cellComps := cellComps c;
     createSecondPassFuncs := createSecondPassFuncs c; removeFirstPassFuncs :=
     removeFirstPassFuncs c; removeSecondPassFuncs := removeSecondPassFuncs c;
     elementOrderChanged := elementOrderChanged c; printLayout := printLayout c;
     nextCellComp := v; taskQueue := taskQueue c; effects := effects c |}.

Definition set_taskQueue (v : list TaskEntry) (c : RowController) : RowController :=
  {| rowNode := rowNode c; rowType := rowType c; allRowComps := allRowComps c;
     leftRowComp := leftRowComp c; rightRowComp := rightRowComp c; centerRowComp :=
     centerRowComp c; fullWidthRowComp := fullWidthRowComp c; fullWidthRowDestroyFuncs
     := fullWidthRowDestroyFuncs c; active := active c; editingRow := editingRow c;
     rowContainerReadyCount := rowContainerReadyCount c; refreshNeeded := refreshNeeded
     c; columnRefreshPending := columnRefreshPending c; cellComps := cellComps c;
     createSecondPassFuncs := createSecondPassFuncs c; removeFirstPassFuncs :=
     removeFirstPassFuncs c; removeSecondPassFuncs := removeSecondPassFuncs c;
     elementOrderChanged := elementOrderChanged c; printLayout := printLayout c;
     nextCellComp := nextCellComp c; taskQueue := v; effects := effects c |}.

Definition set_effects (v : list Effect) (c : RowController) : RowController :=
  {| rowNode := rowNode c; rowType := rowType c; allRowComps := allRowComps c;
     leftRowComp := leftRowComp c; rightRowComp := rightRowComp c; centerRowComp :=
     centerRowComp c; fullWidthRowComp := fullWidthRowComp c; fullWidthRowDestroyFuncs
     := fullWidthRowDestroyFuncs c; active := active c; editingRow := editingRow c;
     rowContainerReadyCount := rowContainerReadyCount c; refreshNeeded := refreshNeeded
     c; columnRefreshPending := columnRefreshPending c; cellComps := cellComps c;
     createSecondPassFuncs := createSecondPassFuncs c; removeFirstPassFuncs :=
     removeFirstPassFuncs c; removeSecondPassFuncs := removeSecondPassFuncs c;
     elementOrderChanged := elementOrderChanged c; printLayout := printLayout c;
     nextCellComp := nextCellComp c; taskQueue := taskQueue c; effects := v |}.

(* ================================================================= *)
(** ** Helpers of the grid's utility modules *)

Definition emit (es : list Effect) (c : RowController) : RowController :=
  set_effects (effects c ++ es) c.

(** Modelled from the spec: [removeFromArray] (utils/array) is not part of the
    sources.  The removal candidates are "existing slots whose column identity
    is not in targetColumns", so the call takes [object] out of [array]; as
    [indexOf] and [splice] would, it takes the first occurrence. *)
Fixpoint removeFromArray (array : list string) (object : string) : list string :=
  match array with
  | [] => []
  | x :: rest =>
      if String.eqb x object then rest else x :: removeFromArray rest object
  end.

(** Modelled from the spec: [missing] (utils/generic) is not part of the
    sources.  It is the "existence guard before every destructive operation":
    true of [undefined] and of [null]. *)
Definition missing {A : Type} (value : option (option A)) : bool :=
  match value with
  | Some (Some _) => false
  | _ => true
  end.

(** Modelled from the spec: [iterateObject] (utils/object) is not part of the
    sources.  A signal to the row goes "to every cell slot", so it calls back
    once per own key of the object, in [Object.keys] order, with the value
    found under the key when its turn comes.  The object is a field of the
    state, read through [object]. *)
Definition iterateObject {S V : Type} (object : S -> JsObject.t V)
    (callback : string -> V -> S -> S) (s : S) : S :=
  fold_left
    (fun s key =>
       match JsObject.get (object s) key with
       | Some value => callback key value s
       | None => s
       end)
    (JsObject.keys (object s)) s.

(* ================================================================= *)
(** ** Row-type classifier *)

Definition setRowType (b : Beans) (c : RowController) : RowController :=
  let isStub := stub (rowNode c) in
  let isFullWidthCell := isFullWidthCell (rowNode c) in
  let isDetailCell := doingMasterDetail b && detail (rowNode c) in
  let pivotMode := isPivotMode b in
  let isGroupRow := group (rowNode c) && negb (footer (rowNode c)) in
  let isFullWidthGroup := isGroupRow && isGroupUseEntireRow b pivotMode in
  if isStub then set_rowType FullWidthLoading c
  else if isDetailCell then set_rowType FullWidthDetail c
  else if isFullWidthCell then set_rowType FullWidth c
  else if isFullWidthGroup then set_rowType FullWidthGroup c
  else set_rowType Normal c.

Definition isFullWidth (c : RowController) : bool :=
  match rowType c with
  | Normal => false
  | _ => true
  end.

(* ================================================================= *)
(** ** Full-width refresh *)

Definition createFullWidthParams (eRow : HTMLElement) (pinned : Pinned)
  : FullWidthParams :=
  {| eGridCell := eRow; pinned := pinned |}.

(** The local closure [tryRefresh] of [refreshFullWidth]. *)
Definition tryRefresh (b : Beans) (rowComp : option RowComp) (pinned : Pinned)
    (c : RowController) : bool * RowController :=
  match rowComp with
  | None => (true, c)
  | Some rowComp =>
      match getFullWidthRowComp b rowComp with
      | None => (true, c)
      | Some cellComp =>
          match refresh cellComp with
          | None => (false, c)
          | Some refreshMethod =>
              let params := createFullWidthParams (getGui rowComp) pinned in
              let refreshSucceeded := refreshMethod params in
              (refreshSucceeded, emit [FullWidthRefresh rowComp params] c)
          end
      end
  end.

Definition refreshFullWidth (b : Beans) (c : RowController)
  : bool * RowController :=
  let '(normalSuccess, c) := tryRefresh b (fullWidthRowComp c) NotPinned c in
  let '(bodySuccess, c) := tryRefresh b (centerRowComp c) NotPinned c in
  let '(leftSuccess, c) := tryRefresh b (leftRowComp c) PinnedLeft c in
  let '(rightSuccess, c) := tryRefresh b (rightRowComp c) PinnedRight c in
  let allFullWidthRowsRefreshed :=
    normalSuccess && bodySuccess && leftSuccess && rightSuccess in
  (allFullWidthRowsRefreshed, c).

(* ================================================================= *)
(** ** Cell slots and the reconcile pass *)

Definition areAllContainersReady (c : RowController) : bool :=
  rowContainerReadyCount c =? 3.

(** [getCellForCol]: the gui of a cell is named by the cell. *)
Definition getCellForCol (b : Beans) (c : RowController) (column : Column)
  : option CellComp :=
  match JsObject.get (cellComps c) (getId b column) with
  | Some (Some cellComp) => Some cellComp
  | _ => None
  end.

Definition getContainerForCell (pinnedType : Pinned) : HTMLElement :=
  match pinnedType with
  | PinnedLeft => getGui SegLeft
  | PinnedRight => getGui SegRight
  | NotPinned => getGui SegCenter
  end.

Definition isCellInWrongContainer (b : Beans) (cellComp : CellComp) : bool :=
  let column := getColumn cellComp in
  let eDesiredContainer := getContainerForCell (getPinned b column) in
  let eOldContainer := getParentRow cellComp in
  negb (Segment_eqb eOldContainer eDesiredContainer).

Definition newCellComp (b : Beans) (col : Column) (eRow : HTMLElement)
    (c : RowController) : RowController :=
  let cellComp :=
    {| cellId := nextCellComp c; getColumn := col; getParentRow := eRow |} in
  let c := set_nextCellComp (S (nextCellComp c)) c in
  let c := emit [NewCellComp cellComp (printLayout c) (editingRow c)] c in
  let c := set_cellComps (JsObject.set (cellComps c) (getId b col) (Some cellComp)) c in
  emit [AppendChild eRow cellComp] c.

Definition createCells (b : Beans) (cols : list Column) (eRow : HTMLElement)
    (c : RowController) : RowController :=
  fold_left (fun c col => newCellComp b col eRow c) cols c.

(** The body of the [forEach] in [destroyCells]. *)
Definition destroyCell (key : string) (c : RowController) : RowController :=
  let cellComp := JsObject.get (cellComps c) key in
  match cellComp with
  | Some (Some cell) =>
      let c := emit [CellDetach cell; CellDestroy cell] c in
      set_cellComps (JsObject.set (cellComps c) key None) c
  | _ => c
  end.

Definition destroyCells (colIds : list string) (c : RowController)
  : RowController :=
  fold_left (fun c key => destroyCell key c) colIds c.

Definition isCellEligibleToBeRemoved (b : Beans) (c : RowController)
    (indexStr : string) : bool :=
  let displayedColumns := getAllDisplayedColumns b in
  let REMOVE_CELL := true in
  let KEEP_CELL := false in
  match JsObject.get (cellComps c) indexStr with
  | Some (Some renderedCell) =>
      if isCellInWrongContainer b renderedCell then REMOVE_CELL
      else
        let editing := isEditing b renderedCell in
        let focused := isCellFocused b renderedCell in
        let mightWantToKeepCell := editing || focused in
        if mightWantToKeepCell then
          let column := getColumn renderedCell in
          let cellStillDisplayed := existsb (Nat.eqb column) displayedColumns in
          if cellStillDisplayed then KEEP_CELL else REMOVE_CELL
        else REMOVE_CELL
  | _ => REMOVE_CELL
  end.

(** The body of the [forEach] in [insertCellsIntoContainer]. *)
Definition insertCell (b : Beans) (eRow : HTMLElement) (col : Column)
    (c : RowController) : RowController :=
  let colId := getId b col in
  let existingCell := JsObject.get (cellComps c) colId in
  let keep :=
    match existingCell with
    | Some (Some cell) =>
        (getColumn cell =? col) && negb (isCellInWrongContainer b cell)
    | _ => false
    end in
  if keep then c
  else
    let c := if missing existingCell then c else destroyCells [colId] c in
    let c := newCellComp b col eRow c in
    set_elementOrderChanged true c.

(** [eRow] is the element of a row comp that exists, so the method's opening
    guard on a missing [eRow] does not fire. *)
Definition insertCellsIntoContainer (b : Beans) (eRow : HTMLElement)
    (cols : list Column) (c : RowController) : RowController :=
  let c := fold_left (fun c col => insertCell b eRow col c) cols c in
  if elementOrderChanged c && isEnsureDomOrder b then
    let correctChildOrder := map (getCellForCol b c) cols in
    emit [SetDomChildOrder eRow correctChildOrder] c
  else c.

(** The three target column lists of a pass: center, left, right. *)
Definition targetColumns (b : Beans) (c : RowController)
  : list Column * list Column * list Column :=
  if printLayout c then (getAllDisplayedColumns b, [], [])
  else (getViewportCenterColumnsForRow b,
        getDisplayedLeftColumnsForRow b,
        getDisplayedRightColumnsForRow b).

Definition removeColumns (b : Beans) (cols : list Column)
    (colIdsToRemove : list string) : list string :=
  fold_left (fun ids col => removeFromArray ids (getId b col)) cols colIdsToRemove.

(** One reconcile pass.  Cells exist in normal rows only, whose constructor
    assigns the three row comps; each field, once assigned, holds the row comp
    of its own segment, so the container of a list is named by the segment. *)
Definition refreshCellsInAnimationFrame (b : Beans) (c : RowController)
  : RowController :=
  if negb (active c) then c
  else
    let c := set_columnRefreshPending false c in
    let '(centerCols, leftCols, rightCols) := targetColumns b c in
    let c := insertCellsIntoContainer b (getGui SegCenter) centerCols c in
    let c :=
      match leftRowComp c with
      | Some _ => insertCellsIntoContainer b (getGui SegLeft) leftCols c
      | None => c
      end in
    let c :=
      match rightRowComp c with
      | Some _ => insertCellsIntoContainer b (getGui SegRight) rightCols c
      | None => c
      end in
    let c := set_elementOrderChanged false c in
    let colIdsToRemove := JsObject.keys (cellComps c) in
    let colIdsToRemove := removeColumns b centerCols colIdsToRemove in
    let colIdsToRemove := removeColumns b leftCols colIdsToRemove in
    let colIdsToRemove := removeColumns b rightCols colIdsToRemove in
    let eligibleToBeRemoved :=
      filter (isCellEligibleToBeRemoved b c) colIdsToRemove in
    destroyCells eligibleToBeRemoved c.

Definition createTask (t : Task) (i : nat) (name : string) (c : RowController)
  : RowController :=
  set_taskQueue (taskQueue c ++ [{| task := t; index := i; taskList := name |}]) c.

Definition refreshCells (b : Beans) (c : RowController) : RowController :=
  if negb (areAllContainersReady c) then set_refreshNeeded true c
  else
    let suppressAnimationFrame := isSuppressAnimationFrame b in
    let skipAnimationFrame := suppressAnimationFrame || printLayout c in
    if skipAnimationFrame then refreshCellsInAnimationFrame b c
    else if columnRefreshPending c then c
    else
      createTask RefreshCellsInAnimationFrameTask (rowIndex (rowNode c))
        "createTasksP1" c.

Definition lazyCreateCells (b : Beans) (cols : list Column) (eRow : HTMLElement)
    (c : RowController) : RowController :=
  if negb (active c) then c
  else
    let c := createCells b cols eRow c in
    let c := set_rowContainerReadyCount (S (rowContainerReadyCount c)) c in
    if areAllContainersReady c && refreshNeeded c then refreshCells b c else c.

(** The task queue runs a queued task by calling it. *)
Definition runTask (b : Beans) (t : Task) (c : RowController) : RowController :=
  match t with
  | RefreshCellsInAnimationFrameTask => refreshCellsInAnimationFrame b c
  | LazyCreateCellsTask cols eRow => lazyCreateCells b cols eRow c
  end.

Definition refreshCell (b : Beans) (cellComp : CellComp) (c : RowController)
  : RowController :=
  if negb (areAllContainersReady c) then c
  else
    let c := destroyCells [getId b (getColumn cellComp)] c in
    refreshCells b c.


Definition onDisplayedColumnsChanged (b : Beans) (c : RowController)
  : RowController :=
  if isFullWidth c then c else refreshCells b c.

Definition onVirtualColumnsChanged (b : Beans) (c : RowController)
  : RowController :=
  if isFullWidth c then c else refreshCells b c.

Definition onColumnResized (b : Beans) (c : RowController) : RowController :=
  if isFullWidth c then c else refreshCells b c.

(* ================================================================= *)
(** ** Row editing *)

Definition forEachCellComp (callback : CellComp -> RowController -> RowController)
    (c : RowController) : RowController :=
  iterateObject cellComps
    (fun key cellComp c =>
       match cellComp with
       | Some cellComp => callback cellComp c
       | None => c
       end)
    c.

Definition dispatchEvent (type : EventType) (c : RowController) : RowController :=
  emit [EventServiceDispatch type] c.

Definition setEditingRow (value : bool) (c : RowController) : RowController :=
  let c := set_editingRow value c in
  let c :=
    emit (map (fun rowComp => AddOrRemoveCssClass (getGui rowComp)
                                "ag-row-editing" value) (allRowComps c)) c in
  let event :=
    if value then EVENT_ROW_EDITING_STARTED else EVENT_ROW_EDITING_STOPPED in
  dispatchEvent event c.

Definition stopEditing (cancel : bool) (c : RowController) : RowController :=
  let c :=
    forEachCellComp
      (fun renderedCell c => emit [CellStopEditing renderedCell cancel] c) c in
  if negb (editingRow c) then c
  else
    let c := if negb cancel then dispatchEvent EVENT_ROW_VALUE_CHANGED c else c in
    setEditingRow false c.

Definition stopRowEditing (cancel : bool) (c : RowController) : RowController :=
  stopEditing cancel c.

Definition startRowEditing (keyPress : option nat) (charPress : option string)
    (sourceRenderedCell : option CellComp) (c : RowController) : RowController :=
  if editingRow c then c
  else
    let c :=
      forEachCellComp
        (fun renderedCell c =>
           let cellStartedEdit :=
             match sourceRenderedCell with
             | Some source => sameCellComp renderedCell source
             | None => false
             end in
           if cellStartedEdit then
             emit [CellStartEditingIfEnabled renderedCell keyPress charPress
                     cellStartedEdit] c
           else
             emit [CellStartEditingIfEnabled renderedCell None None
                     cellStartedEdit] c)
        c in
    setEditingRow true c.

(* ================================================================= *)
(** ** Second-pass queues and teardown *)

Definition addRemoveFirstPassFunc (f : Callback) (c : RowController)
  : RowController :=
  set_removeFirstPassFuncs (removeFirstPassFuncs c ++ [f]) c.

Definition addRemoveSecondPassFunc (f : Callback) (c : RowController)
  : RowController :=
  set_removeSecondPassFuncs (removeSecondPassFuncs c ++ [ExternalFunc f]) c.

Definition getAndClearDelayedDestroyFunctions (c : RowController)
  : list RemoveFunc * RowController :=
  let result := removeSecondPassFuncs c in
  (result, set_removeSecondPassFuncs [] c).

Definition getAndClearNextVMTurnFunctions (c : RowController)
  : list CreateFunc * RowController :=
  let result := createSecondPassFuncs c in
  (result, set_createSecondPassFuncs [] c).

Definition destroyContainingCells (c : RowController) : RowController :=
  let cellsToDestroy := JsObject.keys (cellComps c) in
  destroyCells cellsToDestroy c.

Definition destroyFullWidthComponents (c : RowController) : RowController :=
  let c := emit (map CallCallback (fullWidthRowDestroyFuncs c)) c in
  let c := set_fullWidthRowDestroyFuncs [] c in
  emit (map DestroyFullWidthComponent (allRowComps c)) c.

(** Calling one function of the remove second pass. *)
Definition callRemoveFunc (func : RemoveFunc) (c : RowController)
  : RowController :=
  match func with
  | DestroyContainingCellsFunc => destroyContainingCells c
  | ExternalFunc f => emit [CallCallback f] c
  end.

Definition callRemoveFuncs (funcs : list RemoveFunc) (c : RowController)
  : RowController :=
  fold_left (fun c func => callRemoveFunc func c) funcs c.

Definition destroy (animate : bool) (c : RowController) : RowController :=
  let c := set_active false c in
  let c := destroyFullWidthComponents c in
  let c :=
    if animate then
      let c := emit (map CallCallback (removeFirstPassFuncs c)) c in
      set_removeSecondPassFuncs
        (removeSecondPassFuncs c ++ [DestroyContainingCellsFunc]) c
    else
      let c := destroyContainingCells c in
      let '(delayedDestroyFunctions, c) := getAndClearDelayedDestroyFunctions c in
      callRemoveFuncs delayedDestroyFunctions c in
  let c := emit [LocalDispatch EVENT_VIRTUAL_ROW_REMOVED] c in
  let c := dispatchEvent EVENT_VIRTUAL_ROW_REMOVED c in
  emit [SuperDestroy] c.

(* ================================================================= *)
(** ** Vocabulary of the statements *)

(** The calls made while [f] runs from [c]. *)
Definition effectsDuring (f : RowController -> RowController)
    (c : RowController) : list Effect :=
  skipn (List.length (effects c)) (effects (f c)).

(** The materialized cell slots, in [Object.keys] order. *)
Definition cellsAt (o : JsObject.t (option CellComp)) (ks : list string)
  : list CellComp :=
  flat_map
    (fun key =>
       match JsObject.get o key with
       | Some (Some cellComp) => [cellComp]
       | _ => []
       end)
    ks.

Definition materializedCells (c : RowController) : list CellComp :=
  cellsAt (cellComps c) (JsObject.keys (cellComps c)).

(** The column ids a pass is asked to show, over its three lists. *)
Definition targetIds (b : Beans) (c : RowController) : list string :=
  let '(centerCols, leftCols, rightCols) := targetColumns b c in
  map (getId b) (centerCols ++ leftCols ++ rightCols).

(** A slot the first half of a pass keeps for [col]: bound to this very
    column object and sitting in the container its pin side selects. *)
Definition slotKept (b : Beans) (c : RowController) (col : Column) : Prop :=
  exists cell,
    JsObject.get (cellComps c) (getId b col) = Some (Some cell)
    /\ getColumn cell = col
    /\ isCellInWrongContainer b cell = false.

(** Every column of [cols] belongs to the segment whose element is [eRow]. *)
Definition pinnedTo (b : Beans) (eRow : HTMLElement) (cols : list Column) : Prop :=
  Forall (fun col => getContainerForCell (getPinned b col) = eRow) cols.

(** Target lists a column model hands out for one row: ids are pairwise
    distinct and each column is listed for the segment it is pinned to. *)
Definition targetsConsistent (b : Beans) (c : RowController) : Prop :=
  let '(centerCols, leftCols, rightCols) := targetColumns b c in
  NoDup (map (getId b) (centerCols ++ leftCols ++ rightCols))
  /\ pinnedTo b (getGui SegCenter) centerCols
  /\ pinnedTo b (getGui SegLeft) leftCols
  /\ pinnedTo b (getGui SegRight) rightCols.

(** The spec's reading of one full-width representation at refresh time: it
    is absent, or its renderer has a [refresh] method that reports success. *)
Definition absentOrRefreshed (b : Beans) (rowComp : option RowComp)
    (pinned : Pinned) : Prop :=
  match rowComp with
  | None => True
  | Some rowComp =>
      match getFullWidthRowComp b rowComp with
      | None => True
      | Some renderer =>
          exists refreshMethod,
            refresh renderer = Some refreshMethod
            /\ refreshMethod (createFullWidthParams (getGui rowComp) pinned) = true
      end
  end.

(** The two halves of a reconcile pass: the state once the three containers
    have been filled, and the slots then considered for removal. *)
Definition insertPhase (b : Beans) (c : RowController) : RowController :=
  let c := set_columnRefreshPending false c in
  let '(centerCols, leftCols, rightCols) := targetColumns b c in
  let c := insertCellsIntoContainer b (getGui SegCenter) centerCols c in
  let c :=
    match leftRowComp c with
    | Some _ => insertCellsIntoContainer b (getGui SegLeft) leftCols c
    | None => c
    end in
  let c :=
    match rightRowComp c with
    | Some _ => insertCellsIntoContainer b (getGui SegRight) rightCols c
    | None => c
    end in
  set_elementOrderChanged false c.

Definition removalCandidates (b : Beans) (c : RowController) : list string :=
  let '(centerCols, leftCols, rightCols) := targetColumns b c in
  removeColumns b rightCols
    (removeColumns b leftCols
       (removeColumns b centerCols (JsObject.keys (cellComps c)))).

(** Fields no reconcile step writes. *)
Definition sameFrame (c c' : RowController) : Prop :=
  active c' = active c
  /\ printLayout c' = printLayout c
  /\ leftRowComp c' = leftRowComp c
  /\ rightRowComp c' = rightRowComp c
  /\ columnRefreshPending c' = columnRefreshPending c.

(** [c'] was reached from [c] by making further calls only. *)
Definition extends (c c' : RowController) : Prop :=
  exists es, effects c' = effects c ++ es.

(** The notifications [stopEditing] sends after the cells were told to stop:
    none when the row is not editing; otherwise value-changed unless
    cancelled, the css toggle on every row element, and editing-stopped. *)
Definition stopNotifications (cancel : bool) (c : RowController) : list Effect :=
  if editingRow c then
    (if cancel then [] else [EventServiceDispatch EVENT_ROW_VALUE_CHANGED])
      ++ map (fun rowComp => AddOrRemoveCssClass (getGui rowComp) "ag-row-editing" false)
           (allRowComps c)
      ++ [EventServiceDispatch EVENT_ROW_EDITING_STOPPED]
  else [].

(** Every slot of the row is cleared or was never filled. *)
Definition allCleared (c : RowController) : Prop :=
  forall key, missing (JsObject.get (cellComps c) key) = true.

(** The call [e] was made on the way from [c] to [c']. *)
Definition emitted (c c' : RowController) (e : Effect) : Prop :=
  exists pre post, effects c' = effects c ++ pre ++ e :: post.

(** The task a reconcile request puts on the queue. *)
Definition refreshTask (c : RowController) : TaskEntry :=
  {| task := RefreshCellsInAnimationFrameTask;
     index := rowIndex (rowNode c);
     taskList := "createTasksP1" |}.

(* ================================================================= *)
(** ** Sample rows and collaborators *)

Module Samples.

Definition sampleNode : RowNode :=
  {| stub := false; detail := false; group := false; footer := false;
     isFullWidthCell := false; rowIndex := 7 |}.

(** A normal row as the constructor leaves it when cells are not created in
    animation frames and the column model shows no column yet. *)
Definition rowOf (node : RowNode) (printLayout : bool) : RowController :=
  {| rowNode := node; rowType := Normal;
     allRowComps := [SegCenter; SegRight; SegLeft];
     leftRowComp := Some SegLeft; rightRowComp := Some SegRight;
     centerRowComp := Some SegCenter; fullWidthRowComp := None;
     fullWidthRowDestroyFuncs := []; active := true; editingRow := false;
     rowContainerReadyCount := 3; refreshNeeded := false;
     columnRefreshPending := false; cellComps := JsObject.empty;
     createSecondPassFuncs := []; removeFirstPassFuncs := [];
     removeSecondPassFuncs := []; elementOrderChanged := false;
     printLayout := printLayout; nextCellComp := 0; taskQueue := [];
     effects := [] |}.

Definition freshRow : bool -> RowController := rowOf sampleNode.

Definition stubNode : RowNode :=
  {| stub := true; detail := true; group := true; footer := false;
     isFullWidthCell := true; rowIndex := 7 |}.

Definition groupNode : RowNode :=
  {| stub := false; detail := false; group := true; footer := false;
     isFullWidthCell := false; rowIndex := 7 |}.

Definition footerNode : RowNode :=
  {| stub := false; detail := false; group := true; footer := true;
     isFullWidthCell := false; rowIndex := 7 |}.

(** A full-width row that is not embedded: one row comp, no cells. *)
Definition fullWidthRow : RowController :=
  {| rowNode := sampleNode; rowType := FullWidth;
     allRowComps := [SegFullWidth];
     leftRowComp := None; rightRowComp := None;
     centerRowComp := None; fullWidthRowComp := Some SegFullWidth;
     fullWidthRowDestroyFuncs := []; active := true; editingRow := false;
     rowContainerReadyCount := 0; refreshNeeded := false;
     columnRefreshPending := false; cellComps := JsObject.empty;
     createSecondPassFuncs := []; removeFirstPassFuncs := [];
     removeSecondPassFuncs := []; elementOrderChanged := false;
     printLayout := false; nextCellComp := 0; taskQueue := [];
     effects := [] |}.

(** Columns 0, 1, 2 have ids A, B, C; column 3 is another object with id A. *)
Definition sampleId (col : Column) : string :=
  match col with
  | 0 => "A" | 1 => "B" | 2 => "C" | 3 => "A" | _ => "D"
  end.

Definition noPin (col : Column) : Pinned := NotPinned.

Definition firstPinnedLeft (col : Column) : Pinned :=
  match col with 0 => PinnedLeft | _ => NotPinned end.

Definition sampleBeans (center left right displayed : list Column)
    (pin : Column -> Pinned) (editing : bool) : Beans :=
  {| getId := sampleId; getPinned := pin;
     getAllDisplayedColumns := displayed;
     getViewportCenterColumnsForRow := center;
     getDisplayedLeftColumnsForRow := left;
     getDisplayedRightColumnsForRow := right;
     isPivotMode := false; isSuppressAnimationFrame := false;
     isEnsureDomOrder := false; isGroupUseEntireRow := fun _ => true;
     doingMasterDetail := false;
     isEditing := fun _ => editing; isCellFocused := fun _ => false;
     getFullWidthRowComp := fun _ => None |}.

(** The full-width row comp shows [renderer]. *)
Definition beansWithRenderer (renderer : ICellRendererComp) : Beans :=
  {| getId := sampleId; getPinned := noPin;
     getAllDisplayedColumns := [];
     getViewportCenterColumnsForRow := [];
     getDisplayedLeftColumnsForRow := [];
     getDisplayedRightColumnsForRow := [];
     isPivotMode := false; isSuppressAnimationFrame := false;
     isEnsureDomOrder := false; isGroupUseEntireRow := fun _ => true;
     doingMasterDetail := false;
     isEditing := fun _ => false; isCellFocused := fun _ => false;
     getFullWidthRowComp :=
       fun rowComp =>
         match rowComp with SegFullWidth => Some renderer | _ => None end |}.

Definition refreshingRenderer : ICellRendererComp :=
  {| refresh := Some (fun _ => true) |}.

Definition staticRenderer : ICellRendererComp := {| refresh := None |}.

(** Columns A and B in the center viewport. *)
Definition beansAB : Beans := sampleBeans [0; 1] [] [] [0; 1] noPin false.


(** A is pinned left. *)
Definition beansPinned : Beans := sampleBeans [] [0] [] [0] firstPinnedLeft false.


(** A was replaced by a new column object that reuses its id. *)
Definition beansReplaced : Beans := sampleBeans [3; 1] [] [] [3; 1] noPin false.

Definition rowAB : RowController :=
  refreshCellsInAnimationFrame beansAB (freshRow false).

Definition rowPinned : RowController :=
  refreshCellsInAnimationFrame beansPinned (freshRow false).

Definition cellA : CellComp :=
  {| cellId := 0; getColumn := 0; getParentRow := SegCenter |}.


(** The row with cells A and B, with one function waiting in each remove
    pass. *)
Definition rowWithCallbacks : RowController :=
  addRemoveSecondPassFunc 5 (addRemoveFirstPassFunc 4 rowAB).

End Samples.

(* ================================================================= *)
(** ** Further methods of the controller *)

(** What [getRenderedCellForColumn] hands back: a cell, null, or a member
    that [cellComps] inherits.  The method returns whatever it finds under
    the column id if that is truthy; under an id that names a member of
    [Object.prototype] and is no own key it finds that member. *)
Inductive Rendered :=
| RenderedCell (cellComp : CellComp)
| RenderedMember (name : string)
| RenderedNull.

(** [getRenderedCellForColumn], for a row whose [cellComps] still has
    [Object.prototype] as its prototype.  [getColSpanningList] is what a cell
    answers to [getColSpanningList()]: the columns it spans. *)
Definition getRenderedCellForColumn (b : Beans)
    (getColSpanningList : CellComp -> list Column) (c : RowController)
    (column : Column) : Rendered :=
  let colId := getId b column in
  let spanned :=
    let spanList :=
      filter
        (fun cmp =>
           match cmp with
           | Some (Some cmp) => existsb (Nat.eqb column) (getColSpanningList cmp)
           | _ => false
           end)
        (map (fun name => JsObject.get (cellComps c) name)
           (JsObject.keys (cellComps c))) in
    match spanList with
    | Some (Some cmp) :: _ => RenderedCell cmp
    | _ => RenderedNull
    end in
  match JsObject.get (cellComps c) colId with
  | Some (Some cellComp) => RenderedCell cellComp
  | Some None => spanned
  | None => if JsObject.inherited colId then RenderedMember colId else spanned
  end.

(** The controller together with the fields the handlers below keep:
    [rowFocused] and [lastMouseDownOnDragger], and [firstRowOnPage] and
    [lastRowOnPage], which are declared without a value and so start out
    undefined. *)
Record RowState := {
  controller : RowController;
  rowFocused : bool;
  lastMouseDownOnDragger : bool;
  firstRowOnPage : option bool;
  lastRowOnPage : option bool
}.

Definition withController (c : RowController) (s : RowState) : RowState :=
  {| controller := c; rowFocused := rowFocused s;
     lastMouseDownOnDragger := lastMouseDownOnDragger s;
     firstRowOnPage := firstRowOnPage s; lastRowOnPage := lastRowOnPage s |}.

Definition set_rowFocused (v : bool) (s : RowState) : RowState :=
  {| controller := controller s; rowFocused := v;
     lastMouseDownOnDragger := lastMouseDownOnDragger s;
     firstRowOnPage := firstRowOnPage s; lastRowOnPage := lastRowOnPage s |}.

Definition set_lastMouseDownOnDragger (v : bool) (s : RowState) : RowState :=
  {| controller := controller s; rowFocused := rowFocused s;
     lastMouseDownOnDragger := v;
     firstRowOnPage := firstRowOnPage s; lastRowOnPage := lastRowOnPage s |}.

Definition set_firstRowOnPage (v : option bool) (s : RowState) : RowState :=
  {| controller := controller s; rowFocused := rowFocused s;
     lastMouseDownOnDragger := lastMouseDownOnDragger s;
     firstRowOnPage := v; lastRowOnPage := lastRowOnPage s |}.

Definition set_lastRowOnPage (v : option bool) (s : RowState) : RowState :=
  {| controller := controller s; rowFocused := rowFocused s;
     lastMouseDownOnDragger := lastMouseDownOnDragger s;
     firstRowOnPage := firstRowOnPage s; lastRowOnPage := v |}.

(** [allRowComps.forEach(rowComp => addOrRemoveCssClass(rowComp.getGui(), ...))]. *)
Definition toggleOnAllRowComps (className : string) (on : bool)
    (c : RowController) : RowController :=
  emit (map (fun rowComp => AddOrRemoveCssClass (getGui rowComp) className on)
          (allRowComps c)) c.

(** [onCellFocusChanged]; [isRowFocused] is what the focus controller answers
    for this row. *)
Definition onCellFocusChanged (isRowFocused : bool) (s : RowState) : RowState :=
  let rowFocusedNow := isRowFocused in
  let s :=
    if negb (Bool.eqb rowFocusedNow (rowFocused s)) then
      let c :=
        emit
          (flat_map
             (fun rowComp =>
                [AddOrRemoveCssClass (getGui rowComp) "ag-row-focus" rowFocusedNow;
                 AddOrRemoveCssClass (getGui rowComp) "ag-row-no-focus"
                   (negb rowFocusedNow)])
             (allRowComps (controller s)))
          (controller s) in
      set_rowFocused rowFocusedNow (withController c s)
    else s in
  if negb rowFocusedNow && editingRow (controller s)
  then withController (stopEditing false (controller s)) s
  else s.

(** [isFirstRowOnPage] and [isLastRowOnPage]; the pagination proxy answers
    the first and last row of the current page. *)
Definition isFirstRowOnPage (getPageFirstRow : nat) (c : RowController) : bool :=
  rowIndex (rowNode c) =? getPageFirstRow.

Definition isLastRowOnPage (getPageLastRow : nat) (c : RowController) : bool :=
  rowIndex (rowNode c) =? getPageLastRow.

(** [this.firstRowOnPage !== newFirst] on a field that may be undefined. *)
Definition differsFrom (field : option bool) (value : bool) : bool :=
  match field with
  | Some old => negb (Bool.eqb old value)
  | None => true
  end.

Definition onModelUpdated (getPageFirstRow getPageLastRow : nat) (s : RowState)
  : RowState :=
  let newFirst := isFirstRowOnPage getPageFirstRow (controller s) in
  let newLast := isLastRowOnPage getPageLastRow (controller s) in
  let s :=
    if differsFrom (firstRowOnPage s) newFirst then
      let s := set_firstRowOnPage (Some newFirst) s in
      withController (toggleOnAllRowComps "ag-row-first" newFirst (controller s)) s
    else s in
  if differsFrom (lastRowOnPage s) newLast then
    let s := set_lastRowOnPage (Some newLast) s in
    withController (toggleOnAllRowComps "ag-row-last" newLast (controller s)) s
  else s.

(** *** Mouse events *)

(** What the handlers read off a mouse event: the modifier keys, what
    [isStopPropagationForAgGrid] answers for it, and whether its target lies
    within three levels of an element of class [ag-row-drag]. *)
Record MouseEvent := {
  ctrlKey : bool;
  metaKey : bool;
  shiftKey : bool;
  isStopPropagationForAgGrid : bool;
  targetInRowDrag : bool
}.

(** [rowNode.rowPinned]: [Constants.PINNED_TOP], [Constants.PINNED_BOTTOM],
    or not set ([None]). *)
Inductive RowPinned := PinnedTop | PinnedBottom.

(** What the row node answers about selection and pinning: [selectable],
    [rowPinned], [isSelected()]. *)
Record RowSelection := {
  selectable : bool;
  rowPinned : option RowPinned;
  isSelected : bool
}.

(** The truth value of [rowNode.rowPinned]. *)
Definition isRowPinnedSet (node : RowSelection) : bool :=
  match rowPinned node with
  | Some _ => true
  | None => false
  end.

(** The selection options of the grid. *)
Record SelectionOptions := {
  isGroupSelectsChildren : bool;
  isRowSelection : bool;
  isSuppressRowClickSelection : bool;
  isRowMultiSelectWithClick : bool;
  isSuppressRowDeselection : bool
}.

(** The argument of [rowNode.setSelectedParams]; [None] is a property the
    object literal does not give. *)
Record SetSelectedParams := {
  newValue : bool;
  clearSelection : option bool;
  rangeSelect : option bool
}.

Inductive RowEventType :=
| EVENT_ROW_CLICKED
| EVENT_ROW_DOUBLE_CLICKED.

(** Calls the mouse handlers make: on the event service, on the row node, on
    the focus controller. *)
Inductive MouseCall :=
| DispatchRowEvent (type : RowEventType)
| SetSelected (params : SetSelectedParams)
| SetFocusedCell (rowIndex : nat) (column : option Column)
    (floating : option RowPinned) (forceBrowserFocus : bool).

Definition onRowDblClick (mouseEvent : MouseEvent) : list MouseCall :=
  if isStopPropagationForAgGrid mouseEvent then []
  else [DispatchRowEvent EVENT_ROW_DOUBLE_CLICKED].

Definition onRowMouseDown (b : Beans) (node : RowSelection)
    (mouseEvent : MouseEvent) (s : RowState) : RowState * list MouseCall :=
  let s := set_lastMouseDownOnDragger (targetInRowDrag mouseEvent) s in
  if negb (isFullWidth (controller s)) then (s, [])
  else
    (s, [SetFocusedCell (rowIndex (rowNode (controller s)))
           (hd_error (getAllDisplayedColumns b)) (rowPinned node) true]).

Definition onRowClick (options : SelectionOptions) (node : RowSelection)
    (mouseEvent : MouseEvent) (s : RowState) : list MouseCall :=
  let stop := isStopPropagationForAgGrid mouseEvent || lastMouseDownOnDragger s in
  if stop then []
  else
    let dispatched := [DispatchRowEvent EVENT_ROW_CLICKED] in
    let multiSelectKeyPressed := ctrlKey mouseEvent || metaKey mouseEvent in
    let shiftKeyPressed := shiftKey mouseEvent in
    let groupSelectsChildren := isGroupSelectsChildren options in
    if (groupSelectsChildren && group (rowNode (controller s)))
       || negb (selectable node)
       || isRowPinnedSet node
       || negb (isRowSelection options)
       || isSuppressRowClickSelection options
    then dispatched
    else
      let multiSelectOnClick := isRowMultiSelectWithClick options in
      let rowDeselectionWithCtrl := negb (isSuppressRowDeselection options) in
      if isSelected node then
        if multiSelectOnClick then
          dispatched
            ++ [SetSelected {| newValue := false; clearSelection := None;
                               rangeSelect := None |}]
        else if multiSelectKeyPressed then
          if rowDeselectionWithCtrl then
            dispatched
              ++ [SetSelected {| newValue := false; clearSelection := None;
                                 rangeSelect := None |}]
          else dispatched
        else
          dispatched
            ++ [SetSelected {| newValue := negb shiftKeyPressed;
                               clearSelection := Some (negb shiftKeyPressed);
                               rangeSelect := Some shiftKeyPressed |}]
      else
        let clearSelection :=
          if multiSelectOnClick then false else negb multiSelectKeyPressed in
        dispatched
          ++ [SetSelected {| newValue := true;
                             clearSelection := Some clearSelection;
                             rangeSelect := Some shiftKeyPressed |}].

Definition onMouseEvent (b : Beans) (options : SelectionOptions)
    (node : RowSelection) (eventName : string) (mouseEvent : MouseEvent)
    (s : RowState) : RowState * list MouseCall :=
  if String.eqb eventName "dblclick" then (s, onRowDblClick mouseEvent)
  else if String.eqb eventName "click"
  then (s, onRowClick options node mouseEvent s)
  else if String.eqb eventName "mousedown" then onRowMouseDown b node mouseEvent s
  else (s, []).

(* ================================================================= *)
(** ** Vocabulary of the further statements *)

(** What is known of the cell identities: a materialized cell was created
    before the next fresh identity, two slots never hold the same cell, and a
    slot is filed under the id of the column its cell is bound to. *)
Definition slotsSound (b : Beans) (c : RowController) : Prop :=
  (forall key cell,
     JsObject.get (cellComps c) key = Some (Some cell) ->
     cellId cell < nextCellComp c)
  /\ (forall key1 key2 cell1 cell2,
        JsObject.get (cellComps c) key1 = Some (Some cell1) ->
        JsObject.get (cellComps c) key2 = Some (Some cell2) ->
        cellId cell1 = cellId cell2 -> key1 = key2)
  /\ (forall key cell,
        JsObject.get (cellComps c) key = Some (Some cell) ->
        getId b (getColumn cell) = key).

(** From [c] to [c'] slots were only cleared or filled with cells created in
    between. *)
Definition slotsEvolve (c c' : RowController) : Prop :=
  nextCellComp c <= nextCellComp c'
  /\ forall key cell,
       JsObject.get (cellComps c') key = Some (Some cell) ->
       JsObject.get (cellComps c) key = Some (Some cell)
       \/ nextCellComp c <= cellId cell.

(** A step of the controller that keeps the cell identities sound and only
    clears slots or fills them with new cells. *)
Definition slotsStep (b : Beans) (c c' : RowController) : Prop :=
  (slotsSound b c -> slotsSound b c') /\ slotsEvolve c c'.

(** The calls that tear down the cells [cells], in order. *)
Definition teardownOf (cells : list CellComp) : list Effect :=
  flat_map (fun cell => [CellDetach cell; CellDestroy cell]) cells.

(** The start signal [startRowEditing] sends to a cell. *)
Definition startSignal (keyPress : option nat) (charPress : option string)
    (sourceRenderedCell : option CellComp) (cell : CellComp) : Effect :=
  let cellStartedEdit :=
    match sourceRenderedCell with
    | Some source => sameCellComp cell source
    | None => false
    end in
  if cellStartedEdit
  then CellStartEditingIfEnabled cell keyPress charPress true
  else CellStartEditingIfEnabled cell None None false.

(** The css toggle of [setEditingRow] on every row element. *)
Definition editingCss (value : bool) (c : RowController) : list Effect :=
  map (fun rowComp => AddOrRemoveCssClass (getGui rowComp) "ag-row-editing" value)
    (allRowComps c).

(** No cell was ever filed under the id ["__proto__"]: [cellComps] still has
    [Object.prototype] as its prototype and its cells are its own
    properties. *)
Definition prototypeIntact (c : RowController) : Prop :=
  JsObject.get (cellComps c) "__proto__" = None.

(** None of the ids a pass is asked to show names a member a plain object
    inherits, so the pass finds under a target id the row's own slot or
    nothing. *)
Definition plainTargets (b : Beans) (c : RowController) : Prop :=
  Forall (fun key => JsObject.inherited key = false) (targetIds b c).

(** The answer of the span search of [getRenderedCellForColumn]: the first of
    [cells] that spans [column], or null. *)
Definition firstSpanning (getColSpanningList : CellComp -> list Column)
    (column : Column) (cells : list CellComp) : Rendered :=
  match
    hd_error
      (filter (fun cell => existsb (Nat.eqb column) (getColSpanningList cell)) cells)
  with
  | Some cell => RenderedCell cell
  | None => RenderedNull
  end.

(** Fields of the row no cell operation writes. *)
Definition sameRow (c c' : RowController) : Prop :=
  rowType c' = rowType c
  /\ rowContainerReadyCount c' = rowContainerReadyCount c
  /\ printLayout c' = printLayout c.

(** The focus css [onCellFocusChanged] writes on every row element. *)
Definition focusCss (focused : bool) (c : RowController) : list Effect :=
  flat_map
    (fun rowComp =>
       [AddOrRemoveCssClass (getGui rowComp) "ag-row-focus" focused;
        AddOrRemoveCssClass (getGui rowComp) "ag-row-no-focus" (negb focused)])
    (allRowComps c).

(** One css class switched on or off on every row element. *)
Definition cssToggle (className : string) (on : bool) (c : RowController)
  : list Effect :=
  map (fun rowComp => AddOrRemoveCssClass (getGui rowComp) className on)
    (allRowComps c).

(** The calls of a confirmed [stopEditing] on a row that is editing. *)
Definition confirmedStop (c : RowController) : list Effect :=
  map (fun cell => CellStopEditing cell false) (materializedCells c)
  ++ [EventServiceDispatch EVENT_ROW_VALUE_CHANGED]
  ++ editingCss false c
  ++ [EventServiceDispatch EVENT_ROW_EDITING_STOPPED].

(** The refresh call [tryRefresh] makes for one representation, if any. *)
Definition refreshCallOf (b : Beans) (rowComp : option RowComp) (pinned : Pinned)
  : list Effect :=
  match rowComp with
  | None => []
  | Some rowComp =>
      match getFullWidthRowComp b rowComp with
      | None => []
      | Some renderer =>
          match refresh renderer with
          | None => []
          | Some _ =>
              [FullWidthRefresh rowComp (createFullWidthParams (getGui rowComp) pinned)]
          end
      end
  end.



(** A live normal row in the middle of its lazy first build, started from
    [c0]: [n] containers have built their cells, batching is on, and nothing
    was put on the task queue since. *)
Definition building (n : nat) (requested : bool) (c0 c : RowController) : Prop :=
  active c = true
  /\ rowContainerReadyCount c = n
  /\ refreshNeeded c = requested
  /\ columnRefreshPending c = false
  /\ printLayout c = false
  /\ taskQueue c = taskQueue c0
  /\ rowNode c = rowNode c0.


Module MoreSamples.

Definition stateOf (c : RowController) : RowState :=
  {| controller := c; rowFocused := true; lastMouseDownOnDragger := false;
     firstRowOnPage := None; lastRowOnPage := None |}.

Definition plainClick : MouseEvent :=
  {| ctrlKey := false; metaKey := false; shiftKey := false;
     isStopPropagationForAgGrid := false; targetInRowDrag := false |}.

Definition dragHandleDown : MouseEvent :=
  {| ctrlKey := false; metaKey := false; shiftKey := false;
     isStopPropagationForAgGrid := false; targetInRowDrag := true |}.

Definition multiSelection : SelectionOptions :=
  {| isGroupSelectsChildren := false; isRowSelection := true;
     isSuppressRowClickSelection := false; isRowMultiSelectWithClick := false;
     isSuppressRowDeselection := false |}.

Definition unselectedNode : RowSelection :=
  {| selectable := true; rowPinned := None; isSelected := false |}.

(** Batching is off: reconcile requests run at once. *)
Definition beansABSync : Beans :=
  {| getId := Samples.sampleId; getPinned := Samples.noPin;
     getAllDisplayedColumns := [0; 1];
     getViewportCenterColumnsForRow := [0; 1];
     getDisplayedLeftColumnsForRow := [];
     getDisplayedRightColumnsForRow := [];
     isPivotMode := false; isSuppressAnimationFrame := true;
     isEnsureDomOrder := true; isGroupUseEntireRow := fun _ => true;
     doingMasterDetail := false;
     isEditing := fun _ => false; isCellFocused := fun _ => false;
     getFullWidthRowComp := fun _ => None |}.

(** A normal row whose three containers have not started building. *)
Definition unbuiltRow : RowController :=
  set_rowContainerReadyCount 0 (Samples.freshRow false).

(** Cell B spans column C as well. *)
Definition spanOfB (cell : CellComp) : list Column :=
  match getColumn cell with 1 => [1; 2] | col => [col] end.

End MoreSamples.


(* ================================================================= *)
(** ** Facts about JavaScript objects *)

Module JsObjectFacts.
Import JsObject.

Section Facts.
Context {V : Type}.
Implicit Types (o : JsObject.t V) (k : string) (v : V).

Lemma get_set_eq o k v : get (set o k v) k = Some v.
Proof.
  induction o as [|[k' v'] o IH]; simpl.
  - now rewrite String.eqb_refl.
  - destruct (String.eqb k' k) eqn:E; simpl; rewrite E; auto.
Qed.

Lemma get_set_ne o k k' v : k <> k' -> get (set o k v) k' = get o k'.
Proof.
  intros Hne. induction o as [|[k0 v0] o IH]; simpl.
  - destruct (String.eqb k k') eqn:E; auto.
    apply String.eqb_eq in E. contradiction.
  - destruct (String.eqb k0 k) eqn:E; simpl.
    + apply String.eqb_eq in E. subst k0.
      destruct (String.eqb k k') eqn:E'; auto.
      apply String.eqb_eq in E'. contradiction.
    + now rewrite IH.
Qed.

Lemma in_fst_get o k : In k (map fst o) <-> get o k <> None.
Proof.
  induction o as [|[k' v'] o IH]; simpl.
  - split; [tauto | congruence].
  - destruct (String.eqb k' k) eqn:E.
    + apply String.eqb_eq in E. split; [congruence | auto].
    + apply String.eqb_neq in E. rewrite <- IH. split; [intros [?|?] | ]; tauto.
Qed.

Lemma fst_set_present o k v : get o k <> None -> map fst (set o k v) = map fst o.
Proof.
  induction o as [|[k' v'] o IH]; simpl; [congruence|].
  destruct (String.eqb k' k) eqn:E; simpl; intros H; [reflexivity|].
  now rewrite IH.
Qed.

Lemma fst_set_absent o k v : get o k = None -> map fst (set o k v) = map fst o ++ [k].
Proof.
  induction o as [|[k' v'] o IH]; simpl; [reflexivity|].
  destruct (String.eqb k' k) eqn:E; simpl; intros H; [discriminate|].
  now rewrite IH.
Qed.

Lemma keys_set_present o k v : get o k <> None -> keys (set o k v) = keys o.
Proof. intros H. unfold keys. now rewrite fst_set_present. Qed.

Lemma wf_set o k v : wf o -> wf (set o k v).
Proof.
  unfold wf. intros H. destruct (get o k) eqn:E.
  - rewrite fst_set_present; [assumption | congruence].
  - rewrite fst_set_absent by assumption.
    apply NoDup_app; [assumption | repeat constructor; auto | ].
    intros x Hx [<-|[]]. apply in_fst_get in Hx. contradiction.
Qed.

End Facts.

Lemma insertIndexKey_perm k ks : Permutation (insertIndexKey k ks) (k :: ks).
Proof.
  induction ks as [|k' ks IH]; simpl; [reflexivity|].
  destruct (indexLeb k k'); [reflexivity|].
  rewrite IH. apply perm_swap.
Qed.

Lemma sortIndexKeys_perm ks : Permutation (sortIndexKeys ks) ks.
Proof.
  induction ks as [|k ks IH]; simpl; [reflexivity|].
  rewrite insertIndexKey_perm. now constructor.
Qed.

Lemma filter_split_perm {A} (f : A -> bool) (l : list A) :
  Permutation (filter f l ++ filter (fun x => negb (f x)) l) l.
Proof.
  induction l as [|x l IH]; simpl; [reflexivity|].
  destruct (f x); simpl.
  - now constructor.
  - rewrite <- Permutation_middle. now constructor.
Qed.

Lemma ownKeyOrder_perm ks : Permutation (ownKeyOrder ks) ks.
Proof.
  unfold ownKeyOrder. rewrite sortIndexKeys_perm. apply filter_split_perm.
Qed.

Lemma in_keys {V} (o : JsObject.t V) k : In k (keys o) <-> get o k <> None.
Proof.
  rewrite <- in_fst_get. unfold keys.
  split; apply Permutation_in;
    [apply ownKeyOrder_perm | symmetry; apply ownKeyOrder_perm].
Qed.

Lemma keys_NoDup {V} (o : JsObject.t V) : wf o -> NoDup (keys o).
Proof.
  unfold wf, keys. intros H.
  eapply Permutation_NoDup; [symmetry; apply ownKeyOrder_perm | assumption].
Qed.

End JsObjectFacts.

(* ================================================================= *)
(** ** Bookkeeping lemmas *)

Arguments newCellComp : simpl never.
Arguments destroyCell : simpl never.
Arguments destroyCells : simpl never.
Arguments insertCell : simpl never.
Arguments insertCellsIntoContainer : simpl never.

Lemma Segment_eqb_eq a b : Segment_eqb a b = true <-> a = b.
Proof. destruct a, b; simpl; split; intros H; congruence. Qed.

Lemma fold_left_inv {A B} (f : A -> B -> A) (P : A -> Prop) (l : list B) (a : A) :
  P a -> (forall a x, P a -> P (f a x)) -> P (fold_left f l a).
Proof.
  intros Ha Hstep. revert a Ha.
  induction l as [|x l IH]; simpl; auto.
Qed.

Lemma fold_left_id {A B} (f : A -> B -> A) (l : list B) (a : A) :
  (forall x, In x l -> f a x = a) -> fold_left f l a = a.
Proof.
  induction l as [|x l IH]; simpl; intros H; [reflexivity|].
  rewrite (H x) by auto. apply IH. auto.
Qed.

Lemma skipn_length_app {A} (l es : list A) : skipn (List.length l) (l ++ es) = es.
Proof. induction l; simpl; auto. Qed.

Lemma effectsDuring_app f c es :
  effects (f c) = effects c ++ es -> effectsDuring f c = es.
Proof. unfold effectsDuring. intros ->. apply skipn_length_app. Qed.

Lemma emit_nil c : emit [] c = c.
Proof. destruct c. unfold emit, set_effects. simpl. now rewrite app_nil_r. Qed.

Lemma emit_emit es1 es2 c : emit es2 (emit es1 c) = emit (es1 ++ es2) c.
Proof. unfold emit, set_effects. simpl. now rewrite app_assoc. Qed.

Lemma set_columnRefreshPending_same c v :
  columnRefreshPending c = v -> set_columnRefreshPending v c = c.
Proof. destruct c. simpl. now intros ->. Qed.

Lemma set_elementOrderChanged_same c v :
  elementOrderChanged c = v -> set_elementOrderChanged v c = c.
Proof. destruct c. simpl. now intros ->. Qed.

(** *** [destroyCells] *)

Lemma destroyCell_missing key c :
  missing (JsObject.get (cellComps c) key) = true -> destroyCell key c = c.
Proof.
  unfold destroyCell. destruct (JsObject.get (cellComps c) key) as [[cell|]|];
    simpl; auto; discriminate.
Qed.

Lemma destroyCell_get_same key c :
  missing (JsObject.get (cellComps (destroyCell key c)) key) = true.
Proof.
  unfold destroyCell.
  destruct (JsObject.get (cellComps c) key) as [[cell|]|] eqn:E; simpl.
  - now rewrite JsObjectFacts.get_set_eq.
  - now rewrite E.
  - now rewrite E.
Qed.

Lemma destroyCell_get_other key k c :
  key <> k ->
  JsObject.get (cellComps (destroyCell key c)) k = JsObject.get (cellComps c) k.
Proof.
  intros Hne. unfold destroyCell.
  destruct (JsObject.get (cellComps c) key) as [[cell|]|]; simpl; auto.
  now apply JsObjectFacts.get_set_ne.
Qed.

Lemma destroyCell_fst key c :
  map fst (cellComps (destroyCell key c)) = map fst (cellComps c).
Proof.
  unfold destroyCell.
  destruct (JsObject.get (cellComps c) key) as [[cell|]|] eqn:E; simpl; auto.
  apply JsObjectFacts.fst_set_present. congruence.
Qed.

Lemma destroyCell_materialized key cell c :
  JsObject.get (cellComps c) key = Some (Some cell) ->
  JsObject.get (cellComps (destroyCell key c)) key = Some None
  /\ effects (destroyCell key c) = effects c ++ [CellDetach cell; CellDestroy cell].
Proof.
  intros E. unfold destroyCell. rewrite E. simpl.
  now rewrite JsObjectFacts.get_set_eq.
Qed.

Lemma destroyCells_missing ks c :
  (forall k, In k ks -> missing (JsObject.get (cellComps c) k) = true) ->
  destroyCells ks c = c.
Proof.
  intros H. unfold destroyCells. apply fold_left_id.
  intros k Hk. apply destroyCell_missing. auto.
Qed.

Lemma destroyCells_get_notin ks k c :
  ~ In k ks ->
  JsObject.get (cellComps (destroyCells ks c)) k = JsObject.get (cellComps c) k.
Proof.
  unfold destroyCells. revert c.
  induction ks as [|key ks IH]; simpl; intros c Hk; [reflexivity|].
  rewrite IH by tauto. apply destroyCell_get_other. tauto.
Qed.

Lemma missing_stays_missing key k c :
  missing (JsObject.get (cellComps c) k) = true ->
  missing (JsObject.get (cellComps (destroyCell key c)) k) = true.
Proof.
  intros H. destruct (String.eqb key k) eqn:E.
  - apply String.eqb_eq in E. subst. apply destroyCell_get_same.
  - apply String.eqb_neq in E. now rewrite destroyCell_get_other.
Qed.

Lemma destroyCells_get_in ks k c :
  In k ks -> missing (JsObject.get (cellComps (destroyCells ks c)) k) = true.
Proof.
  unfold destroyCells. revert c.
  induction ks as [|key ks IH]; simpl; intros c Hk; [tauto|].
  destruct (in_dec string_dec k ks) as [Hin|Hnotin]; [now apply IH|].
  destruct Hk as [->|Hk]; [|contradiction].
  fold (destroyCells ks (destroyCell k c)).
  rewrite destroyCells_get_notin by assumption.
  apply destroyCell_get_same.
Qed.

Lemma destroyCells_fst ks c :
  map fst (cellComps (destroyCells ks c)) = map fst (cellComps c).
Proof.
  unfold destroyCells.
  apply (fold_left_inv _ (fun c' => map fst (cellComps c') = map fst (cellComps c)));
    [reflexivity|].
  intros a x <-. apply destroyCell_fst.
Qed.

(** *** Frames and effect growth *)

Lemma sameFrame_refl c : sameFrame c c.
Proof. repeat split. Qed.

Lemma sameFrame_trans c1 c2 c3 : sameFrame c1 c2 -> sameFrame c2 c3 -> sameFrame c1 c3.
Proof. unfold sameFrame. intuition congruence. Qed.

Lemma extends_refl c : extends c c.
Proof. exists []. now rewrite app_nil_r. Qed.

Lemma extends_trans c1 c2 c3 : extends c1 c2 -> extends c2 c3 -> extends c1 c3.
Proof.
  intros [e1 H1] [e2 H2]. exists (e1 ++ e2). now rewrite H2, H1, app_assoc.
Qed.

Lemma extends_emit es c : extends c (emit es c).
Proof. now exists es. Qed.

Lemma extends_in c c' e : extends c c' -> In e (effects c) -> In e (effects c').
Proof. intros [es ->] H. apply in_or_app. now left. Qed.

Lemma destroyCell_frame key c :
  sameFrame c (destroyCell key c)
  /\ elementOrderChanged (destroyCell key c) = elementOrderChanged c
  /\ extends c (destroyCell key c).
Proof.
  unfold destroyCell.
  destruct (JsObject.get (cellComps c) key) as [[cell|]|]; simpl;
    repeat split; try apply extends_refl.
  now exists [CellDetach cell; CellDestroy cell].
Qed.

Lemma destroyCells_frame ks c :
  sameFrame c (destroyCells ks c)
  /\ elementOrderChanged (destroyCells ks c) = elementOrderChanged c
  /\ extends c (destroyCells ks c).
Proof.
  unfold destroyCells.
  apply (fold_left_inv _ (fun c' =>
    sameFrame c c' /\ elementOrderChanged c' = elementOrderChanged c /\ extends c c')).
  - split; [apply sameFrame_refl | split; [reflexivity | apply extends_refl]].
  - intros a x (Hf & He & Hx).
    destruct (destroyCell_frame x a) as (Hf' & He' & Hx').
    split; [eapply sameFrame_trans; eauto | split; [congruence|]].
    eapply extends_trans; eauto.
Qed.

Lemma destroyCells_destroys ks k cell c :
  In k ks ->
  JsObject.get (cellComps c) k = Some (Some cell) ->
  JsObject.get (cellComps (destroyCells ks c)) k = Some None
  /\ exists pre post,
       effects (destroyCells ks c)
       = effects c ++ pre ++ [CellDetach cell; CellDestroy cell] ++ post.
Proof.
  unfold destroyCells. revert c.
  induction ks as [|key ks IH]; simpl; intros c Hin Hget; [tauto|].
  destruct (string_dec key k) as [->|Hne].
  - destruct (destroyCell_materialized k cell c Hget) as [Hnone Heff].
    fold (destroyCells ks (destroyCell k c)). split.
    + destruct (in_dec string_dec k ks) as [Hk|Hk].
      * pose proof (destroyCells_get_in ks k (destroyCell k c) Hk) as Hm.
        pose proof (destroyCells_fst ks (destroyCell k c)) as Hfst.
        destruct (JsObject.get (cellComps (destroyCells ks (destroyCell k c))) k)
          as [[x|]|] eqn:E; try discriminate; [reflexivity|].
        exfalso.
        assert (Hp : In k (map fst (cellComps (destroyCells ks (destroyCell k c))))).
        { rewrite Hfst. apply JsObjectFacts.in_fst_get. congruence. }
        apply JsObjectFacts.in_fst_get in Hp. contradiction.
      * now rewrite destroyCells_get_notin.
    + destruct (destroyCells_frame ks (destroyCell k c)) as (_ & _ & [post Hpost]).
      exists [], post. rewrite Hpost, Heff. simpl. now rewrite <- app_assoc.
  - destruct Hin as [Heq|Hin]; [contradiction|].
    destruct (IH (destroyCell key c) Hin) as [Hnone (pre & post & Heff)].
    { now rewrite destroyCell_get_other. }
    split; [assumption|].
    destruct (destroyCell_frame key c) as (_ & _ & [es Hes]).
    exists (es ++ pre), post. rewrite Heff, Hes. now rewrite <- !app_assoc.
Qed.

(** *** [newCellComp] and [insertCell] *)

Lemma newCellComp_get_same b col eRow c :
  JsObject.get (cellComps (newCellComp b col eRow c)) (getId b col)
  = Some (Some {| cellId := nextCellComp c; getColumn := col; getParentRow := eRow |}).
Proof. unfold newCellComp. simpl. apply JsObjectFacts.get_set_eq. Qed.

Lemma newCellComp_get_other b col eRow c k :
  getId b col <> k ->
  JsObject.get (cellComps (newCellComp b col eRow c)) k = JsObject.get (cellComps c) k.
Proof. intros H. unfold newCellComp. simpl. now apply JsObjectFacts.get_set_ne. Qed.

Lemma newCellComp_frame b col eRow c :
  sameFrame c (newCellComp b col eRow c) /\ extends c (newCellComp b col eRow c).
Proof.
  unfold newCellComp. simpl. split; [repeat split|].
  eexists. simpl. rewrite <- app_assoc. reflexivity.
Qed.

Lemma insertCell_kept b eRow col c :
  slotKept b c col -> insertCell b eRow col c = c.
Proof.
  intros (cell & Hget & Hcol & Hwrong). unfold insertCell.
  now rewrite Hget, Hcol, Nat.eqb_refl, Hwrong.
Qed.

Lemma insertCell_get_other b eRow col c k :
  getId b col <> k ->
  JsObject.get (cellComps (insertCell b eRow col c)) k = JsObject.get (cellComps c) k.
Proof.
  intros Hne. unfold insertCell.
  destruct (match JsObject.get (cellComps c) (getId b col) with
            | Some (Some cell) => _ | _ => false end); [reflexivity|].
  cbn. rewrite newCellComp_get_other by assumption.
  destruct (missing _); [reflexivity|].
  apply destroyCells_get_notin. simpl. tauto.
Qed.

Lemma insertCell_settles b eRow col c :
  getContainerForCell (getPinned b col) = eRow ->
  slotKept b (insertCell b eRow col c) col.
Proof.
  intros Hpin. unfold insertCell.
  destruct (JsObject.get (cellComps c) (getId b col)) as [[cell|]|] eqn:Hget.
  1: destruct ((getColumn cell =? col) && negb (isCellInWrongContainer b cell)) eqn:K.
  1: { apply andb_prop in K. destruct K as [K1 K2].
       apply Nat.eqb_eq in K1. apply negb_true_iff in K2.
       exists cell. auto. }
  all: eexists; simpl; split; [apply newCellComp_get_same|]; split; [reflexivity|];
    unfold isCellInWrongContainer; simpl; rewrite Hpin;
    destruct eRow; reflexivity.
Qed.

Lemma slotKept_ext b c c' col :
  JsObject.get (cellComps c') (getId b col) = JsObject.get (cellComps c) (getId b col) ->
  slotKept b c col -> slotKept b c' col.
Proof. intros H (cell & Hget & Hrest). exists cell. now rewrite H. Qed.

Lemma insertCell_frame b eRow col c :
  sameFrame c (insertCell b eRow col c)
  /\ extends c (insertCell b eRow col c)
  /\ (JsObject.wf (cellComps c) -> JsObject.wf (cellComps (insertCell b eRow col c))).
Proof.
  unfold insertCell.
  destruct (match JsObject.get (cellComps c) (getId b col) with
            | Some (Some cell) => _ | _ => false end).
  { split; [apply sameFrame_refl | split; [apply extends_refl | auto]]. }
  set (c1 := if missing _ then c else destroyCells [getId b col] c).
  assert (H1 : sameFrame c c1 /\ extends c c1
               /\ map fst (cellComps c1) = map fst (cellComps c)).
  { subst c1. destruct (missing _).
    - split; [apply sameFrame_refl | split; [apply extends_refl | reflexivity]].
    - destruct (destroyCells_frame [getId b col] c) as (? & _ & ?).
      split; [assumption | split; [assumption | apply destroyCells_fst]]. }
  destruct H1 as (Hf & He & Hk).
  destruct (newCellComp_frame b col eRow c1) as [Hf' He'].
  split; [|split].
  - eapply sameFrame_trans; [exact Hf|]. exact Hf'.
  - eapply extends_trans; [exact He|]. exact He'.
  - intros Hwf. simpl. apply JsObjectFacts.wf_set.
    unfold JsObject.wf. now rewrite Hk.
Qed.

(** *** [insertCellsIntoContainer] *)

Lemma insertCells_fold_spec b eRow cols c :
  let c' := fold_left (fun c col => insertCell b eRow col c) cols c in
  sameFrame c c'
  /\ extends c c'
  /\ (JsObject.wf (cellComps c) -> JsObject.wf (cellComps c'))
  /\ (forall k, ~ In k (map (getId b) cols) ->
        JsObject.get (cellComps c') k = JsObject.get (cellComps c) k)
  /\ (NoDup (map (getId b) cols) -> pinnedTo b eRow cols ->
      Forall (slotKept b c') cols).
Proof.
  revert c. induction cols as [|col cols IH]; simpl; intros c.
  - split; [apply sameFrame_refl|]. split; [apply extends_refl|].
    split; [auto|]. split; [auto|]. intros _ _. constructor.
  - destruct (insertCell_frame b eRow col c) as (Hf & He & Hwf).
    destruct (IH (insertCell b eRow col c)) as (Hf' & He' & Hwf' & Hget' & Hkept').
    split; [eapply sameFrame_trans; eauto|].
    split; [eapply extends_trans; eauto|].
    split; [auto|].
    split.
    + intros k Hk. rewrite Hget' by tauto. apply insertCell_get_other. tauto.
    + intros Hnd Hpin. inversion Hnd as [|? ? Hnotin Hnd']; subst.
      inversion Hpin as [|? ? Hp Hpin']; subst.
      constructor; [|now apply Hkept'].
      eapply slotKept_ext; [apply Hget'; assumption|].
      now apply insertCell_settles.
Qed.

Lemma insertCellsIntoContainer_cellComps b eRow cols c :
  cellComps (insertCellsIntoContainer b eRow cols c)
  = cellComps (fold_left (fun c col => insertCell b eRow col c) cols c).
Proof.
  unfold insertCellsIntoContainer.
  destruct (_ && _); reflexivity.
Qed.

Lemma insertCellsIntoContainer_spec b eRow cols c :
  let c' := insertCellsIntoContainer b eRow cols c in
  sameFrame c c'
  /\ extends c c'
  /\ (JsObject.wf (cellComps c) -> JsObject.wf (cellComps c'))
  /\ (forall k, ~ In k (map (getId b) cols) ->
        JsObject.get (cellComps c') k = JsObject.get (cellComps c) k)
  /\ (NoDup (map (getId b) cols) -> pinnedTo b eRow cols ->
      Forall (slotKept b c') cols).
Proof.
  destruct (insertCells_fold_spec b eRow cols c) as (Hf & He & Hwf & Hget & Hkept).
  cbv zeta. rewrite insertCellsIntoContainer_cellComps.
  assert (Hs : forall col,
    slotKept b (fold_left (fun c col => insertCell b eRow col c) cols c) col ->
    slotKept b (insertCellsIntoContainer b eRow cols c) col).
  { intros col. apply slotKept_ext. now rewrite insertCellsIntoContainer_cellComps. }
  split; [|split; [|split; [assumption|split; [assumption|]]]].
  - unfold insertCellsIntoContainer. destruct (_ && _); [|assumption].
    destruct Hf as (? & ? & ? & ? & ?). repeat split; assumption.
  - unfold insertCellsIntoContainer. destruct (_ && _); [|assumption].
    eapply extends_trans; [exact He | apply extends_emit].
  - intros Hnd Hpin. eapply Forall_impl; [exact Hs | auto].
Qed.

Lemma insertCellsIntoContainer_kept b eRow cols c :
  Forall (slotKept b c) cols ->
  elementOrderChanged c = false ->
  insertCellsIntoContainer b eRow cols c = c.
Proof.
  intros Hall Heoc. unfold insertCellsIntoContainer.
  rewrite fold_left_id.
  - now rewrite Heoc.
  - intros col Hin. apply insertCell_kept.
    rewrite Forall_forall in Hall. auto.
Qed.

(** *** Removal candidates *)

Lemma removeFromArray_in array object k :
  In k (removeFromArray array object) -> In k array.
Proof.
  induction array as [|x rest IH]; simpl; [tauto|].
  destruct (String.eqb x object); simpl; [tauto|]. intros [?|?]; auto.
Qed.

Lemma removeFromArray_keeps array object k :
  k <> object -> In k array -> In k (removeFromArray array object).
Proof.
  intros Hne. induction array as [|x rest IH]; simpl; [tauto|].
  destruct (String.eqb x object) eqn:E; simpl.
  - apply String.eqb_eq in E. subst. intros [?|?]; [congruence | assumption].
  - intros [?|?]; auto.
Qed.

Lemma removeFromArray_NoDup array object :
  NoDup array ->
  NoDup (removeFromArray array object) /\ ~ In object (removeFromArray array object).
Proof.
  induction array as [|x rest IH]; simpl; intros Hnd.
  - split; [constructor | tauto].
  - inversion Hnd as [|? ? Hx Hrest]; subst.
    destruct (String.eqb x object) eqn:E.
    + apply String.eqb_eq in E. subst. auto.
    + apply String.eqb_neq in E. destruct (IH Hrest) as [IH1 IH2]. split.
      * constructor; [|assumption]. intros Hin. apply Hx.
        eapply removeFromArray_in; eauto.
      * simpl. intros [?|?]; [congruence | auto].
Qed.

Lemma removeColumns_spec b cols ids :
  (forall k, In k (removeColumns b cols ids) -> In k ids)
  /\ (forall k, ~ In k (map (getId b) cols) -> In k ids ->
        In k (removeColumns b cols ids))
  /\ (NoDup ids ->
      NoDup (removeColumns b cols ids)
      /\ forall k, In k (removeColumns b cols ids) -> ~ In k (map (getId b) cols)).
Proof.
  unfold removeColumns. revert ids.
  induction cols as [|col cols IH]; simpl; intros ids.
  - split; [auto|]. split; [auto|]. intros Hnd. split; [assumption | tauto].
  - destruct (IH (removeFromArray ids (getId b col))) as (H1 & H2 & H3).
    split; [|split].
    + intros k Hk. eapply removeFromArray_in. apply H1. exact Hk.
    + intros k Hk Hin. apply H2; [tauto|].
      apply removeFromArray_keeps; [|assumption]. intros ->. tauto.
    + intros Hnd. destruct (removeFromArray_NoDup ids (getId b col) Hnd) as [Hnd' Hx].
      destruct (H3 Hnd') as [H3a H3b]. split; [assumption|].
      intros k Hk [Heq|Hin]; [|now apply (H3b k)].
      subst k. apply Hx. apply H1. exact Hk.
Qed.

Lemma removalCandidates_spec b c :
  (forall k, In k (removalCandidates b c) -> In k (JsObject.keys (cellComps c)))
  /\ (forall k, ~ In k (targetIds b c) -> In k (JsObject.keys (cellComps c)) ->
        In k (removalCandidates b c))
  /\ (JsObject.wf (cellComps c) ->
      forall k, In k (removalCandidates b c) -> ~ In k (targetIds b c)).
Proof.
  unfold removalCandidates, targetIds.
  destruct (targetColumns b c) as [[centerCols leftCols] rightCols].
  set (ks := JsObject.keys (cellComps c)).
  destruct (removeColumns_spec b centerCols ks) as (C1 & C2 & C3).
  destruct (removeColumns_spec b leftCols (removeColumns b centerCols ks))
    as (L1 & L2 & L3).
  destruct (removeColumns_spec b rightCols
              (removeColumns b leftCols (removeColumns b centerCols ks)))
    as (R1 & R2 & R3).
  split; [|split].
  - auto.
  - intros k Hk Hin. rewrite !map_app, !in_app_iff in Hk.
    apply R2; [tauto|]. apply L2; [tauto|]. apply C2; [tauto|]. assumption.
  - intros Hwf k Hk. apply JsObjectFacts.keys_NoDup in Hwf. fold ks in Hwf.
    destruct (C3 Hwf) as [Cn Cx]. destruct (L3 Cn) as [Ln Lx].
    destruct (R3 Ln) as [Rn Rx].
    rewrite !map_app, !in_app_iff. intros [H|[H|H]].
    + apply (Cx k); auto.
    + apply (Lx k); auto.
    + apply (Rx k); auto.
Qed.

(** *** The two halves of a pass *)

Lemma NoDup_app_parts {A} (l1 l2 : list A) :
  NoDup (l1 ++ l2) ->
  NoDup l1 /\ NoDup l2 /\ (forall x, In x l1 -> ~ In x l2).
Proof.
  induction l1 as [|a l1 IH]; simpl; intros H.
  - split; [constructor | split; [assumption | tauto]].
  - inversion H as [|? ? Ha Hrest]; subst.
    destruct (IH Hrest) as (H1 & H2 & H3).
    split; [constructor; [|assumption]|split; [assumption|]].
    + intros Hin. apply Ha. apply in_or_app. now left.
    + intros x [<-|Hx]; [|now apply H3].
      intros Hin. apply Ha. apply in_or_app. now right.
Qed.

Lemma eligible_ext b c c' k :
  JsObject.get (cellComps c') k = JsObject.get (cellComps c) k ->
  isCellEligibleToBeRemoved b c' k = isCellEligibleToBeRemoved b c k.
Proof. unfold isCellEligibleToBeRemoved. now intros ->. Qed.

Lemma refreshCellsInAnimationFrame_inactive b c :
  active c = false -> refreshCellsInAnimationFrame b c = c.
Proof. unfold refreshCellsInAnimationFrame. now intros ->. Qed.

Lemma insertPhase_frame b c :
  let m := insertPhase b c in
  active m = active c
  /\ printLayout m = printLayout c
  /\ leftRowComp m = leftRowComp c
  /\ rightRowComp m = rightRowComp c
  /\ columnRefreshPending m = false
  /\ elementOrderChanged m = false
  /\ extends c m
  /\ (JsObject.wf (cellComps c) -> JsObject.wf (cellComps m))
  /\ (forall k, ~ In k (targetIds b c) ->
        JsObject.get (cellComps m) k = JsObject.get (cellComps c) k).
Proof.
  unfold insertPhase, targetIds.
  change (targetColumns b (set_columnRefreshPending false c)) with (targetColumns b c).
  destruct (targetColumns b c) as [[centerCols leftCols] rightCols].
  set (c0 := set_columnRefreshPending false c).
  set (c1 := insertCellsIntoContainer b (getGui SegCenter) centerCols c0).
  set (c2 := match leftRowComp c1 with
             | Some _ => insertCellsIntoContainer b (getGui SegLeft) leftCols c1
             | None => c1 end).
  set (c3 := match rightRowComp c2 with
             | Some _ => insertCellsIntoContainer b (getGui SegRight) rightCols c2
             | None => c2 end).
  destruct (insertCellsIntoContainer_spec b (getGui SegCenter) centerCols c0)
    as (F1 & E1 & W1 & G1 & _). fold c1 in F1, E1, W1, G1.
  assert (S2 : sameFrame c1 c2 /\ extends c1 c2
               /\ (JsObject.wf (cellComps c1) -> JsObject.wf (cellComps c2))
               /\ (forall k, ~ In k (map (getId b) leftCols) ->
                     JsObject.get (cellComps c2) k = JsObject.get (cellComps c1) k)).
  { subst c2. destruct (leftRowComp c1).
    - destruct (insertCellsIntoContainer_spec b (getGui SegLeft) leftCols c1)
        as (? & ? & ? & ? & _). auto.
    - split; [apply sameFrame_refl | split; [apply extends_refl | auto]]. }
  destruct S2 as (F2 & E2 & W2 & G2).
  assert (S3 : sameFrame c2 c3 /\ extends c2 c3
               /\ (JsObject.wf (cellComps c2) -> JsObject.wf (cellComps c3))
               /\ (forall k, ~ In k (map (getId b) rightCols) ->
                     JsObject.get (cellComps c3) k = JsObject.get (cellComps c2) k)).
  { subst c3. destruct (rightRowComp c2).
    - destruct (insertCellsIntoContainer_spec b (getGui SegRight) rightCols c2)
        as (? & ? & ? & ? & _). auto.
    - split; [apply sameFrame_refl | split; [apply extends_refl | auto]]. }
  destruct S3 as (F3 & E3 & W3 & G3).
  pose proof (sameFrame_trans _ _ _ (sameFrame_trans _ _ _ F1 F2) F3) as F.
  destruct F as (Fa & Fp & Fl & Fr & Fc).
  cbv zeta.
  split; [exact Fa|]. split; [exact Fp|]. split; [exact Fl|]. split; [exact Fr|].
  split; [exact Fc|]. split; [reflexivity|].
  split; [|split].
  - apply (extends_trans c c3); [|now exists []; simpl; rewrite app_nil_r].
    apply (extends_trans c c0); [now exists []; simpl; rewrite app_nil_r|].
    eapply extends_trans; [exact E1|]. eapply extends_trans; [exact E2 | exact E3].
  - intros Hwf. apply W3, W2, W1. exact Hwf.
  - intros k Hk. rewrite !map_app, !in_app_iff in Hk.
    change (JsObject.get (cellComps c3) k = JsObject.get (cellComps c0) k).
    rewrite G3 by tauto. rewrite G2 by tauto. now rewrite G1 by tauto.
Qed.

Lemma insertPhase_settles b c :
  targetsConsistent b c ->
  let m := insertPhase b c in
  let '(centerCols, leftCols, rightCols) := targetColumns b c in
  Forall (slotKept b m) centerCols
  /\ (leftRowComp c <> None -> Forall (slotKept b m) leftCols)
  /\ (rightRowComp c <> None -> Forall (slotKept b m) rightCols).
Proof.
  unfold targetsConsistent, insertPhase.
  change (targetColumns b (set_columnRefreshPending false c)) with (targetColumns b c).
  destruct (targetColumns b c) as [[centerCols leftCols] rightCols].
  intros (Hnd & Pc & Pl & Pr).
  rewrite !map_app in Hnd.
  destruct (NoDup_app_parts _ _ Hnd) as (Nc & Nlr & Dc).
  destruct (NoDup_app_parts _ _ Nlr) as (Nl & Nr & Dl).
  set (c0 := set_columnRefreshPending false c).
  set (c1 := insertCellsIntoContainer b (getGui SegCenter) centerCols c0).
  set (c2 := match leftRowComp c1 with
             | Some _ => insertCellsIntoContainer b (getGui SegLeft) leftCols c1
             | None => c1 end).
  set (c3 := match rightRowComp c2 with
             | Some _ => insertCellsIntoContainer b (getGui SegRight) rightCols c2
             | None => c2 end).
  destruct (insertCellsIntoContainer_spec b (getGui SegCenter) centerCols c0)
    as (F1 & _ & _ & _ & K1). fold c1 in F1, K1. specialize (K1 Nc Pc).
  assert (L1 : leftRowComp c1 = leftRowComp c) by apply F1.
  assert (S2 : sameFrame c1 c2
               /\ (forall k, ~ In k (map (getId b) leftCols) ->
                     JsObject.get (cellComps c2) k = JsObject.get (cellComps c1) k)
               /\ (leftRowComp c <> None -> Forall (slotKept b c2) leftCols)).
  { subst c2. rewrite <- L1. destruct (leftRowComp c1).
    - destruct (insertCellsIntoContainer_spec b (getGui SegLeft) leftCols c1)
        as (? & _ & _ & ? & ?). auto.
    - split; [apply sameFrame_refl | split; [auto | intros H; now elim H]]. }
  destruct S2 as (F2 & G2 & K2).
  assert (R2 : rightRowComp c2 = rightRowComp c).
  { destruct F1 as (_ & _ & _ & F1 & _), F2 as (_ & _ & _ & F2 & _).
    rewrite F2, F1. reflexivity. }
  assert (S3 : (forall k, ~ In k (map (getId b) rightCols) ->
                     JsObject.get (cellComps c3) k = JsObject.get (cellComps c2) k)
               /\ (rightRowComp c <> None -> Forall (slotKept b c3) rightCols)).
  { subst c3. rewrite <- R2. destruct (rightRowComp c2).
    - destruct (insertCellsIntoContainer_spec b (getGui SegRight) rightCols c2)
        as (_ & _ & _ & ? & ?). auto.
    - split; [auto | intros H; now elim H]. }
  destruct S3 as (G3 & K3).
  assert (Hext : forall cX col, cellComps cX = cellComps c3 ->
            slotKept b c3 col -> slotKept b cX col).
  { intros cX col HX. apply slotKept_ext. now rewrite HX. }
  cbv zeta. split; [|split].
  - rewrite Forall_forall in *. intros col Hin.
    apply (Hext _ _ eq_refl).
    assert (Hid : In (getId b col) (map (getId b) centerCols)) by now apply in_map.
    specialize (Dc _ Hid). rewrite in_app_iff in Dc.
    eapply slotKept_ext; [apply G3; tauto|].
    eapply slotKept_ext; [apply G2; tauto|]. auto.
  - intros Hl. specialize (K2 Hl). rewrite Forall_forall in *. intros col Hin.
    apply (Hext _ _ eq_refl).
    assert (Hid : In (getId b col) (map (getId b) leftCols)) by now apply in_map.
    eapply slotKept_ext; [apply G3; now apply Dl|]. auto.
  - intros Hr. specialize (K3 Hr). rewrite Forall_forall in *. intros col Hin.
    apply (Hext _ _ eq_refl). auto.
Qed.

Lemma refreshCellsInAnimationFrame_phases b c :
  active c = true ->
  refreshCellsInAnimationFrame b c
  = destroyCells
      (filter (isCellEligibleToBeRemoved b (insertPhase b c))
         (removalCandidates b (insertPhase b c)))
      (insertPhase b c).
Proof.
  intros Ha. destruct (insertPhase_frame b c) as (_ & Hp & _).
  unfold refreshCellsInAnimationFrame, removalCandidates. rewrite Ha. simpl negb.
  cbv iota.
  assert (Ht : targetColumns b (insertPhase b c) = targetColumns b c).
  { unfold targetColumns. now rewrite Hp. }
  rewrite Ht. unfold insertPhase.
  change (targetColumns b (set_columnRefreshPending false c)) with (targetColumns b c).
  destruct (targetColumns b c) as [[centerCols leftCols] rightCols].
  reflexivity.
Qed.

(** A pass keeps the object well formed: every key still occurs once. *)
Lemma refreshCellsInAnimationFrame_wf b c :
  JsObject.wf (cellComps c) ->
  JsObject.wf (cellComps (refreshCellsInAnimationFrame b c)).
Proof.
  intros Hwf. destruct (active c) eqn:Ha.
  - rewrite (refreshCellsInAnimationFrame_phases b c Ha).
    unfold JsObject.wf. rewrite destroyCells_fst.
    now apply insertPhase_frame.
  - now rewrite (refreshCellsInAnimationFrame_inactive b c Ha).
Qed.

(* ================================================================= *)
(** ** Reconcile: the per-column step *)

(** The columns of a target list are visited in list order: the state a
    column is visited in is the one the columns before it left behind. *)
Lemma insertCellsIntoContainer_in_order b eRow before col after c :
  cellComps (insertCellsIntoContainer b eRow (before ++ col :: after) c)
  = cellComps
      (fold_left (fun c col => insertCell b eRow col c) after
         (insertCell b eRow col
            (fold_left (fun c col => insertCell b eRow col c) before c))).
Proof.
  rewrite insertCellsIntoContainer_cellComps. now rewrite fold_left_app.
Qed.

(** The keep test of the step, as the code makes it.  When the turn of
    target column [col] comes in [insertCellsIntoContainer] and a slot exists
    under its id, the step leaves the controller untouched exactly when the
    slot is bound to this very column object and sits in the container its
    pin side selects.  Otherwise the old cell is detached and destroyed
    first, then a fresh cell for [col] is created, stored under the id and
    appended to the container. *)
Theorem insertCell_keeps_or_replaces b eRow col c existing :
  JsObject.get (cellComps c) (getId b col) = Some (Some existing) ->
  let kept := getColumn existing = col /\ isCellInWrongContainer b existing = false in
  let fresh := {| cellId := nextCellComp c; getColumn := col; getParentRow := eRow |} in
  (insertCell b eRow col c = c <-> kept)
  /\ (~ kept ->
      effects (insertCell b eRow col c)
      = effects c ++ [CellDetach existing; CellDestroy existing;
                      NewCellComp fresh (printLayout c) (editingRow c);
                      AppendChild eRow fresh]
      /\ JsObject.get (cellComps (insertCell b eRow col c)) (getId b col)
         = Some (Some fresh)
      /\ elementOrderChanged (insertCell b eRow col c) = true).
Proof.
  intros Hget kept fresh.
  assert (Hreplace : ~ kept ->
      effects (insertCell b eRow col c)
      = effects c ++ [CellDetach existing; CellDestroy existing;
                      NewCellComp fresh (printLayout c) (editingRow c);
                      AppendChild eRow fresh]
      /\ JsObject.get (cellComps (insertCell b eRow col c)) (getId b col)
         = Some (Some fresh)
      /\ elementOrderChanged (insertCell b eRow col c) = true).
  { intros Hnot. unfold insertCell. rewrite Hget.
    destruct ((getColumn existing =? col) && negb (isCellInWrongContainer b existing))
      eqn:K.
    { exfalso. apply Hnot. apply andb_prop in K. destruct K as [K1 K2].
      apply Nat.eqb_eq in K1. apply negb_true_iff in K2. now split. }
    cbn [missing]. unfold destroyCells. cbn [fold_left].
    unfold destroyCell. rewrite Hget.
    split; [|split].
    - unfold newCellComp, emit. simpl. rewrite <- !app_assoc. reflexivity.
    - unfold newCellComp. simpl. apply JsObjectFacts.get_set_eq.
    - reflexivity. }
  split; [|exact Hreplace].
  split.
  - intros Heq.
    destruct (Nat.eq_dec (getColumn existing) col) as [Hc|Hc];
      [destruct (isCellInWrongContainer b existing) eqn:Hw|].
    + exfalso. destruct Hreplace as (He & _).
      { intros [_ Hk]. discriminate. }
      rewrite Heq in He. apply (f_equal (@List.length _)) in He.
      rewrite length_app in He. simpl in He. lia.
    + now split.
    + exfalso. destruct Hreplace as (He & _).
      { intros [Hk _]. contradiction. }
      rewrite Heq in He. apply (f_equal (@List.length _)) in He.
      rewrite length_app in He. simpl in He. lia.
  - intros [Hc Hw]. apply insertCell_kept. exists existing. auto.
Qed.

(** At a concrete row: column A's cell is kept for A itself and replaced for
    a new column object that reuses the id A. *)
Lemma insertCell_keeps_or_replaces_witness :
  (insertCell Samples.beansAB SegCenter 0 Samples.rowAB = Samples.rowAB
   <-> getColumn Samples.cellA = 0
       /\ isCellInWrongContainer Samples.beansAB Samples.cellA = false)
  /\ JsObject.get
       (cellComps (insertCell Samples.beansReplaced SegCenter 3 Samples.rowAB)) "A"
     = Some (Some {| cellId := 2; getColumn := 3; getParentRow := SegCenter |}).
Proof.
  split.
  - refine (proj1 (insertCell_keeps_or_replaces Samples.beansAB SegCenter 0
                     Samples.rowAB Samples.cellA _)).
    vm_compute. reflexivity.
  - refine (proj1 (proj2 (proj2 (insertCell_keeps_or_replaces Samples.beansReplaced
                                   SegCenter 3 Samples.rowAB Samples.cellA _) _))).
    + vm_compute. reflexivity.
    + vm_compute. intros [H _]. discriminate.
Defined.

(** C5.  The keep test does not look at the container that is being filled.
    Let the slot under the id of target column [col] be bound to this very
    column object and sit in [eRow], the container being filled.  The step
    keeps it only if [eRow] is also the container the column's pin side
    selects.  When it is not, as for a pinned column in print layout, whose
    cell the controller itself files in the center, the step detaches and
    destroys the cell and creates a new one for the same column in the same
    container. *)
Theorem insertCell_replaces_cell_already_in_place b eRow col c existing :
  JsObject.get (cellComps c) (getId b col) = Some (Some existing) ->
  getColumn existing = col ->
  getParentRow existing = eRow ->
  let fresh := {| cellId := nextCellComp c; getColumn := col; getParentRow := eRow |} in
  (insertCell b eRow col c = c <-> getContainerForCell (getPinned b col) = eRow)
  /\ (getContainerForCell (getPinned b col) <> eRow ->
      effectsDuring (insertCell b eRow col) c
      = [CellDetach existing; CellDestroy existing;
         NewCellComp fresh (printLayout c) (editingRow c);
         AppendChild eRow fresh]
      /\ JsObject.get (cellComps (insertCell b eRow col c)) (getId b col)
         = Some (Some fresh)).
Proof.
  intros Hget Hcol Hrow fresh.
  assert (Hwrong : isCellInWrongContainer b existing = false
                   <-> getContainerForCell (getPinned b col) = eRow).
  { unfold isCellInWrongContainer. rewrite Hcol, Hrow, negb_false_iff.
    rewrite Segment_eqb_eq. split; congruence. }
  destruct (insertCell_keeps_or_replaces b eRow col c existing Hget)
    as (Hkeep & Hreplace).
  split.
  - rewrite Hkeep, <- Hwrong. tauto.
  - intros Hne.
    destruct Hreplace as (Heff & Hslot & _).
    { intros [_ Hk]. apply Hne. now apply Hwrong. }
    split; [|exact Hslot]. apply effectsDuring_app. exact Heff.
Qed.

(** C5, at a concrete row: print layout, column A pinned left.  The first
    pass has filed the cell of A in the center; when the center is filled
    again, the cell is destroyed and a new one created in its place. *)
Lemma insertCell_replaces_cell_already_in_place_witness :
  effectsDuring (insertCell Samples.beansPinned SegCenter 0)
    (refreshCellsInAnimationFrame Samples.beansPinned (Samples.freshRow true))
  = [CellDetach Samples.cellA; CellDestroy Samples.cellA;
     NewCellComp
       {| cellId :=
            nextCellComp
              (refreshCellsInAnimationFrame Samples.beansPinned
                 (Samples.freshRow true));
          getColumn := 0; getParentRow := SegCenter |}
       (printLayout
          (refreshCellsInAnimationFrame Samples.beansPinned (Samples.freshRow true)))
       (editingRow
          (refreshCellsInAnimationFrame Samples.beansPinned (Samples.freshRow true)));
     AppendChild SegCenter
       {| cellId :=
            nextCellComp
              (refreshCellsInAnimationFrame Samples.beansPinned
                 (Samples.freshRow true));
          getColumn := 0; getParentRow := SegCenter |}].
Proof.
  refine (proj1 (proj2
            (insertCell_replaces_cell_already_in_place Samples.beansPinned SegCenter 0
               (refreshCellsInAnimationFrame Samples.beansPinned
                  (Samples.freshRow true))
               Samples.cellA _ _ _) _)).
  - vm_compute. reflexivity.
  - reflexivity.
  - reflexivity.
  - vm_compute. discriminate.
Defined.

(* ================================================================= *)
(** ** Reconcile: removal and the editing exemption *)







(* ================================================================= *)
(** ** Reconcile: idempotence *)

Lemma targetColumns_frame b c c' :
  printLayout c' = printLayout c -> targetColumns b c' = targetColumns b c.
Proof. unfold targetColumns. now intros ->. Qed.

(** A state in which every column a pass would visit already has the slot
    the pass wants, and nothing is pending, is left alone by the insert
    half. *)
Lemma insertPhase_settled b c :
  columnRefreshPending c = false ->
  elementOrderChanged c = false ->
  (let '(centerCols, leftCols, rightCols) := targetColumns b c in
   Forall (slotKept b c) centerCols
   /\ (leftRowComp c <> None -> Forall (slotKept b c) leftCols)
   /\ (rightRowComp c <> None -> Forall (slotKept b c) rightCols)) ->
  insertPhase b c = c.
Proof.
  intros Hp He. unfold insertPhase.
  rewrite (set_columnRefreshPending_same c false Hp).
  destruct (targetColumns b c) as [[centerCols leftCols] rightCols].
  intros (Kc & Kl & Kr).
  rewrite (insertCellsIntoContainer_kept b _ centerCols c Kc He).
  destruct (leftRowComp c) eqn:El.
  - rewrite (insertCellsIntoContainer_kept b _ leftCols c) by (auto; apply Kl; congruence).
    destruct (rightRowComp c) eqn:Er.
    + rewrite (insertCellsIntoContainer_kept b _ rightCols c)
        by (auto; apply Kr; congruence).
      now apply set_elementOrderChanged_same.
    + now apply set_elementOrderChanged_same.
  - destruct (rightRowComp c) eqn:Er.
    + rewrite (insertCellsIntoContainer_kept b _ rightCols c)
        by (auto; apply Kr; congruence).
      now apply set_elementOrderChanged_same.
    + now apply set_elementOrderChanged_same.
Qed.

Lemma refreshCellsInAnimationFrame_fixpoint b c :
  JsObject.wf (cellComps c) ->
  targetsConsistent b c ->
  refreshCellsInAnimationFrame b (refreshCellsInAnimationFrame b c)
  = refreshCellsInAnimationFrame b c.
Proof.
  intros Hwf Hcons.
  destruct (active c) eqn:Ha.
  2: { now rewrite !(refreshCellsInAnimationFrame_inactive b c Ha). }
  rewrite (refreshCellsInAnimationFrame_phases b c Ha).
  destruct (insertPhase_frame b c)
    as (Ma & Mp & Ml & Mr & Mc & Me & _ & Mwf & _).
  pose proof (insertPhase_settles b c Hcons) as Hkept. cbv zeta in Hkept.
  set (m := insertPhase b c) in *.
  set (gone := filter (isCellEligibleToBeRemoved b m) (removalCandidates b m)).
  set (c1 := destroyCells gone m).
  destruct (destroyCells_frame gone m) as ((Fa & Fp & Fl & Fr & Fc) & Fe & _).
  fold c1 in Fa, Fp, Fl, Fr, Fc, Fe.
  assert (Hgone : forall k, In k gone -> ~ In k (targetIds b c)).
  { intros k Hk. apply filter_In in Hk. destruct Hk as [Hk _].
    apply removalCandidates_spec in Hk; [|now apply Mwf].
    unfold targetIds in *. now rewrite (targetColumns_frame b c m Mp) in Hk. }
  assert (Hstay : forall cols,
            (forall col, In col cols -> In (getId b col) (targetIds b c)) ->
            Forall (slotKept b m) cols -> Forall (slotKept b c1) cols).
  { intros cols Hsub Hall. rewrite Forall_forall in *. intros col Hin.
    eapply slotKept_ext; [|now apply Hall].
    apply destroyCells_get_notin. intros Hg. apply (Hgone _ Hg). now apply Hsub. }
  assert (Hactive : active c1 = true) by congruence.
  rewrite (refreshCellsInAnimationFrame_phases b c1 Hactive).
  assert (Hsame : insertPhase b c1 = c1).
  { apply insertPhase_settled; [congruence | congruence |].
    rewrite (targetColumns_frame b c c1) by congruence.
    unfold targetIds in Hstay.
    destruct (targetColumns b c) as [[centerCols leftCols] rightCols].
    destruct Hkept as (Kc & Kl & Kr).
    split; [|split].
    - apply Hstay; [|assumption]. intros col Hin.
      apply in_map. apply in_or_app. now left.
    - intros Hl. apply Hstay; [|apply Kl; congruence]. intros col Hin.
      apply in_map. apply in_or_app. right. apply in_or_app. now left.
    - intros Hr. apply Hstay; [|apply Kr; congruence]. intros col Hin.
      apply in_map. apply in_or_app. right. apply in_or_app. now right. }
  rewrite Hsame.
  apply destroyCells_missing.
  intros k Hk. apply filter_In in Hk. destruct Hk as [Hcand Hel].
  assert (Hcand' : In k (removalCandidates b m)).
  { unfold removalCandidates in *.
    rewrite (targetColumns_frame b m c1) in Hcand by congruence.
    unfold JsObject.keys in *. subst c1.
    now rewrite destroyCells_fst in Hcand. }
  destruct (isCellEligibleToBeRemoved b m k) eqn:Em.
  - apply destroyCells_get_in. apply filter_In. now split.
  - exfalso.
    assert (Hnot : ~ In k gone).
    { intros Hg. apply filter_In in Hg. destruct Hg as [_ Hg]. congruence. }
    rewrite (eligible_ext b m c1 k) in Hel; [congruence|].
    now apply destroyCells_get_notin.
Qed.

(** Where reconcile is idempotent.  Let the target lists hold pairwise
    distinct column ids and list each column for the segment its pin side
    selects.  Then a pass followed at once by a second pass over the same
    lists makes the second pass a no-op: it creates no cell, destroys none,
    moves none, and leaves the controller exactly as the first pass left
    it. *)
Theorem reconcile_twice_is_reconcile_once b c :
  JsObject.wf (cellComps c) ->
  targetsConsistent b c ->
  let once := refreshCellsInAnimationFrame b c in
  refreshCellsInAnimationFrame b once = once
  /\ effectsDuring (refreshCellsInAnimationFrame b) once = [].
Proof.
  intros Hwf Hcons once.
  pose proof (refreshCellsInAnimationFrame_fixpoint b c Hwf Hcons) as Hfix.
  fold once in Hfix. split; [exact Hfix|].
  apply effectsDuring_app. rewrite Hfix. now rewrite app_nil_r.
Qed.

(** At a concrete row: columns A and B in the center viewport. *)
Lemma reconcile_twice_is_reconcile_once_witness :
  refreshCellsInAnimationFrame Samples.beansAB
    (refreshCellsInAnimationFrame Samples.beansAB (Samples.freshRow false))
  = refreshCellsInAnimationFrame Samples.beansAB (Samples.freshRow false)
  /\ effectsDuring (refreshCellsInAnimationFrame Samples.beansAB)
       (refreshCellsInAnimationFrame Samples.beansAB (Samples.freshRow false))
     = [].
Proof.
  refine (reconcile_twice_is_reconcile_once Samples.beansAB (Samples.freshRow false)
            _ _).
  - constructor.
  - vm_compute. repeat split; repeat constructor; simpl; intuition discriminate.
Defined.

(** C4.  Reconcile is not idempotent in print layout.  A row in print layout
    lists every displayed column for the center, pinned ones too, and the
    pass files their cells there.  The keep test compares the container of
    the cell of the left-pinned column A with the left container, so it
    fails at every pass: a second pass right after the first, over the same
    list, destroys the cell of A and creates it again in the center. *)
Lemma second_pass_recreates_pinned_cell_in_print_layout :
  effectsDuring (refreshCellsInAnimationFrame Samples.beansPinned)
    (refreshCellsInAnimationFrame Samples.beansPinned (Samples.freshRow true))
  = [CellDetach Samples.cellA; CellDestroy Samples.cellA;
     NewCellComp {| cellId := 1; getColumn := 0; getParentRow := SegCenter |}
       true false;
     AppendChild SegCenter
       {| cellId := 1; getColumn := 0; getParentRow := SegCenter |}].
Proof. vm_compute. reflexivity. Qed.

(* ================================================================= *)
(** ** Row-type classifier *)

Lemma setRowType_only_sets_rowType b c :
  setRowType b c = set_rowType (rowType (setRowType b c)) c.
Proof.
  unfold setRowType.
  destruct (stub (rowNode c)); [reflexivity|].
  destruct (doingMasterDetail b && detail (rowNode c)); [reflexivity|].
  destruct (isFullWidthCell (rowNode c)); [reflexivity|].
  destruct (group (rowNode c) && negb (footer (rowNode c))
            && isGroupUseEntireRow b (isPivotMode b)); reflexivity.
Qed.

(** C3.  The classification follows the first matching rule: a stub row is
    FullWidthLoading; else a detail row under master-detail is
    FullWidthDetail; else a row the data source marks full-width is
    FullWidth; else a group row that is not a footer, when group rows use the
    entire row, is FullWidthGroup; else the row is Normal.  A footer never
    becomes FullWidthGroup. *)
Theorem setRowType_first_match_wins b c :
  let node := rowNode c in
  let classified := rowType (setRowType b c) in
  let detailRow := doingMasterDetail b && detail node in
  let fullWidthGroup :=
    group node && negb (footer node) && isGroupUseEntireRow b (isPivotMode b) in
  (stub node = true -> classified = FullWidthLoading)
  /\ (stub node = false -> detailRow = true -> classified = FullWidthDetail)
  /\ (stub node = false -> detailRow = false -> isFullWidthCell node = true ->
      classified = FullWidth)
  /\ (stub node = false -> detailRow = false -> isFullWidthCell node = false ->
      fullWidthGroup = true -> classified = FullWidthGroup)
  /\ (stub node = false -> detailRow = false -> isFullWidthCell node = false ->
      fullWidthGroup = false -> classified = Normal)
  /\ (footer node = true -> classified <> FullWidthGroup).
Proof.
  intros node classified detailRow fullWidthGroup.
  subst classified detailRow fullWidthGroup node. unfold setRowType.
  repeat split.
  - now intros ->.
  - now intros -> ->.
  - now intros -> -> ->.
  - now intros -> -> -> ->.
  - now intros -> -> -> ->.
  - intros ->. rewrite andb_false_r. simpl.
    destruct (stub (rowNode c)); [discriminate|].
    destruct (doingMasterDetail b && detail (rowNode c)); [discriminate|].
    destruct (isFullWidthCell (rowNode c)); discriminate.
Qed.

(* ================================================================= *)
(** ** Full-width refresh *)

Lemma tryRefresh_result b rowComp pinned c :
  fst (tryRefresh b rowComp pinned c) = true <-> absentOrRefreshed b rowComp pinned.
Proof.
  unfold tryRefresh, absentOrRefreshed.
  destruct rowComp as [rowComp|]; [|simpl; tauto].
  destruct (getFullWidthRowComp b rowComp) as [renderer|]; [|simpl; tauto].
  destruct (refresh renderer) as [refreshMethod|]; simpl.
  - split.
    + intros H. exists refreshMethod. auto.
    + intros (r & Hr & Hok). now inversion Hr; subst.
  - split; [discriminate|]. intros (r & Hr & _). discriminate.
Qed.

Lemma tryRefresh_rowComps b rowComp pinned c :
  let c' := snd (tryRefresh b rowComp pinned c) in
  fullWidthRowComp c' = fullWidthRowComp c
  /\ centerRowComp c' = centerRowComp c
  /\ leftRowComp c' = leftRowComp c
  /\ rightRowComp c' = rightRowComp c.
Proof.
  unfold tryRefresh.
  destruct rowComp as [rowComp|]; [|simpl; auto].
  destruct (getFullWidthRowComp b rowComp) as [renderer|]; [|simpl; auto].
  destruct (refresh renderer); simpl; auto.
Qed.

Lemma refreshFullWidth_conjunction b c :
  exists c1 c2 c3,
    fst (refreshFullWidth b c)
    = fst (tryRefresh b (fullWidthRowComp c) NotPinned c)
      && fst (tryRefresh b (centerRowComp c) NotPinned c1)
      && fst (tryRefresh b (leftRowComp c) PinnedLeft c2)
      && fst (tryRefresh b (rightRowComp c) PinnedRight c3).
Proof.
  unfold refreshFullWidth.
  pose proof (tryRefresh_rowComps b (fullWidthRowComp c) NotPinned c) as R1.
  destruct (tryRefresh b (fullWidthRowComp c) NotPinned c) as [r1 c1].
  simpl in R1. destruct R1 as (_ & R1c & R1l & R1r).
  pose proof (tryRefresh_rowComps b (centerRowComp c1) NotPinned c1) as R2.
  destruct (tryRefresh b (centerRowComp c1) NotPinned c1) as [r2 c2] eqn:E2.
  simpl in R2. destruct R2 as (_ & _ & R2l & R2r).
  pose proof (tryRefresh_rowComps b (leftRowComp c2) PinnedLeft c2) as R3.
  destruct (tryRefresh b (leftRowComp c2) PinnedLeft c2) as [r3 c3] eqn:E3.
  simpl in R3. destruct R3 as (_ & _ & _ & R3r).
  destruct (tryRefresh b (rightRowComp c3) PinnedRight c3) as [r4 c4] eqn:E4.
  exists c1, c2, c3. simpl.
  rewrite <- R1c, E2. rewrite <- R1l, <- R2l, E3.
  rewrite <- R1r, <- R2r, <- R3r, E4. reflexivity.
Qed.

(** C6.  [refreshFullWidth] answers true exactly when each of the four
    representations (full-width, center, left, right) is absent or its
    renderer's [refresh] reports success; a materialized representation
    whose renderer has no [refresh] method makes the answer false. *)
Theorem refreshFullWidth_all_or_nothing b c :
  (fst (refreshFullWidth b c) = true <->
     absentOrRefreshed b (fullWidthRowComp c) NotPinned
     /\ absentOrRefreshed b (centerRowComp c) NotPinned
     /\ absentOrRefreshed b (leftRowComp c) PinnedLeft
     /\ absentOrRefreshed b (rightRowComp c) PinnedRight)
  /\ (forall rowComp renderer,
        In (Some rowComp)
           [fullWidthRowComp c; centerRowComp c; leftRowComp c; rightRowComp c] ->
        getFullWidthRowComp b rowComp = Some renderer ->
        refresh renderer = None ->
        fst (refreshFullWidth b c) = false).
Proof.
  destruct (refreshFullWidth_conjunction b c) as (c1 & c2 & c3 & Hres).
  assert (Hiff : fst (refreshFullWidth b c) = true <->
     absentOrRefreshed b (fullWidthRowComp c) NotPinned
     /\ absentOrRefreshed b (centerRowComp c) NotPinned
     /\ absentOrRefreshed b (leftRowComp c) PinnedLeft
     /\ absentOrRefreshed b (rightRowComp c) PinnedRight).
  { rewrite Hres, !andb_true_iff, !tryRefresh_result. tauto. }
  split; [exact Hiff|].
  intros rowComp renderer Hin Hr Hnone.
  apply not_true_is_false. intros Htrue. apply Hiff in Htrue.
  destruct Htrue as (H1 & H2 & H3 & H4).
  assert (Hbad : forall pinned, ~ absentOrRefreshed b (Some rowComp) pinned).
  { intros pinned. unfold absentOrRefreshed. rewrite Hr.
    intros (r & Hrefresh & _). congruence. }
  simpl in Hin. destruct Hin as [E|[E|[E|[E|[]]]]]; rewrite E in *;
    eapply Hbad; eassumption.
Qed.

(* ================================================================= *)
(** ** Row editing *)

Lemma materialized_in_cells c key cell :
  JsObject.get (cellComps c) key = Some (Some cell) -> In cell (materializedCells c).
Proof.
  intros Hget. unfold materializedCells, cellsAt. apply in_flat_map.
  exists key. split.
  - apply JsObjectFacts.in_keys. congruence.
  - rewrite Hget. now left.
Qed.

Lemma cells_are_materialized c cell :
  In cell (materializedCells c) ->
  exists key, JsObject.get (cellComps c) key = Some (Some cell).
Proof.
  unfold materializedCells, cellsAt. intros Hin. apply in_flat_map in Hin.
  destruct Hin as (key & _ & Hin). exists key.
  destruct (JsObject.get (cellComps c) key) as [[x|]|]; simpl in Hin; try tauto.
  destruct Hin as [->|[]]. reflexivity.
Qed.

(** Visiting the cells with a callback that only makes one call per cell. *)
Lemma forEachCellComp_emits callback (f : CellComp -> Effect) c :
  (forall cell c, callback cell c = emit [f cell] c) ->
  forEachCellComp callback c = emit (map f (materializedCells c)) c.
Proof.
  intros Hcb. unfold forEachCellComp, iterateObject, materializedCells.
  generalize (JsObject.keys (cellComps c)) as ks.
  assert (Hgen : forall ks c',
    cellComps c' = cellComps c ->
    fold_left
      (fun c0 key =>
         match JsObject.get (cellComps c0) key with
         | Some value =>
             match value with
             | Some cellComp => callback cellComp c0
             | None => c0
             end
         | None => c0
         end) ks c'
    = emit (map f (cellsAt (cellComps c) ks)) c').
  { induction ks as [|key ks IH]; intros c' Hsame; simpl.
    - now rewrite emit_nil.
    - rewrite Hsame.
      destruct (JsObject.get (cellComps c) key) as [[cell|]|]; simpl.
      + rewrite Hcb, IH by (simpl; assumption). now rewrite emit_emit.
      + now apply IH.
      + now apply IH. }
  intros ks. now apply Hgen.
Qed.

Lemma stopEditing_effects cancel c :
  effects (stopEditing cancel c)
  = effects c
    ++ map (fun cell => CellStopEditing cell cancel) (materializedCells c)
    ++ stopNotifications cancel c.
Proof.
  unfold stopEditing, stopNotifications.
  rewrite (forEachCellComp_emits _ (fun cell => CellStopEditing cell cancel))
    by reflexivity.
  simpl. destruct (editingRow c); simpl.
  - destruct cancel; simpl; now rewrite <- !app_assoc.
  - now rewrite app_nil_r.
Qed.

(** C10.  For either cancel flag and either row state, [stopEditing] first
    tells every materialized cell to stop with that flag, and only then takes
    the early exit of a row that is not editing: such a row's cells receive
    the stop signal all the same. *)
Theorem stopEditing_signals_every_cell cancel c :
  effects (stopEditing cancel c)
  = effects c
    ++ map (fun cell => CellStopEditing cell cancel) (materializedCells c)
    ++ stopNotifications cancel c
  /\ (forall key cell,
        JsObject.get (cellComps c) key = Some (Some cell) ->
        In (CellStopEditing cell cancel) (effectsDuring (stopEditing cancel) c))
  /\ (editingRow c = false ->
      effectsDuring (stopEditing cancel) c
      = map (fun cell => CellStopEditing cell cancel) (materializedCells c)).
Proof.
  pose proof (stopEditing_effects cancel c) as Heff.
  split; [exact Heff|]. split.
  - intros key cell Hget.
    rewrite (effectsDuring_app _ _ _ Heff). apply in_or_app. left.
    apply in_map_iff. exists cell. split; [reflexivity|].
    eapply materialized_in_cells; eauto.
  - intros Hnot. rewrite (effectsDuring_app _ _ _ Heff).
    unfold stopNotifications. rewrite Hnot. apply app_nil_r.
Qed.

(** C7.  On a row that is not editing, [stopEditing(false)] sends no
    notification: no value-changed, no editing-stopped, nothing on the event
    service at all, and the row stays not editing.  On a row that is editing,
    [startRowEditing] changes nothing: no field is written and no cell is
    sent a second start signal. *)
Theorem editing_transitions_without_effect c :
  (editingRow c = false ->
   (forall type, ~ In (EventServiceDispatch type) (effectsDuring (stopEditing false) c))
   /\ editingRow (stopEditing false c) = false)
  /\ (editingRow c = true ->
      forall keyPress charPress sourceRenderedCell,
        startRowEditing keyPress charPress sourceRenderedCell c = c).
Proof.
  split.
  - intros Hnot. split.
    + intros type Hin.
      rewrite (effectsDuring_app _ _ _ (stopEditing_effects false c)) in Hin.
      unfold stopNotifications in Hin. rewrite Hnot, app_nil_r in Hin.
      apply in_map_iff in Hin. destruct Hin as (cell & Habs & _). discriminate.
    + unfold stopEditing.
      rewrite (forEachCellComp_emits _ (fun cell => CellStopEditing cell false))
        by reflexivity.
      simpl. now rewrite Hnot.
  - intros Hed keyPress charPress sourceRenderedCell.
    unfold startRowEditing. now rewrite Hed.
Qed.

(** C7, at concrete rows: the row with cells A and B, not editing and then
    editing. *)
Lemma editing_transitions_without_effect_witness :
  ((forall type,
      ~ In (EventServiceDispatch type) (effectsDuring (stopEditing false) Samples.rowAB))
   /\ editingRow (stopEditing false Samples.rowAB) = false)
  /\ startRowEditing (Some 113) None (Some Samples.cellA)
       (set_editingRow true Samples.rowAB)
     = set_editingRow true Samples.rowAB.
Proof.
  split.
  - refine (proj1 (editing_transitions_without_effect Samples.rowAB) _).
    vm_compute. reflexivity.
  - refine (proj2 (editing_transitions_without_effect
                     (set_editingRow true Samples.rowAB)) _ _ _ _).
    vm_compute. reflexivity.
Defined.

(* ================================================================= *)
(** ** Second-pass queues and teardown *)

Lemma emitted_in f c e : emitted c (f c) e -> In e (effectsDuring f c).
Proof.
  intros (pre & post & H). rewrite (effectsDuring_app _ _ _ H).
  apply in_or_app. right. now left.
Qed.

Lemma emitted_after c0 c c' e : extends c0 c -> emitted c c' e -> emitted c0 c' e.
Proof.
  intros [es Hes] (pre & post & H). exists (es ++ pre), post.
  now rewrite H, Hes, <- !app_assoc.
Qed.

Lemma emitted_before c c' c'' e : emitted c c' e -> extends c' c'' -> emitted c c'' e.
Proof.
  intros (pre & post & H) [es Hes]. exists pre, (post ++ es).
  rewrite Hes, H, <- !app_assoc. reflexivity.
Qed.

Lemma destroyCells_removeSecondPassFuncs ks c :
  removeSecondPassFuncs (destroyCells ks c) = removeSecondPassFuncs c.
Proof.
  unfold destroyCells.
  apply (fold_left_inv _ (fun c' => removeSecondPassFuncs c' = removeSecondPassFuncs c));
    [reflexivity|].
  intros a key <-. unfold destroyCell.
  now destruct (JsObject.get (cellComps a) key) as [[cell|]|].
Qed.

Lemma destroyCells_keeps_cleared ks c : allCleared c -> allCleared (destroyCells ks c).
Proof.
  intros Hc. unfold destroyCells.
  apply (fold_left_inv _ allCleared); [assumption|].
  intros a key Ha k. now apply missing_stays_missing.
Qed.

Lemma destroyContainingCells_clears c : allCleared (destroyContainingCells c).
Proof.
  intros key. unfold destroyContainingCells.
  destruct (JsObject.get (cellComps c) key) eqn:E.
  - apply destroyCells_get_in. apply JsObjectFacts.in_keys. congruence.
  - rewrite destroyCells_get_notin; [now rewrite E|].
    intros Hin. apply JsObjectFacts.in_keys in Hin. contradiction.
Qed.

Lemma destroyContainingCells_destroys c key cell :
  JsObject.get (cellComps c) key = Some (Some cell) ->
  emitted c (destroyContainingCells c) (CellDestroy cell).
Proof.
  intros Hget. unfold destroyContainingCells.
  destruct (destroyCells_destroys (JsObject.keys (cellComps c)) key cell c)
    as (_ & pre & post & Heff); [|assumption|].
  { apply JsObjectFacts.in_keys. congruence. }
  exists (pre ++ [CellDetach cell]), post.
  rewrite Heff, <- !app_assoc. reflexivity.
Qed.

Lemma callRemoveFunc_frame func c :
  extends c (callRemoveFunc func c)
  /\ removeSecondPassFuncs (callRemoveFunc func c) = removeSecondPassFuncs c
  /\ (allCleared c -> allCleared (callRemoveFunc func c)).
Proof.
  destruct func as [|f]; simpl.
  - unfold destroyContainingCells. split; [apply destroyCells_frame|].
    split; [apply destroyCells_removeSecondPassFuncs|].
    apply destroyCells_keeps_cleared.
  - split; [apply extends_emit|]. split; [reflexivity | auto].
Qed.

Lemma callRemoveFuncs_frame funcs c :
  extends c (callRemoveFuncs funcs c)
  /\ removeSecondPassFuncs (callRemoveFuncs funcs c) = removeSecondPassFuncs c
  /\ (allCleared c -> allCleared (callRemoveFuncs funcs c)).
Proof.
  unfold callRemoveFuncs.
  apply (fold_left_inv _ (fun c' =>
    extends c c' /\ removeSecondPassFuncs c' = removeSecondPassFuncs c
    /\ (allCleared c -> allCleared c'))).
  - split; [apply extends_refl | auto].
  - intros a func (He & Hq & Hc).
    destruct (callRemoveFunc_frame func a) as (He' & Hq' & Hc').
    split; [eapply extends_trans; eauto|]. split; [congruence | auto].
Qed.

Lemma callRemoveFuncs_calls funcs f c :
  In (ExternalFunc f) funcs ->
  emitted c (callRemoveFuncs funcs c) (CallCallback f).
Proof.
  unfold callRemoveFuncs. revert c.
  induction funcs as [|func funcs IH]; simpl; intros c Hin; [tauto|].
  destruct Hin as [->|Hin].
  - simpl. eapply emitted_before; [|apply callRemoveFuncs_frame].
    exists [], []. reflexivity.
  - eapply emitted_after; [apply callRemoveFunc_frame | now apply IH].
Qed.

Lemma callRemoveFuncs_destroys funcs key cell c :
  In DestroyContainingCellsFunc funcs ->
  JsObject.get (cellComps c) key = Some (Some cell) ->
  emitted c (callRemoveFuncs funcs c) (CellDestroy cell)
  /\ allCleared (callRemoveFuncs funcs c).
Proof.
  unfold callRemoveFuncs. revert c.
  induction funcs as [|func funcs IH]; simpl; intros c Hin Hget; [tauto|].
  destruct func as [|f].
  - simpl. split.
    + eapply emitted_before; [now apply (destroyContainingCells_destroys c key)|].
      apply callRemoveFuncs_frame.
    + apply callRemoveFuncs_frame. apply destroyContainingCells_clears.
  - destruct Hin as [Habs|Hin]; [discriminate|].
    destruct (IH (callRemoveFunc (ExternalFunc f) c) Hin Hget) as [He Hc].
    split; [|exact Hc].
    eapply emitted_after; [apply callRemoveFunc_frame | exact He].
Qed.

Lemma addRemoveSecondPassFuncs_queue fs c :
  removeSecondPassFuncs (fold_left (fun c f => addRemoveSecondPassFunc f c) fs c)
  = removeSecondPassFuncs c ++ map ExternalFunc fs.
Proof.
  revert c. induction fs as [|f fs IH]; intros c; simpl.
  - now rewrite app_nil_r.
  - rewrite IH. simpl. now rewrite <- app_assoc.
Qed.

(** C8.  Either get-and-clear hands out the whole queue as it stands and
    leaves the queue empty, so a second call right after it hands out
    nothing.  What is added to the remove queue after a call is exactly what
    the next call hands out: no function is handed out twice. *)
Theorem second_pass_queues_drain_once c :
  (fst (getAndClearNextVMTurnFunctions c) = createSecondPassFuncs c
   /\ createSecondPassFuncs (snd (getAndClearNextVMTurnFunctions c)) = []
   /\ fst (getAndClearNextVMTurnFunctions (snd (getAndClearNextVMTurnFunctions c)))
      = [])
  /\ (fst (getAndClearDelayedDestroyFunctions c) = removeSecondPassFuncs c
      /\ removeSecondPassFuncs (snd (getAndClearDelayedDestroyFunctions c)) = []
      /\ fst (getAndClearDelayedDestroyFunctions
                (snd (getAndClearDelayedDestroyFunctions c))) = []
      /\ forall fs,
           fst (getAndClearDelayedDestroyFunctions
                  (fold_left (fun c f => addRemoveSecondPassFunc f c) fs
                     (snd (getAndClearDelayedDestroyFunctions c))))
           = map ExternalFunc fs).
Proof.
  split; [repeat split|].
  split; [reflexivity|]. split; [reflexivity|]. split; [reflexivity|].
  intros fs. unfold getAndClearDelayedDestroyFunctions at 1. cbn [fst].
  now rewrite addRemoveSecondPassFuncs_queue.
Qed.

Lemma destroy_animated_effects c :
  effects (destroy true c)
  = effects c
    ++ map CallCallback (fullWidthRowDestroyFuncs c)
    ++ map DestroyFullWidthComponent (allRowComps c)
    ++ map CallCallback (removeFirstPassFuncs c)
    ++ [LocalDispatch EVENT_VIRTUAL_ROW_REMOVED;
        EventServiceDispatch EVENT_VIRTUAL_ROW_REMOVED;
        SuperDestroy].
Proof.
  unfold destroy, destroyFullWidthComponents, dispatchEvent, emit. simpl.
  now rewrite <- !app_assoc.
Qed.

(** C9.  [destroy(true)] calls the remove-first-pass functions during the
    call, in order, and touches no cell slot: it makes no detach or destroy
    call on a cell and only queues [destroyContainingCells] on the remove
    second pass.  The cells go when the driver later takes the delayed
    functions and calls them.  [destroy(false)] destroys the cells and calls
    the delayed functions within the call itself, leaving the queue empty. *)
Theorem destroy_defers_cells_only_when_animated c :
  (effects (destroy true c)
   = effects c
     ++ map CallCallback (fullWidthRowDestroyFuncs c)
     ++ map DestroyFullWidthComponent (allRowComps c)
     ++ map CallCallback (removeFirstPassFuncs c)
     ++ [LocalDispatch EVENT_VIRTUAL_ROW_REMOVED;
         EventServiceDispatch EVENT_VIRTUAL_ROW_REMOVED;
         SuperDestroy]
   /\ (forall cell,
         ~ In (CellDetach cell) (effectsDuring (destroy true) c)
         /\ ~ In (CellDestroy cell) (effectsDuring (destroy true) c))
   /\ cellComps (destroy true c) = cellComps c
   /\ removeSecondPassFuncs (destroy true c)
      = removeSecondPassFuncs c ++ [DestroyContainingCellsFunc]
   /\ (let delayed := fst (getAndClearDelayedDestroyFunctions (destroy true c)) in
       let later := snd (getAndClearDelayedDestroyFunctions (destroy true c)) in
       allCleared (callRemoveFuncs delayed later)
       /\ forall key cell,
            JsObject.get (cellComps c) key = Some (Some cell) ->
            In (CellDestroy cell) (effectsDuring (callRemoveFuncs delayed) later)))
  /\ (allCleared (destroy false c)
      /\ removeSecondPassFuncs (destroy false c) = []
      /\ (forall key cell,
            JsObject.get (cellComps c) key = Some (Some cell) ->
            In (CellDestroy cell) (effectsDuring (destroy false) c))
      /\ (forall f,
            In (ExternalFunc f) (removeSecondPassFuncs c) ->
            In (CallCallback f) (effectsDuring (destroy false) c))).
Proof.
  split.
  - pose proof (destroy_animated_effects c) as Heff.
    split; [exact Heff|]. split; [|split; [reflexivity|split; [reflexivity|]]].
    + intros cell. rewrite (effectsDuring_app _ _ _ Heff).
      rewrite !in_app_iff, !in_map_iff. simpl.
      split; intros H; decompose [or ex and] H; first [discriminate | contradiction].
    + cbv zeta. unfold getAndClearDelayedDestroyFunctions. cbn [fst snd].
      set (later := set_removeSecondPassFuncs [] (destroy true c)).
      set (delayed := removeSecondPassFuncs (destroy true c)).
      assert (Hin : In DestroyContainingCellsFunc delayed).
      { subst delayed. simpl. apply in_or_app. right. now left. }
      split.
      * destruct (in_split _ _ Hin) as (q1 & q2 & Hq). rewrite Hq.
        unfold callRemoveFuncs. rewrite fold_left_app. simpl.
        apply callRemoveFuncs_frame. apply destroyContainingCells_clears.
      * intros key cell Hget. apply emitted_in.
        now apply (callRemoveFuncs_destroys delayed key cell later Hin).
  - set (c0 := destroyFullWidthComponents (set_active false c)).
    set (c1 := destroyContainingCells c0).
    set (c2 := set_removeSecondPassFuncs [] c1).
    set (c3 := callRemoveFuncs (removeSecondPassFuncs c1) c2).
    assert (Hd : destroy false c
                 = emit [SuperDestroy]
                     (dispatchEvent EVENT_VIRTUAL_ROW_REMOVED
                        (emit [LocalDispatch EVENT_VIRTUAL_ROW_REMOVED] c3))).
    { reflexivity. }
    assert (H01 : extends c c0).
    { subst c0. unfold destroyFullWidthComponents, emit. simpl.
      eexists. rewrite <- app_assoc. reflexivity. }
    assert (Hq1 : removeSecondPassFuncs c1 = removeSecondPassFuncs c).
    { subst c1. unfold destroyContainingCells.
      now rewrite destroyCells_removeSecondPassFuncs. }
    destruct (callRemoveFuncs_frame (removeSecondPassFuncs c1) c2) as (H23 & Hq3 & Hc3).
    fold c3 in H23, Hq3, Hc3.
    assert (H3f : extends c3 (destroy false c)).
    { rewrite Hd. unfold dispatchEvent, emit. simpl.
      eexists. rewrite <- !app_assoc. reflexivity. }
    assert (H12 : extends c1 c2) by (exists []; simpl; now rewrite app_nil_r).
    split; [|split; [|split]].
    + rewrite Hd. intros key. apply (Hc3 (destroyContainingCells_clears c0)).
    + rewrite Hd. exact Hq3.
    + intros key cell Hget. apply emitted_in.
      apply (emitted_after c c0); [exact H01|].
      apply (emitted_before c0 c1); [now apply (destroyContainingCells_destroys c0 key)|].
      eapply extends_trans; [exact H12|].
      eapply extends_trans; [exact H23 | exact H3f].
    + intros f Hin. apply emitted_in.
      apply (emitted_after c c2).
      { eapply extends_trans; [exact H01|].
        eapply extends_trans; [apply destroyCells_frame | exact H12]. }
      apply (emitted_before c2 c3); [|exact H3f].
      apply callRemoveFuncs_calls. now rewrite Hq1.
Qed.

(* ================================================================= *)
(** ** Coalescing of reconcile requests *)

Lemma refreshCells_enqueues b c :
  areAllContainersReady c = true ->
  isSuppressAnimationFrame b = false ->
  printLayout c = false ->
  columnRefreshPending c = false ->
  refreshCells b c = set_taskQueue (taskQueue c ++ [refreshTask c]) c.
Proof.
  intros Hready Hs Hp Hpending. unfold refreshCells.
  now rewrite Hready, Hs, Hp, Hpending.
Qed.

(** With batching on and all containers ready, [n] requests made before any
    queued task runs put [n] tasks on the queue: nothing ever raises
    [columnRefreshPending], so the guard that should drop the later requests
    never fires. *)
Lemma refreshCells_enqueues_every_request b c n :
  areAllContainersReady c = true ->
  isSuppressAnimationFrame b = false ->
  printLayout c = false ->
  columnRefreshPending c = false ->
  taskQueue (Nat.iter n (refreshCells b) c) = taskQueue c ++ repeat (refreshTask c) n
  /\ columnRefreshPending (Nat.iter n (refreshCells b) c) = false.
Proof.
  intros Hready Hs Hp Hpending.
  assert (H : taskQueue (Nat.iter n (refreshCells b) c)
              = taskQueue c ++ repeat (refreshTask c) n
              /\ columnRefreshPending (Nat.iter n (refreshCells b) c) = false
              /\ areAllContainersReady (Nat.iter n (refreshCells b) c) = true
              /\ printLayout (Nat.iter n (refreshCells b) c) = false
              /\ rowNode (Nat.iter n (refreshCells b) c) = rowNode c).
  { induction n as [|n IH]; simpl.
    - rewrite app_nil_r. auto.
    - destruct IH as (Hq & Hpend & Hr & Hpl & Hnode).
      rewrite (refreshCells_enqueues b _ Hr Hs Hpl Hpend).
      assert (Ht : refreshTask (Nat.iter n (refreshCells b) c) = refreshTask c).
      { unfold refreshTask. now rewrite Hnode. }
      rewrite Ht. unfold set_taskQueue. cbn -[Nat.iter refreshTask].
      rewrite Hq, <- app_assoc, <- repeat_cons. auto. }
  destruct H as (Hq & Hpend & _). now split.
Qed.

(** C2, on the row with cells A and B: two requests in a row, before the
    task queue runs anything, leave two reconcile tasks on the queue, and the
    pending flag is still down after the first. *)
Lemma two_requests_enqueue_two_tasks :
  taskQueue (refreshCells Samples.beansAB (refreshCells Samples.beansAB Samples.rowAB))
  = [refreshTask Samples.rowAB; refreshTask Samples.rowAB]
  /\ columnRefreshPending (refreshCells Samples.beansAB Samples.rowAB) = false.
Proof. split; vm_compute; reflexivity. Qed.

(* ================================================================= *)
(** ** The statements at concrete rows *)

(** C3, at concrete rows: a stub row that also carries every other flag is
    FullWidthLoading, a group row is FullWidthGroup, and a group footer is
    Normal although group rows use the entire row. *)
Lemma setRowType_first_match_wins_witness :
  rowType (setRowType Samples.beansAB (Samples.rowOf Samples.stubNode false))
  = FullWidthLoading
  /\ rowType (setRowType Samples.beansAB (Samples.rowOf Samples.groupNode false))
     = FullWidthGroup
  /\ rowType (setRowType Samples.beansAB (Samples.rowOf Samples.footerNode false))
     <> FullWidthGroup.
Proof.
  split; [|split].
  - refine (proj1 (setRowType_first_match_wins Samples.beansAB
                     (Samples.rowOf Samples.stubNode false)) _).
    reflexivity.
  - refine (proj1 (proj2 (proj2 (proj2
              (setRowType_first_match_wins Samples.beansAB
                 (Samples.rowOf Samples.groupNode false))))) _ _ _ _);
      reflexivity.
  - refine (proj2 (proj2 (proj2 (proj2 (proj2
              (setRowType_first_match_wins Samples.beansAB
                 (Samples.rowOf Samples.footerNode false)))))) _).
    reflexivity.
Defined.

(** C6, at a concrete row: one full-width representation whose renderer
    refreshes, and the same row with a renderer that has no [refresh]. *)
Lemma refreshFullWidth_all_or_nothing_witness :
  fst (refreshFullWidth (Samples.beansWithRenderer Samples.refreshingRenderer)
         Samples.fullWidthRow) = true
  /\ fst (refreshFullWidth (Samples.beansWithRenderer Samples.staticRenderer)
            Samples.fullWidthRow) = false.
Proof.
  split.
  - refine (proj2 (proj1 (refreshFullWidth_all_or_nothing
                            (Samples.beansWithRenderer Samples.refreshingRenderer)
                            Samples.fullWidthRow)) _).
    repeat split. exists (fun _ => true). split; reflexivity.
  - refine (proj2 (refreshFullWidth_all_or_nothing
                     (Samples.beansWithRenderer Samples.staticRenderer)
                     Samples.fullWidthRow) SegFullWidth Samples.staticRenderer _ _ _).
    + left. reflexivity.
    + reflexivity.
    + reflexivity.
Defined.

(** C10, at a concrete row that is not editing: cell A is told to stop. *)
Lemma stopEditing_signals_every_cell_witness :
  In (CellStopEditing Samples.cellA true)
     (effectsDuring (stopEditing true) Samples.rowAB)
  /\ effectsDuring (stopEditing true) Samples.rowAB
     = map (fun cell => CellStopEditing cell true) (materializedCells Samples.rowAB).
Proof.
  split.
  - refine (proj1 (proj2 (stopEditing_signals_every_cell true Samples.rowAB))
              "A"%string Samples.cellA _).
    vm_compute. reflexivity.
  - refine (proj2 (proj2 (stopEditing_signals_every_cell true Samples.rowAB)) _).
    vm_compute. reflexivity.
Defined.

(** C9, at a concrete row with one function waiting in each remove pass:
    the animated destroy leaves cell A to the delayed functions, the plain
    destroy destroys it and calls the waiting function at once. *)
Lemma destroy_defers_cells_only_when_animated_witness :
  In (CellDestroy Samples.cellA)
     (effectsDuring
        (callRemoveFuncs
           (fst (getAndClearDelayedDestroyFunctions
                   (destroy true Samples.rowWithCallbacks))))
        (snd (getAndClearDelayedDestroyFunctions
                (destroy true Samples.rowWithCallbacks))))
  /\ In (CellDestroy Samples.cellA) (effectsDuring (destroy false) Samples.rowWithCallbacks)
  /\ In (CallCallback 5) (effectsDuring (destroy false) Samples.rowWithCallbacks).
Proof.
  split; [|split].
  - refine (proj2 (proj2 (proj2 (proj2 (proj2 (proj1
              (destroy_defers_cells_only_when_animated Samples.rowWithCallbacks))))))
              "A"%string Samples.cellA _).
    vm_compute. reflexivity.
  - refine (proj1 (proj2 (proj2 (proj2
              (destroy_defers_cells_only_when_animated Samples.rowWithCallbacks))))
              "A"%string Samples.cellA _).
    vm_compute. reflexivity.
  - refine (proj2 (proj2 (proj2 (proj2
              (destroy_defers_cells_only_when_animated Samples.rowWithCallbacks))))
              5 _).
    vm_compute. auto.
Defined.

(* ================================================================= *)
(** ** Cell identities *)

Lemma slotsStep_refl b c : slotsStep b c c.
Proof. split; [auto|]. split; [lia | auto]. Qed.

Lemma slotsStep_trans b c1 c2 c3 :
  slotsStep b c1 c2 -> slotsStep b c2 c3 -> slotsStep b c1 c3.
Proof.
  intros [S1 [N1 E1]] [S2 [N2 E2]]. split; [auto|]. split; [lia|].
  intros key cell H. destruct (E2 key cell H) as [H2|H2]; [|right; lia].
  destruct (E1 key cell H2) as [H1|H1]; [now left | right; lia].
Qed.

Lemma slotsStep_same b c c' :
  cellComps c' = cellComps c -> nextCellComp c' = nextCellComp c ->
  slotsStep b c c'.
Proof.
  intros Hc Hn. split.
  - unfold slotsSound. rewrite Hc, Hn. auto.
  - split; [lia|]. rewrite Hc. auto.
Qed.

Lemma slotsStep_newCellComp b col eRow c : slotsStep b c (newCellComp b col eRow c).
Proof.
  set (fresh := {| cellId := nextCellComp c; getColumn := col; getParentRow := eRow |}).
  assert (Hnext : nextCellComp (newCellComp b col eRow c) = S (nextCellComp c))
    by reflexivity.
  assert (Hslot : forall key cell,
            JsObject.get (cellComps (newCellComp b col eRow c)) key = Some (Some cell) ->
            (key = getId b col /\ cell = fresh)
            \/ (key <> getId b col
                /\ JsObject.get (cellComps c) key = Some (Some cell))).
  { intros key cell H. destruct (string_dec (getId b col) key) as [<-|Hne].
    - rewrite newCellComp_get_same in H. left. split; [reflexivity|].
      subst fresh. congruence.
    - rewrite newCellComp_get_other in H by assumption. right. auto. }
  split.
  - intros (Hfresh & Hdistinct & Hkeyed). split; [|split].
    + intros key cell H. rewrite Hnext.
      destruct (Hslot key cell H) as [[_ ->]|[_ Hold]]; [simpl; lia|].
      specialize (Hfresh key cell Hold). lia.
    + intros key1 key2 cell1 cell2 H1 H2 Hid.
      destruct (Hslot key1 cell1 H1) as [[-> ->]|[Hne1 Hold1]];
        destruct (Hslot key2 cell2 H2) as [[-> ->]|[Hne2 Hold2]].
      * reflexivity.
      * specialize (Hfresh key2 cell2 Hold2). simpl in Hid. lia.
      * specialize (Hfresh key1 cell1 Hold1). simpl in Hid. lia.
      * eapply Hdistinct; eauto.
    + intros key cell H.
      destruct (Hslot key cell H) as [[-> ->]|[_ Hold]]; [reflexivity | auto].
  - split; [rewrite Hnext; lia|].
    intros key cell H.
    destruct (Hslot key cell H) as [[_ ->]|[_ Hold]]; [right; simpl; lia | now left].
Qed.

Lemma slotsStep_destroyCell b key c : slotsStep b c (destroyCell key c).
Proof.
  assert (Hnext : nextCellComp (destroyCell key c) = nextCellComp c).
  { unfold destroyCell. now destruct (JsObject.get (cellComps c) key) as [[x|]|]. }
  assert (Hslot : forall k cell,
            JsObject.get (cellComps (destroyCell key c)) k = Some (Some cell) ->
            JsObject.get (cellComps c) k = Some (Some cell)).
  { intros k cell H. destruct (string_dec key k) as [<-|Hne].
    - pose proof (destroyCell_get_same key c) as Hm. rewrite H in Hm. discriminate.
    - now rewrite destroyCell_get_other in H. }
  split.
  - intros (Hfresh & Hdistinct & Hkeyed). split; [|split].
    + intros k cell H. rewrite Hnext. eauto.
    + intros k1 k2 cell1 cell2 H1 H2. eauto.
    + intros k cell H. eauto.
  - split; [lia|]. intros k cell H. left. auto.
Qed.

Lemma slotsStep_fold {A} b (f : RowController -> A -> RowController) l c :
  (forall c x, slotsStep b c (f c x)) -> slotsStep b c (fold_left f l c).
Proof.
  intros Hstep. apply (fold_left_inv f (slotsStep b c)); [apply slotsStep_refl|].
  intros a x Ha. eapply slotsStep_trans; eauto.
Qed.

Lemma slotsStep_destroyCells b ks c : slotsStep b c (destroyCells ks c).
Proof.
  unfold destroyCells. apply slotsStep_fold. intros c0 key.
  apply slotsStep_destroyCell.
Qed.

Lemma slotsStep_insertCell b eRow col c : slotsStep b c (insertCell b eRow col c).
Proof.
  unfold insertCell.
  destruct (match JsObject.get (cellComps c) (getId b col) with
            | Some (Some cell) => _ | _ => false end); [apply slotsStep_refl|].
  set (c1 := if missing _ then c else destroyCells [getId b col] c).
  assert (H1 : slotsStep b c c1).
  { subst c1. destruct (missing _);
      [apply slotsStep_refl | apply slotsStep_destroyCells]. }
  eapply slotsStep_trans; [exact H1|].
  eapply slotsStep_trans; [apply (slotsStep_newCellComp b col eRow c1)|].
  apply slotsStep_same; reflexivity.
Qed.

Lemma slotsStep_insertCellsIntoContainer b eRow cols c :
  slotsStep b c (insertCellsIntoContainer b eRow cols c).
Proof.
  unfold insertCellsIntoContainer.
  set (c' := fold_left (fun c col => insertCell b eRow col c) cols c).
  assert (H : slotsStep b c c').
  { apply slotsStep_fold. intros. apply slotsStep_insertCell. }
  destruct (_ && _); [|exact H].
  eapply slotsStep_trans; [exact H | apply slotsStep_same; reflexivity].
Qed.

Lemma slotsStep_createCells b cols eRow c : slotsStep b c (createCells b cols eRow c).
Proof.
  unfold createCells. apply slotsStep_fold. intros. apply slotsStep_newCellComp.
Qed.

Lemma slotsStep_refreshCellsInAnimationFrame b c :
  slotsStep b c (refreshCellsInAnimationFrame b c).
Proof.
  unfold refreshCellsInAnimationFrame.
  destruct (negb (active c)); [apply slotsStep_refl|].
  change (targetColumns b (set_columnRefreshPending false c)) with (targetColumns b c).
  destruct (targetColumns b c) as [[centerCols leftCols] rightCols].
  set (c0 := set_columnRefreshPending false c).
  set (c1 := insertCellsIntoContainer b (getGui SegCenter) centerCols c0).
  assert (H1 : slotsStep b c c1).
  { eapply slotsStep_trans; [apply (slotsStep_same b c c0); reflexivity|].
    apply slotsStep_insertCellsIntoContainer. }
  set (c2 := match leftRowComp c1 with
             | Some _ => insertCellsIntoContainer b (getGui SegLeft) leftCols c1
             | None => c1 end).
  assert (H2 : slotsStep b c1 c2).
  { subst c2. destruct (leftRowComp c1);
      [apply slotsStep_insertCellsIntoContainer | apply slotsStep_refl]. }
  set (c3 := match rightRowComp c2 with
             | Some _ => insertCellsIntoContainer b (getGui SegRight) rightCols c2
             | None => c2 end).
  assert (H3 : slotsStep b c2 c3).
  { subst c3. destruct (rightRowComp c2);
      [apply slotsStep_insertCellsIntoContainer | apply slotsStep_refl]. }
  set (c4 := set_elementOrderChanged false c3).
  assert (H4 : slotsStep b c3 c4) by (apply slotsStep_same; reflexivity).
  eapply slotsStep_trans; [|apply slotsStep_destroyCells].
  eapply slotsStep_trans; [exact H1|]. eapply slotsStep_trans; [exact H2|].
  eapply slotsStep_trans; [exact H3 | exact H4].
Qed.

Lemma slotsStep_refreshCells b c : slotsStep b c (refreshCells b c).
Proof.
  unfold refreshCells.
  destruct (negb (areAllContainersReady c)); [apply slotsStep_same; reflexivity|].
  destruct (_ || _); [apply slotsStep_refreshCellsInAnimationFrame|].
  destruct (columnRefreshPending c);
    [apply slotsStep_refl | apply slotsStep_same; reflexivity].
Qed.

Lemma slotsStep_lazyCreateCells b cols eRow c :
  slotsStep b c (lazyCreateCells b cols eRow c).
Proof.
  unfold lazyCreateCells. destruct (negb (active c)); [apply slotsStep_refl|].
  set (c1 := set_rowContainerReadyCount _ _).
  assert (H : slotsStep b c c1).
  { eapply slotsStep_trans; [apply slotsStep_createCells|].
    apply slotsStep_same; reflexivity. }
  destruct (_ && _); [|exact H].
  eapply slotsStep_trans; [exact H | apply slotsStep_refreshCells].
Qed.

Lemma slotsStep_refreshCell b cellComp c : slotsStep b c (refreshCell b cellComp c).
Proof.
  unfold refreshCell.
  destruct (negb (areAllContainersReady c)); [apply slotsStep_refl|].
  eapply slotsStep_trans; [apply slotsStep_destroyCells | apply slotsStep_refreshCells].
Qed.

(** X1.  Every method that creates or destroys cells keeps the cell
    identities sound: a materialized cell has an identity below the next
    fresh one, no two slots hold the same cell, and every slot is filed under
    the id of the column its cell is bound to.  Along the way a slot is only
    cleared or filled with a cell created by that very call. *)
Theorem cell_identities_stay_sound b c :
  slotsSound b c ->
  (forall task, slotsSound b (runTask b task c) /\ slotsEvolve c (runTask b task c))
  /\ (slotsSound b (refreshCells b c) /\ slotsEvolve c (refreshCells b c))
  /\ (forall cellComp,
        slotsSound b (refreshCell b cellComp c)
        /\ slotsEvolve c (refreshCell b cellComp c))
  /\ (forall cols eRow,
        slotsSound b (createCells b cols eRow c)
        /\ slotsEvolve c (createCells b cols eRow c)).
Proof.
  intros Hsound.
  assert (Huse : forall c', slotsStep b c c' -> slotsSound b c' /\ slotsEvolve c c').
  { intros c' [Hs He]. auto. }
  split; [|split; [|split]].
  - intros [|cols eRow]; apply Huse; simpl.
    + apply slotsStep_refreshCellsInAnimationFrame.
    + apply slotsStep_lazyCreateCells.
  - apply Huse, slotsStep_refreshCells.
  - intros cellComp. apply Huse, slotsStep_refreshCell.
  - intros cols eRow. apply Huse, slotsStep_createCells.
Qed.

(** X1, at a concrete row: the first pass over a row without cells. *)
Lemma cell_identities_stay_sound_witness :
  slotsSound Samples.beansAB
    (runTask Samples.beansAB RefreshCellsInAnimationFrameTask (Samples.freshRow false)).
Proof.
  refine (proj1 (proj1 (cell_identities_stay_sound Samples.beansAB
                          (Samples.freshRow false) _)
                   RefreshCellsInAnimationFrameTask)).
  repeat split; intros; discriminate.
Defined.

(* ================================================================= *)
(** ** Reconcile: what a pass leaves behind *)


(** The state a pass reaches on a live row with consistent targets: the
    targets have their slots, nothing is left to remove, no flag is up. *)
Lemma pass_settles b c :
  active c = true ->
  JsObject.wf (cellComps c) ->
  targetsConsistent b c ->
  let c1 := refreshCellsInAnimationFrame b c in
  (let '(centerCols, leftCols, rightCols) := targetColumns b c in
   Forall (slotKept b c1) centerCols
   /\ (leftRowComp c <> None -> Forall (slotKept b c1) leftCols)
   /\ (rightRowComp c <> None -> Forall (slotKept b c1) rightCols))
  /\ (forall k, In k (removalCandidates b c1) ->
        isCellEligibleToBeRemoved b c1 k = true ->
        missing (JsObject.get (cellComps c1) k) = true)
  /\ active c1 = true
  /\ printLayout c1 = printLayout c
  /\ leftRowComp c1 = leftRowComp c
  /\ rightRowComp c1 = rightRowComp c
  /\ columnRefreshPending c1 = false
  /\ elementOrderChanged c1 = false.
Proof.
  intros Ha Hwf Hcons. cbv zeta.
  rewrite (refreshCellsInAnimationFrame_phases b c Ha).
  destruct (insertPhase_frame b c)
    as (Ma & Mp & Ml & Mr & Mc & Me & _ & Mwf & _).
  pose proof (insertPhase_settles b c Hcons) as Hkept. cbv zeta in Hkept.
  set (m := insertPhase b c) in *.
  set (gone := filter (isCellEligibleToBeRemoved b m) (removalCandidates b m)).
  set (c1 := destroyCells gone m).
  destruct (destroyCells_frame gone m) as ((Fa & Fp & Fl & Fr & Fc) & Fe & _).
  fold c1 in Fa, Fp, Fl, Fr, Fc, Fe.
  assert (Hgone : forall k, In k gone -> ~ In k (targetIds b c)).
  { intros k Hk. apply filter_In in Hk. destruct Hk as [Hk _].
    apply removalCandidates_spec in Hk; [|now apply Mwf].
    unfold targetIds in *. now rewrite (targetColumns_frame b c m Mp) in Hk. }
  assert (Hstay : forall cols,
            (forall col, In col cols -> In (getId b col) (targetIds b c)) ->
            Forall (slotKept b m) cols -> Forall (slotKept b c1) cols).
  { intros cols Hsub Hall. rewrite Forall_forall in *. intros col Hin.
    eapply slotKept_ext; [|now apply Hall].
    apply destroyCells_get_notin. intros Hg. apply (Hgone _ Hg). now apply Hsub. }
  split; [|split; [|repeat split; congruence]].
  - unfold targetIds in Hstay.
    destruct (targetColumns b c) as [[centerCols leftCols] rightCols].
    destruct Hkept as (Kc & Kl & Kr).
    split; [|split].
    + apply Hstay; [|assumption]. intros col Hin.
      apply in_map. apply in_or_app. now left.
    + intros Hl. apply Hstay; [|now apply Kl]. intros col Hin.
      apply in_map. apply in_or_app. right. apply in_or_app. now left.
    + intros Hr. apply Hstay; [|now apply Kr]. intros col Hin.
      apply in_map. apply in_or_app. right. apply in_or_app. now right.
  - intros k Hcand Hel.
    assert (Hcand' : In k (removalCandidates b m)).
    { unfold removalCandidates in *.
      rewrite (targetColumns_frame b m c1) in Hcand by congruence.
      unfold JsObject.keys in *. subst c1.
      now rewrite destroyCells_fst in Hcand. }
    destruct (isCellEligibleToBeRemoved b m k) eqn:Em.
    + apply destroyCells_get_in. apply filter_In. now split.
    + exfalso.
      assert (Hnot : ~ In k gone).
      { intros Hg. apply filter_In in Hg. destruct Hg as [_ Hg]. congruence. }
      rewrite (eligible_ext b m c1 k) in Hel; [congruence|].
      now apply destroyCells_get_notin.
Qed.

Lemma destroyCells_keeps_absent ks k c :
  JsObject.get (cellComps c) k = None ->
  JsObject.get (cellComps (destroyCells ks c)) k = None.
Proof.
  intros Habsent.
  destruct (JsObject.get (cellComps (destroyCells ks c)) k) as [v|] eqn:E;
    [|reflexivity].
  exfalso.
  assert (Hin : In k (map fst (cellComps (destroyCells ks c)))).
  { apply JsObjectFacts.in_fst_get. congruence. }
  rewrite destroyCells_fst in Hin. apply JsObjectFacts.in_fst_get in Hin.
  contradiction.
Qed.

(** A pass whose target ids are plain never files a cell under
    ["__proto__"]. *)
Lemma pass_keeps_prototype b c :
  prototypeIntact c -> plainTargets b c ->
  prototypeIntact (refreshCellsInAnimationFrame b c).
Proof.
  intros Hproto Hplain. unfold prototypeIntact in *.
  destruct (active c) eqn:Ha.
  2: { now rewrite (refreshCellsInAnimationFrame_inactive b c Ha). }
  rewrite (refreshCellsInAnimationFrame_phases b c Ha).
  apply destroyCells_keeps_absent.
  destruct (insertPhase_frame b c) as (_ & _ & _ & _ & _ & _ & _ & _ & Hframe).
  rewrite Hframe; [assumption|].
  intros Hin. unfold plainTargets in Hplain. rewrite Forall_forall in Hplain.
  specialize (Hplain _ Hin). discriminate.
Qed.

(** X2.  Take a live row whose [cellComps] still has its own prototype, and
    target lists that are consistent and hold no id naming a member a plain
    object inherits (under such an id the pass would find the inherited
    member, not a slot).  After a pass every target column of an existing
    container has a materialized cell that is bound to this very column
    object and sits in the container the column's pin side selects;
    [getCellForCol] finds it.  The pass files nothing under ["__proto__"], so
    the row is as fit for the next pass. *)
Theorem pass_materializes_targets b c :
  active c = true ->
  JsObject.wf (cellComps c) ->
  prototypeIntact c ->
  plainTargets b c ->
  targetsConsistent b c ->
  (forall col,
     In col (fst (fst (targetColumns b c)))
     \/ (leftRowComp c <> None /\ In col (snd (fst (targetColumns b c))))
     \/ (rightRowComp c <> None /\ In col (snd (targetColumns b c))) ->
     exists cell,
       getCellForCol b (refreshCellsInAnimationFrame b c) col = Some cell
       /\ getColumn cell = col
       /\ getParentRow cell = getContainerForCell (getPinned b col))
  /\ prototypeIntact (refreshCellsInAnimationFrame b c).
Proof.
  intros Ha Hwf Hproto Hplain Hcons.
  split; [|now apply pass_keeps_prototype].
  intros col Hcol.
  destruct (pass_settles b c Ha Hwf Hcons) as (Hkept & _).
  destruct (targetColumns b c) as [[centerCols leftCols] rightCols].
  simpl in Hcol. destruct Hkept as (Kc & Kl & Kr).
  assert (Hk : slotKept b (refreshCellsInAnimationFrame b c) col).
  { destruct Hcol as [Hin|[[Hl Hin]|[Hr Hin]]].
    - rewrite Forall_forall in Kc. auto.
    - specialize (Kl Hl). rewrite Forall_forall in Kl. auto.
    - specialize (Kr Hr). rewrite Forall_forall in Kr. auto. }
  destruct Hk as (cell & Hget & Hc & Hw). exists cell.
  split; [unfold getCellForCol; now rewrite Hget|]. split; [assumption|].
  unfold isCellInWrongContainer in Hw. apply negb_false_iff in Hw.
  apply Segment_eqb_eq in Hw. now rewrite Hc in Hw.
Qed.

(** X2, at a concrete row: column B after the first pass over columns A
    and B. *)
Lemma pass_materializes_targets_witness :
  exists cell,
    getCellForCol Samples.beansAB
      (refreshCellsInAnimationFrame Samples.beansAB (Samples.freshRow false)) 1
    = Some cell
    /\ getColumn cell = 1
    /\ getParentRow cell = getContainerForCell (getPinned Samples.beansAB 1).
Proof.
  refine (proj1 (pass_materializes_targets Samples.beansAB (Samples.freshRow false)
                   _ _ _ _ _) 1 _).
  - reflexivity.
  - constructor.
  - reflexivity.
  - vm_compute. repeat constructor.
  - vm_compute. repeat split; repeat constructor; simpl; intuition discriminate.
  - left. vm_compute. auto.
Defined.



(* ================================================================= *)
(** ** Reconcile: the order flag *)






(* ================================================================= *)
(** ** Lazy first build *)

Lemma createCells_frame b cols eRow c :
  active (createCells b cols eRow c) = active c
  /\ rowContainerReadyCount (createCells b cols eRow c) = rowContainerReadyCount c
  /\ refreshNeeded (createCells b cols eRow c) = refreshNeeded c
  /\ columnRefreshPending (createCells b cols eRow c) = columnRefreshPending c
  /\ printLayout (createCells b cols eRow c) = printLayout c
  /\ taskQueue (createCells b cols eRow c) = taskQueue c
  /\ rowNode (createCells b cols eRow c) = rowNode c.
Proof.
  unfold createCells.
  apply (fold_left_inv _ (fun c' =>
    active c' = active c
    /\ rowContainerReadyCount c' = rowContainerReadyCount c
    /\ refreshNeeded c' = refreshNeeded c
    /\ columnRefreshPending c' = columnRefreshPending c
    /\ printLayout c' = printLayout c
    /\ taskQueue c' = taskQueue c
    /\ rowNode c' = rowNode c)).
  - repeat split.
  - intros a col (H1 & H2 & H3 & H4 & H5 & H6 & H7).
    unfold newCellComp. simpl. repeat split; assumption.
Qed.

Lemma lazyCreateCells_while_building b cols eRow n requested c0 c :
  building n requested c0 c ->
  n < 2 \/ requested = false ->
  building (S n) requested c0 (lazyCreateCells b cols eRow c).
Proof.
  intros (Ha & Hn & Hr & Hp & Hl & Hq & Hnode) Hcase.
  destruct (createCells_frame b cols eRow c) as (Fa & Fn & Fr & Fp & Fl & Fq & Fnode).
  unfold lazyCreateCells. rewrite Ha. cbn [negb].
  set (c1 := set_rowContainerReadyCount _ _).
  assert (Hready : areAllContainersReady c1 && refreshNeeded c1 = false).
  { unfold areAllContainersReady. subst c1. cbn [rowContainerReadyCount refreshNeeded
      set_rowContainerReadyCount]. rewrite Fn, Hn, Fr, Hr.
    destruct Hcase as [Hlt| ->]; [|apply andb_false_r].
    apply andb_false_intro1. apply Nat.eqb_neq. lia. }
  rewrite Hready. subst c1. unfold building.
  cbn [active rowContainerReadyCount refreshNeeded columnRefreshPending printLayout
       taskQueue rowNode set_rowContainerReadyCount].
  repeat split; congruence.
Qed.

(** X5.  A reconcile request that arrives before the three containers of a
    row have built their cells does nothing but raise [refreshNeeded]: no
    cell, no call, no task.  It is replayed when the third container
    completes: that [lazyCreateCells] call puts one reconcile task on the
    queue, and none of the calls does when no request was made. *)
Theorem lazy_build_replays_request b c cols1 eRow1 cols2 eRow2 cols3 eRow3 :
  building 0 false c c ->
  isSuppressAnimationFrame b = false ->
  let build s :=
    lazyCreateCells b cols3 eRow3
      (lazyCreateCells b cols2 eRow2 (lazyCreateCells b cols1 eRow1 s)) in
  refreshCells b c = set_refreshNeeded true c
  /\ taskQueue
       (lazyCreateCells b cols2 eRow2 (lazyCreateCells b cols1 eRow1 (refreshCells b c)))
     = taskQueue c
  /\ taskQueue (build (refreshCells b c)) = taskQueue c ++ [refreshTask c]
  /\ taskQueue (build c) = taskQueue c.
Proof.
  intros Hstart Hs build.
  assert (Hreq : refreshCells b c = set_refreshNeeded true c).
  { destruct Hstart as (_ & Hn & _). unfold refreshCells, areAllContainersReady.
    now rewrite Hn. }
  assert (H0 : building 0 true c (refreshCells b c)).
  { rewrite Hreq. destruct Hstart as (Ha & Hn & Hr & Hp & Hl & Hq & Hnode).
    unfold building. simpl. repeat split; assumption. }
  pose proof (lazyCreateCells_while_building b cols1 eRow1 _ _ _ _ H0
                (or_introl (Nat.lt_0_2))) as H1.
  pose proof (lazyCreateCells_while_building b cols2 eRow2 _ _ _ _ H1
                (or_introl (Nat.lt_1_2))) as H2.
  split; [exact Hreq|]. split; [apply H2|]. split.
  - subst build. cbv beta.
    set (s2 := lazyCreateCells b cols2 eRow2
                 (lazyCreateCells b cols1 eRow1 (refreshCells b c))) in *.
    destruct H2 as (Ha & Hn & Hr & Hp & Hl & Hq & Hnode).
    destruct (createCells_frame b cols3 eRow3 s2)
      as (Fa & Fn & Fr & Fp & Fl & Fq & Fnode).
    unfold lazyCreateCells. rewrite Ha. cbn [negb].
    set (c3 := set_rowContainerReadyCount _ _).
    assert (Hready : areAllContainersReady c3 = true).
    { unfold areAllContainersReady. subst c3.
      cbn [rowContainerReadyCount set_rowContainerReadyCount]. now rewrite Fn, Hn. }
    assert (Hneeded : refreshNeeded c3 = true).
    { subst c3. cbn [refreshNeeded set_rowContainerReadyCount]. congruence. }
    rewrite Hready, Hneeded. cbn [andb].
    rewrite refreshCells_enqueues; try assumption.
    + unfold refreshTask. subst c3.
      cbn [taskQueue rowNode set_taskQueue set_rowContainerReadyCount].
      now rewrite Fq, Hq, Fnode, Hnode.
    + subst c3. cbn [printLayout set_rowContainerReadyCount]. congruence.
    + subst c3. cbn [columnRefreshPending set_rowContainerReadyCount]. congruence.
  - subst build. cbv beta.
    pose proof (lazyCreateCells_while_building b cols1 eRow1 _ _ _ _ Hstart
                  (or_intror eq_refl)) as N1.
    pose proof (lazyCreateCells_while_building b cols2 eRow2 _ _ _ _ N1
                  (or_intror eq_refl)) as N2.
    pose proof (lazyCreateCells_while_building b cols3 eRow3 _ _ _ _ N2
                  (or_intror eq_refl)) as N3.
    apply N3.
Qed.

(** X5, at a concrete row: a normal row none of whose containers has built
    its cells yet. *)
Lemma lazy_build_replays_request_witness :
  taskQueue
    (lazyCreateCells Samples.beansAB [] SegLeft
       (lazyCreateCells Samples.beansAB [] SegRight
          (lazyCreateCells Samples.beansAB [0; 1] SegCenter
             (refreshCells Samples.beansAB MoreSamples.unbuiltRow))))
  = taskQueue MoreSamples.unbuiltRow ++ [refreshTask MoreSamples.unbuiltRow].
Proof.
  refine (proj1 (proj2 (proj2
            (lazy_build_replays_request Samples.beansAB MoreSamples.unbuiltRow
               [0; 1] SegCenter [] SegRight [] SegLeft _ _)))).
  - repeat split.
  - reflexivity.
Defined.

(* ================================================================= *)
(** ** Refreshing one cell *)






(* ================================================================= *)
(** ** Tearing the cells down *)

Lemma cellsAt_ext o o' ks :
  (forall k, In k ks -> JsObject.get o' k = JsObject.get o k) ->
  cellsAt o' ks = cellsAt o ks.
Proof.
  unfold cellsAt. induction ks as [|k ks IH]; intros H; simpl; [reflexivity|].
  rewrite H by now left. f_equal. apply IH. intros k' Hk'. apply H. now right.
Qed.

Lemma destroyCell_effects key c :
  effects (destroyCell key c) = effects c ++ teardownOf (cellsAt (cellComps c) [key]).
Proof.
  unfold destroyCell, cellsAt, teardownOf. simpl.
  destruct (JsObject.get (cellComps c) key) as [[cell|]|]; simpl;
    now rewrite ?app_nil_r.
Qed.

Lemma teardownOf_app l1 l2 : teardownOf (l1 ++ l2) = teardownOf l1 ++ teardownOf l2.
Proof. unfold teardownOf. apply flat_map_app. Qed.

Lemma destroyCells_effects ks c :
  NoDup ks ->
  effects (destroyCells ks c) = effects c ++ teardownOf (cellsAt (cellComps c) ks).
Proof.
  unfold destroyCells. revert c.
  induction ks as [|key ks IH]; intros c Hnd; cbn [fold_left].
  - unfold cellsAt, teardownOf. simpl. now rewrite app_nil_r.
  - inversion Hnd as [|? ? Hnotin Hnd']; subst.
    rewrite IH by assumption. rewrite destroyCell_effects, <- app_assoc.
    f_equal. rewrite <- teardownOf_app. f_equal.
    assert (Hsplit : cellsAt (cellComps c) (key :: ks)
                     = cellsAt (cellComps c) [key] ++ cellsAt (cellComps c) ks).
    { unfold cellsAt. simpl. now rewrite app_nil_r. }
    rewrite Hsplit. f_equal. apply cellsAt_ext. intros k Hk. apply destroyCell_get_other.
    intros ->. contradiction.
Qed.

(** X7.  On a row whose [cellComps] still has its own prototype (no cell was
    filed under ["__proto__"], where [Object.keys] would not find it),
    [destroyContainingCells] tears down every materialized cell exactly once,
    in key order, each one detached and then destroyed, and makes no other
    call; every slot is cleared afterwards (the keys stay, and nothing is
    filed under ["__proto__"]), so calling it again changes nothing and
    destroys no cell a second time. *)
Theorem destroyContainingCells_tears_down_once c :
  JsObject.wf (cellComps c) ->
  prototypeIntact c ->
  effectsDuring destroyContainingCells c = teardownOf (materializedCells c)
  /\ materializedCells (destroyContainingCells c) = []
  /\ JsObject.keys (cellComps (destroyContainingCells c)) = JsObject.keys (cellComps c)
  /\ prototypeIntact (destroyContainingCells c)
  /\ destroyContainingCells (destroyContainingCells c) = destroyContainingCells c.
Proof.
  intros Hwf Hproto.
  pose proof (destroyContainingCells_clears c) as Hclear.
  split; [|split; [|split; [|split]]].
  - apply effectsDuring_app. unfold destroyContainingCells.
    apply destroyCells_effects. now apply JsObjectFacts.keys_NoDup.
  - unfold materializedCells, cellsAt.
    generalize (JsObject.keys (cellComps (destroyContainingCells c))) as ks.
    induction ks as [|k ks IH]; simpl; [reflexivity|].
    specialize (Hclear k).
    destruct (JsObject.get (cellComps (destroyContainingCells c)) k) as [[x|]|];
      [discriminate | exact IH | exact IH].
  - unfold destroyContainingCells, JsObject.keys. now rewrite destroyCells_fst.
  - unfold prototypeIntact, destroyContainingCells in *.
    now apply destroyCells_keeps_absent.
  - unfold destroyContainingCells at 1. apply destroyCells_missing.
    intros k _. apply Hclear.
Qed.

(** X7, at a concrete row: the row with cells A and B. *)
Lemma destroyContainingCells_tears_down_once_witness :
  effectsDuring destroyContainingCells Samples.rowAB
  = teardownOf (materializedCells Samples.rowAB).
Proof.
  refine (proj1 (destroyContainingCells_tears_down_once Samples.rowAB _ _)).
  - vm_compute. repeat constructor; simpl; intuition discriminate.
  - reflexivity.
Defined.

(* ================================================================= *)
(** ** An edit session *)

Lemma startRowEditing_starts keyPress charPress sourceRenderedCell c :
  editingRow c = false ->
  startRowEditing keyPress charPress sourceRenderedCell c
  = setEditingRow true
      (emit (map (startSignal keyPress charPress sourceRenderedCell)
               (materializedCells c)) c).
Proof.
  intros Hnot. unfold startRowEditing. rewrite Hnot.
  rewrite (forEachCellComp_emits _
             (startSignal keyPress charPress sourceRenderedCell)); [reflexivity|].
  intros cell c0. unfold startSignal.
  destruct sourceRenderedCell as [source|]; [|reflexivity].
  destruct (sameCellComp cell source); reflexivity.
Qed.

(** X8.  An edit session.  [startRowEditing] on a row that is not editing
    sends every materialized cell its start signal in key order (key press
    and character only to the cell that started the edit), then marks every
    row element as editing and dispatches editing-started, and raises the
    flag.  [stopRowEditing] on the result sends every cell its stop signal,
    then value-changed unless cancelled, unmarks the row elements and
    dispatches editing-stopped, and the flag is down again; the cells are
    those of the start. *)
Theorem edit_session_round_trip keyPress charPress sourceRenderedCell cancel c :
  editingRow c = false ->
  let started := startRowEditing keyPress charPress sourceRenderedCell c in
  effectsDuring (startRowEditing keyPress charPress sourceRenderedCell) c
  = map (startSignal keyPress charPress sourceRenderedCell) (materializedCells c)
    ++ editingCss true c
    ++ [EventServiceDispatch EVENT_ROW_EDITING_STARTED]
  /\ editingRow started = true
  /\ effectsDuring (stopRowEditing cancel) started
     = map (fun cell => CellStopEditing cell cancel) (materializedCells c)
       ++ (if cancel then [] else [EventServiceDispatch EVENT_ROW_VALUE_CHANGED])
       ++ editingCss false c
       ++ [EventServiceDispatch EVENT_ROW_EDITING_STOPPED]
  /\ editingRow (stopRowEditing cancel started) = false
  /\ cellComps (stopRowEditing cancel started) = cellComps c.
Proof.
  intros Hnot started.
  pose proof (startRowEditing_starts keyPress charPress sourceRenderedCell c Hnot)
    as Hstart. fold started in Hstart.
  assert (Hcells : cellComps started = cellComps c) by now rewrite Hstart.
  assert (Hflag : editingRow started = true) by now rewrite Hstart.
  assert (Hrows : allRowComps started = allRowComps c) by now rewrite Hstart.
  split; [|split; [assumption|split; [|split]]].
  - apply effectsDuring_app. fold started. rewrite Hstart.
    unfold setEditingRow, dispatchEvent, editingCss. simpl.
    now rewrite <- !app_assoc.
  - apply effectsDuring_app. unfold stopRowEditing.
    rewrite stopEditing_effects. unfold stopNotifications, materializedCells.
    rewrite Hflag, Hcells. do 2 f_equal.
    unfold editingCss. rewrite Hrows. reflexivity.
  - unfold stopRowEditing, stopEditing.
    rewrite (forEachCellComp_emits _ (fun cell => CellStopEditing cell cancel))
      by reflexivity.
    cbn [editingRow emit set_effects]. rewrite Hflag. cbn [negb].
    destruct cancel; reflexivity.
  - unfold stopRowEditing, stopEditing.
    rewrite (forEachCellComp_emits _ (fun cell => CellStopEditing cell cancel))
      by reflexivity.
    cbn [editingRow emit set_effects]. rewrite Hflag. cbn [negb].
    destruct cancel; exact Hcells.
Qed.

(** X8, at a concrete row: F2 pressed on cell A of the row with cells A
    and B, the edit then confirmed. *)
Lemma edit_session_round_trip_witness :
  editingRow
    (stopRowEditing false (startRowEditing (Some 113) None (Some Samples.cellA)
                             Samples.rowAB)) = false.
Proof.
  refine (proj1 (proj2 (proj2 (proj2
            (edit_session_round_trip (Some 113) None (Some Samples.cellA) false
               Samples.rowAB _))))).
  reflexivity.
Defined.

(* ================================================================= *)
(** ** Full-width refresh: the calls *)

Lemma tryRefresh_calls b rowComp pinned c :
  snd (tryRefresh b rowComp pinned c) = emit (refreshCallOf b rowComp pinned) c.
Proof.
  unfold tryRefresh, refreshCallOf.
  destruct rowComp as [rowComp|]; [|now rewrite emit_nil].
  destruct (getFullWidthRowComp b rowComp) as [renderer|]; [|now rewrite emit_nil].
  destruct (refresh renderer); [reflexivity | now rewrite emit_nil].
Qed.

(** X9.  [refreshFullWidth] does not stop at the first representation that
    fails: whatever the answers, it asks the full-width, center, left and
    right representation in this order, each present one whose renderer has
    a [refresh] method exactly once, the left one with pinned-left and the
    right one with pinned-right parameters; nothing else of the controller
    changes. *)
Theorem refreshFullWidth_asks_every_representation b c :
  snd (refreshFullWidth b c)
  = emit (refreshCallOf b (fullWidthRowComp c) NotPinned
          ++ refreshCallOf b (centerRowComp c) NotPinned
          ++ refreshCallOf b (leftRowComp c) PinnedLeft
          ++ refreshCallOf b (rightRowComp c) PinnedRight) c.
Proof.
  unfold refreshFullWidth.
  pose proof (tryRefresh_calls b (fullWidthRowComp c) NotPinned c) as H1.
  destruct (tryRefresh b (fullWidthRowComp c) NotPinned c) as [r1 c1].
  simpl in H1. subst c1.
  set (e1 := refreshCallOf b (fullWidthRowComp c) NotPinned).
  change (centerRowComp (emit e1 c)) with (centerRowComp c).
  pose proof (tryRefresh_calls b (centerRowComp c) NotPinned (emit e1 c)) as H2.
  destruct (tryRefresh b (centerRowComp c) NotPinned (emit e1 c)) as [r2 c2].
  simpl in H2. subst c2.
  set (e2 := refreshCallOf b (centerRowComp c) NotPinned).
  change (leftRowComp (emit e2 (emit e1 c))) with (leftRowComp c).
  pose proof (tryRefresh_calls b (leftRowComp c) PinnedLeft (emit e2 (emit e1 c))) as H3.
  destruct (tryRefresh b (leftRowComp c) PinnedLeft (emit e2 (emit e1 c))) as [r3 c3].
  simpl in H3. subst c3.
  set (e3 := refreshCallOf b (leftRowComp c) PinnedLeft).
  change (rightRowComp (emit e3 (emit e2 (emit e1 c)))) with (rightRowComp c).
  pose proof (tryRefresh_calls b (rightRowComp c) PinnedRight
                (emit e3 (emit e2 (emit e1 c)))) as H4.
  destruct (tryRefresh b (rightRowComp c) PinnedRight
              (emit e3 (emit e2 (emit e1 c)))) as [r4 c4].
  simpl in H4. subst c4. cbn [snd].
  now rewrite !emit_emit, <- ?app_assoc.
Qed.

(* ================================================================= *)
(** ** Focus and page boundaries *)

Lemma stopEditing_when_editing c :
  editingRow c = true ->
  editingRow (stopEditing false c) = false
  /\ cellComps (stopEditing false c) = cellComps c
  /\ effects (stopEditing false c) = effects c ++ confirmedStop c.
Proof.
  intros Hed. split; [|split].
  - unfold stopEditing.
    rewrite (forEachCellComp_emits _ (fun cell => CellStopEditing cell false))
      by reflexivity.
    cbn [editingRow emit set_effects]. now rewrite Hed.
  - unfold stopEditing.
    rewrite (forEachCellComp_emits _ (fun cell => CellStopEditing cell false))
      by reflexivity.
    cbn [editingRow emit set_effects]. now rewrite Hed.
  - rewrite stopEditing_effects. unfold stopNotifications, confirmedStop, editingCss.
    now rewrite Hed.
Qed.

Lemma onCellFocusChanged_settled focused s :
  rowFocused s = focused ->
  negb focused && editingRow (controller s) = false ->
  onCellFocusChanged focused s = s.
Proof.
  intros Hf He. unfold onCellFocusChanged.
  rewrite Hf, Bool.eqb_reflx. cbn [negb]. now rewrite He.
Qed.

(** X10.  [onCellFocusChanged] brings the row in line with the focus
    controller's answer.  The focus css is written on every row element when
    the answer differs from the recorded one, and not otherwise.  A row that
    is editing when the focus is elsewhere is made to stop, not cancelled:
    every cell gets its stop signal, then value-changed, the editing css,
    editing-stopped.  Afterwards the row is editing only if it is focused and
    was editing, its cells are the same, and the same answer again changes
    nothing. *)
Theorem focus_loss_ends_the_edit focused s :
  let s' := onCellFocusChanged focused s in
  rowFocused s' = focused
  /\ editingRow (controller s') = focused && editingRow (controller s)
  /\ cellComps (controller s') = cellComps (controller s)
  /\ effects (controller s')
     = effects (controller s)
       ++ (if Bool.eqb focused (rowFocused s) then []
           else focusCss focused (controller s))
       ++ (if negb focused && editingRow (controller s)
           then confirmedStop (controller s) else [])
  /\ onCellFocusChanged focused s' = s'.
Proof.
  cbv zeta.
  set (s1 := if negb (Bool.eqb focused (rowFocused s))
             then set_rowFocused focused
                    (withController
                       (emit (focusCss focused (controller s)) (controller s)) s)
             else s).
  assert (Hstep : onCellFocusChanged focused s
                  = if negb focused && editingRow (controller s1)
                    then withController (stopEditing false (controller s1)) s1
                    else s1) by reflexivity.
  assert (H1 : rowFocused s1 = focused
               /\ editingRow (controller s1) = editingRow (controller s)
               /\ cellComps (controller s1) = cellComps (controller s)
               /\ allRowComps (controller s1) = allRowComps (controller s)
               /\ effects (controller s1)
                  = effects (controller s)
                    ++ (if Bool.eqb focused (rowFocused s) then []
                        else focusCss focused (controller s))).
  { subst s1. destruct (Bool.eqb focused (rowFocused s)) eqn:E; cbn [negb].
    - apply Bool.eqb_prop in E. rewrite app_nil_r. repeat split. now symmetry.
    - repeat split. }
  destruct H1 as (Hf & He & Hc & Hr & Hx).
  rewrite Hstep, He.
  destruct focused; cbn [negb andb].
  - rewrite app_nil_r. repeat split; try assumption.
    apply onCellFocusChanged_settled; [assumption | reflexivity].
  - destruct (editingRow (controller s)) eqn:Hed.
    + destruct (stopEditing_when_editing (controller s1) He) as (Se & Sc & Sx).
      cbn [controller rowFocused withController].
      split; [assumption|]. split; [assumption|]. split; [congruence|]. split.
      * rewrite Sx, Hx, <- app_assoc. do 2 f_equal.
        unfold confirmedStop, editingCss, materializedCells. now rewrite Hc, Hr.
      * apply onCellFocusChanged_settled; [assumption|].
        cbn [controller withController negb andb]. assumption.
    + rewrite app_nil_r. repeat split; try assumption.
      apply onCellFocusChanged_settled; [assumption|]. now rewrite He.
Qed.

Lemma onModelUpdated_settled getPageFirstRow getPageLastRow s :
  firstRowOnPage s = Some (isFirstRowOnPage getPageFirstRow (controller s)) ->
  lastRowOnPage s = Some (isLastRowOnPage getPageLastRow (controller s)) ->
  onModelUpdated getPageFirstRow getPageLastRow s = s.
Proof.
  intros Hf Hl. unfold onModelUpdated, differsFrom.
  rewrite Hf, Bool.eqb_reflx. cbn [negb]. now rewrite Hl, Bool.eqb_reflx.
Qed.

Lemma differsFrom_false field value : differsFrom field value = false -> field = Some value.
Proof.
  unfold differsFrom. destruct field as [old|]; [|discriminate].
  intros H. apply negb_false_iff, Bool.eqb_prop in H. now subst.
Qed.

(** X11.  [onModelUpdated] keeps the first-row and last-row classes in line
    with the page bounds: a class is written on every row element exactly
    when the answer differs from the recorded one (always at the first
    notification, when nothing is recorded), first-row before last-row;
    afterwards both answers are recorded, and a further notification with the
    same page bounds changes nothing. *)
Theorem page_classes_follow_the_model getPageFirstRow getPageLastRow s :
  let newFirst := isFirstRowOnPage getPageFirstRow (controller s) in
  let newLast := isLastRowOnPage getPageLastRow (controller s) in
  let s' := onModelUpdated getPageFirstRow getPageLastRow s in
  firstRowOnPage s' = Some newFirst
  /\ lastRowOnPage s' = Some newLast
  /\ effects (controller s')
     = effects (controller s)
       ++ (if differsFrom (firstRowOnPage s) newFirst
           then cssToggle "ag-row-first" newFirst (controller s) else [])
       ++ (if differsFrom (lastRowOnPage s) newLast
           then cssToggle "ag-row-last" newLast (controller s) else [])
  /\ onModelUpdated getPageFirstRow getPageLastRow s' = s'.
Proof.
  cbv zeta.
  assert (H : firstRowOnPage (onModelUpdated getPageFirstRow getPageLastRow s)
              = Some (isFirstRowOnPage getPageFirstRow (controller s))
              /\ lastRowOnPage (onModelUpdated getPageFirstRow getPageLastRow s)
                 = Some (isLastRowOnPage getPageLastRow (controller s))
              /\ rowNode (controller (onModelUpdated getPageFirstRow getPageLastRow s))
                 = rowNode (controller s)
              /\ effects (controller (onModelUpdated getPageFirstRow getPageLastRow s))
                 = effects (controller s)
                   ++ (if differsFrom (firstRowOnPage s)
                            (isFirstRowOnPage getPageFirstRow (controller s))
                       then cssToggle "ag-row-first"
                              (isFirstRowOnPage getPageFirstRow (controller s))
                              (controller s)
                       else [])
                   ++ (if differsFrom (lastRowOnPage s)
                            (isLastRowOnPage getPageLastRow (controller s))
                       then cssToggle "ag-row-last"
                              (isLastRowOnPage getPageLastRow (controller s))
                              (controller s)
                       else [])).
  { unfold onModelUpdated.
    destruct (differsFrom (firstRowOnPage s) _) eqn:Ef;
      cbn [lastRowOnPage set_firstRowOnPage withController controller];
      destruct (differsFrom (lastRowOnPage s) _) eqn:El;
      cbn [firstRowOnPage lastRowOnPage set_firstRowOnPage set_lastRowOnPage
           withController controller toggleOnAllRowComps];
      try apply differsFrom_false in Ef; try apply differsFrom_false in El;
      unfold cssToggle; cbn [emit set_effects effects rowNode allRowComps];
      rewrite ?app_nil_r, <- ?app_assoc.
    all: repeat split; try assumption;
      unfold toggleOnAllRowComps; simpl; now rewrite <- ?app_assoc, ?app_nil_r. }
  destruct H as (Hf & Hl & Hn & Hx).
  split; [assumption|]. split; [assumption|]. split; [assumption|].
  apply onModelUpdated_settled.
  - rewrite Hf. unfold isFirstRowOnPage. now rewrite Hn.
  - rewrite Hl. unfold isLastRowOnPage. now rewrite Hn.
Qed.

(* ================================================================= *)
(** ** Mouse events *)

Lemma row_click_selection_stop options node mouseEvent s :
  (isStopPropagationForAgGrid mouseEvent || lastMouseDownOnDragger s = true ->
   onRowClick options node mouseEvent s = [])
  /\ (isStopPropagationForAgGrid mouseEvent || lastMouseDownOnDragger s = false ->
      exists rest,
        onRowClick options node mouseEvent s
        = DispatchRowEvent EVENT_ROW_CLICKED :: rest).
Proof.
  unfold onRowClick.
  destruct (isStopPropagationForAgGrid mouseEvent || lastMouseDownOnDragger s).
  - split; [reflexivity | discriminate].
  - split; [discriminate|]. intros _.
    destruct (_ || _ || _ || _ || _); [eexists; reflexivity|].
    destruct (isSelected node), (isRowMultiSelectWithClick options),
      (ctrlKey mouseEvent || metaKey mouseEvent),
      (negb (isSuppressRowDeselection options)); eexists; reflexivity.
Qed.

(** X12.  What a click on the row does to the selection.  A click whose
    propagation was stopped, or that follows a mouse-down on the drag handle,
    makes no call.  Any other click dispatches row-clicked first and then
    makes at most one selection call.  A selection call is made only on a
    selectable, unpinned row with row selection on and click selection not
    suppressed, and never on a group when groups select their children.  An
    unselected row is always selected by it; a row is deselected only when it
    was selected and multi-select-on-click is on, or the multi-select key is
    down and deselection is not suppressed, or shift is down; the other rows
    are cleared only by a click without the multi-select key when
    multi-select-on-click is off. *)
Theorem row_click_selection options node mouseEvent s :
  let calls := onRowClick options node mouseEvent s in
  let multiSelectKeyPressed := ctrlKey mouseEvent || metaKey mouseEvent in
  (isStopPropagationForAgGrid mouseEvent || lastMouseDownOnDragger s = true ->
   calls = [])
  /\ (isStopPropagationForAgGrid mouseEvent || lastMouseDownOnDragger s = false ->
      exists rest,
        calls = DispatchRowEvent EVENT_ROW_CLICKED :: rest
        /\ List.length rest <= 1
        /\ Forall (fun call => exists params, call = SetSelected params) rest)
  /\ (forall params,
        In (SetSelected params) calls ->
        (selectable node = true
         /\ rowPinned node = None
         /\ isRowSelection options = true
         /\ isSuppressRowClickSelection options = false
         /\ isGroupSelectsChildren options && group (rowNode (controller s)) = false)
        /\ (isSelected node = false -> newValue params = true)
        /\ (newValue params = false ->
            isSelected node = true
            /\ (isRowMultiSelectWithClick options = true
                \/ (multiSelectKeyPressed = true
                    /\ isSuppressRowDeselection options = false)
                \/ shiftKey mouseEvent = true))
        /\ (clearSelection params = Some true ->
            isRowMultiSelectWithClick options = false
            /\ multiSelectKeyPressed = false)).
Proof.
  cbv zeta. unfold onRowClick.
  destruct (isStopPropagationForAgGrid mouseEvent || lastMouseDownOnDragger s).
  { split; [reflexivity|]. split; [discriminate|]. intros params []. }
  split; [discriminate|].
  destruct (isGroupSelectsChildren options && group (rowNode (controller s))
            || negb (selectable node) || isRowPinnedSet node
            || negb (isRowSelection options)
            || isSuppressRowClickSelection options) eqn:Hguard.
  { split.
    - intros _. exists []. repeat split; [simpl; lia | constructor].
    - intros params [H|[]]. discriminate. }
  apply orb_false_iff in Hguard. destruct Hguard as [Hguard Gsuppress].
  apply orb_false_iff in Hguard. destruct Hguard as [Hguard Gselection].
  apply orb_false_iff in Hguard. destruct Hguard as [Hguard Gpinned].
  apply orb_false_iff in Hguard. destruct Hguard as [Ggroup Gselectable].
  apply negb_false_iff in Gselection, Gselectable.
  assert (Gunpinned : rowPinned node = None).
  { unfold isRowPinnedSet in Gpinned. now destruct (rowPinned node). }
  split.
  - intros _.
    destruct (isSelected node), (isRowMultiSelectWithClick options),
      (ctrlKey mouseEvent || metaKey mouseEvent),
      (negb (isSuppressRowDeselection options)); cbn [app];
      eexists; (split; [reflexivity|]); split; simpl; try lia;
      repeat constructor; eexists; reflexivity.
  - intros params Hin.
    split; [repeat split; assumption|].
    destruct (isSelected node), (isRowMultiSelectWithClick options),
      (ctrlKey mouseEvent || metaKey mouseEvent),
      (isSuppressRowDeselection options), (shiftKey mouseEvent);
      cbn [app negb In] in Hin;
      repeat (destruct Hin as [Hin|Hin]; try discriminate; try contradiction);
      inversion Hin; subst params; cbn [newValue clearSelection negb];
      repeat split; intros; try discriminate; try reflexivity; auto.
Qed.

(** X12, at a concrete click: a plain click on an unselected, selectable
    row. *)
Lemma row_click_selection_witness :
  selectable MoreSamples.unselectedNode = true
  /\ rowPinned MoreSamples.unselectedNode = None
  /\ isRowSelection MoreSamples.multiSelection = true
  /\ isSuppressRowClickSelection MoreSamples.multiSelection = false
  /\ isGroupSelectsChildren MoreSamples.multiSelection
     && group (rowNode (controller (MoreSamples.stateOf Samples.rowAB))) = false.
Proof.
  refine (proj1 (proj2 (proj2
            (row_click_selection MoreSamples.multiSelection
               MoreSamples.unselectedNode MoreSamples.plainClick
               (MoreSamples.stateOf Samples.rowAB)))
            {| newValue := true; clearSelection := Some true;
               rangeSelect := Some false |} _)).
  vm_compute. right. left. reflexivity.
Defined.

(** X13.  A mouse-down records whether it landed on the row's drag handle,
    and that alone decides whether the clicks after it count: after a
    mouse-down on the handle every click is dropped, after a mouse-down
    elsewhere a click whose propagation was not stopped dispatches
    row-clicked, whatever was recorded before.  The mouse-down focuses the
    first displayed column on a full-width row and makes no call on a normal
    row.  A double click ignores the record.  Event names other than the
    three do nothing, and no mouse event touches the controller's cells,
    flags or call log. *)
Theorem drag_handle_mouse_down_drops_the_click b options node down click s :
  let pressed := fst (onMouseEvent b options node "mousedown" down s) in
  (forall eventName mouseEvent,
     controller (fst (onMouseEvent b options node eventName mouseEvent s))
     = controller s)
  /\ snd (onMouseEvent b options node "mousedown" down s)
     = (if isFullWidth (controller s)
        then [SetFocusedCell (rowIndex (rowNode (controller s)))
                (hd_error (getAllDisplayedColumns b)) (rowPinned node) true]
        else [])
  /\ (targetInRowDrag down = true ->
      onMouseEvent b options node "click" click pressed = (pressed, []))
  /\ (targetInRowDrag down = false ->
      isStopPropagationForAgGrid click = false ->
      exists rest,
        snd (onMouseEvent b options node "click" click pressed)
        = DispatchRowEvent EVENT_ROW_CLICKED :: rest)
  /\ snd (onMouseEvent b options node "dblclick" click pressed)
     = (if isStopPropagationForAgGrid click then []
        else [DispatchRowEvent EVENT_ROW_DOUBLE_CLICKED])
  /\ (forall eventName mouseEvent,
        eventName <> "dblclick"%string -> eventName <> "click"%string ->
        eventName <> "mousedown"%string ->
        onMouseEvent b options node eventName mouseEvent s = (s, [])).
Proof.
  cbv zeta.
  assert (Hdown : forall mouseEvent,
            onMouseEvent b options node "mousedown" mouseEvent s
            = onRowMouseDown b node mouseEvent s) by reflexivity.
  assert (Hpressed : lastMouseDownOnDragger (fst (onRowMouseDown b node down s))
                     = targetInRowDrag down).
  { unfold onRowMouseDown. cbn [controller set_lastMouseDownOnDragger].
    now destruct (negb (isFullWidth (controller s))). }
  assert (Hclick : forall s0,
            onMouseEvent b options node "click" click s0
            = (s0, onRowClick options node click s0)) by reflexivity.
  split; [|split; [|split; [|split; [|split]]]].
  - intros eventName mouseEvent. unfold onMouseEvent.
    destruct (String.eqb eventName "dblclick"); [reflexivity|].
    destruct (String.eqb eventName "click"); [reflexivity|].
    destruct (String.eqb eventName "mousedown"); [|reflexivity].
    unfold onRowMouseDown. cbn [controller set_lastMouseDownOnDragger].
    now destruct (negb (isFullWidth (controller s))).
  - rewrite Hdown. unfold onRowMouseDown. cbn [controller set_lastMouseDownOnDragger].
    now destruct (isFullWidth (controller s)).
  - intros Hdrag. rewrite Hclick, Hdown. f_equal.
    destruct (row_click_selection_stop options node click
                (fst (onRowMouseDown b node down s))) as [Hstop _].
    apply Hstop. rewrite Hpressed, Hdrag. apply orb_true_r.
  - intros Hdrag Hprop. rewrite Hclick, Hdown. cbn [snd].
    destruct (row_click_selection_stop options node click
                (fst (onRowMouseDown b node down s))) as [_ Hgo].
    apply Hgo. now rewrite Hpressed, Hdrag, Hprop.
  - reflexivity.
  - intros eventName mouseEvent H1 H2 H3. unfold onMouseEvent.
    apply String.eqb_neq in H1, H2, H3. now rewrite H1, H2, H3.
Qed.

(** X13, at a concrete sequence: a mouse-down on the drag handle of the row
    with cells A and B, then a click. *)
Lemma drag_handle_mouse_down_drops_the_click_witness :
  snd (onMouseEvent Samples.beansAB MoreSamples.multiSelection
         MoreSamples.unselectedNode "click" MoreSamples.plainClick
         (fst (onMouseEvent Samples.beansAB MoreSamples.multiSelection
                 MoreSamples.unselectedNode "mousedown" MoreSamples.dragHandleDown
                 (MoreSamples.stateOf Samples.rowAB))))
  = [].
Proof.
  refine (f_equal snd (proj1 (proj2 (proj2
            (drag_handle_mouse_down_drops_the_click Samples.beansAB
               MoreSamples.multiSelection MoreSamples.unselectedNode
               MoreSamples.dragHandleDown MoreSamples.plainClick
               (MoreSamples.stateOf Samples.rowAB)))) _)).
  reflexivity.
Defined.

(* ================================================================= *)
(** ** Looking a cell up by column *)

Lemma span_head (o : JsObject.t (option CellComp)) (f : CellComp -> bool)
    (ks : list string) :
  match
    filter (fun cmp => match cmp with
                       | Some (Some cmp) => f cmp
                       | _ => false
                       end)
      (map (fun name => JsObject.get o name) ks)
  with
  | Some (Some cmp) :: _ => RenderedCell cmp
  | _ => RenderedNull
  end
  = match hd_error (filter f (cellsAt o ks)) with
    | Some cell => RenderedCell cell
    | None => RenderedNull
    end.
Proof.
  unfold cellsAt. induction ks as [|k ks IH]; [reflexivity|].
  cbn [map filter flat_map].
  destruct (JsObject.get o k) as [[cell|]|]; cbn [app filter]; [|exact IH|exact IH].
  destruct (f cell); [reflexivity | exact IH].
Qed.

Lemma hd_error_filter_none {A} (f : A -> bool) (l : list A) :
  hd_error (filter f l) = None <-> forall x, In x l -> f x = false.
Proof.
  induction l as [|a l IH]; simpl.
  - split; [intros _ x [] | reflexivity].
  - destruct (f a) eqn:E; simpl.
    + split; [discriminate|]. intros H. specialize (H a (or_introl eq_refl)).
      congruence.
    + rewrite IH. split.
      * intros H x [<-|Hin]; auto.
      * intros H x Hin. apply H. now right.
Qed.

Lemma hd_error_filter_some {A} (f : A -> bool) (l : list A) x :
  hd_error (filter f l) = Some x -> In x l /\ f x = true.
Proof.
  intros H. apply filter_In. destruct (filter f l) as [|y l']; [discriminate|].
  simpl in H. injection H as ->. now left.
Qed.

Lemma firstSpanning_cell getColSpanningList column cells cell :
  firstSpanning getColSpanningList column cells = RenderedCell cell ->
  In cell cells /\ existsb (Nat.eqb column) (getColSpanningList cell) = true.
Proof.
  unfold firstSpanning. intros H.
  destruct (hd_error (filter _ cells)) as [x|] eqn:E; [|discriminate].
  injection H as ->. now apply hd_error_filter_some in E.
Qed.

Lemma firstSpanning_null getColSpanningList column cells :
  firstSpanning getColSpanningList column cells = RenderedNull <->
  forall cell, In cell cells ->
    existsb (Nat.eqb column) (getColSpanningList cell) = false.
Proof.
  unfold firstSpanning. rewrite <- hd_error_filter_none.
  destruct (hd_error (filter _ cells)); split; congruence.
Qed.

Lemma firstSpanning_no_member getColSpanningList column cells name :
  firstSpanning getColSpanningList column cells <> RenderedMember name.
Proof. unfold firstSpanning. now destruct (hd_error (filter _ cells)). Qed.

(** The three ways the lookup of [getRenderedCellForColumn] can go. *)
Lemma getRenderedCellForColumn_cases b getColSpanningList c column :
  let colId := getId b column in
  let found := getRenderedCellForColumn b getColSpanningList c column in
  (exists cell,
     JsObject.get (cellComps c) colId = Some (Some cell)
     /\ getCellForCol b c column = Some cell
     /\ found = RenderedCell cell)
  \/ (JsObject.get (cellComps c) colId = None
      /\ JsObject.inherited colId = true
      /\ getCellForCol b c column = None
      /\ found = RenderedMember colId)
  \/ ((JsObject.get (cellComps c) colId <> None \/ JsObject.inherited colId = false)
      /\ getCellForCol b c column = None
      /\ found = firstSpanning getColSpanningList column (materializedCells c)).
Proof.
  cbv zeta. unfold getRenderedCellForColumn, getCellForCol, firstSpanning,
    materializedCells.
  rewrite span_head.
  destruct (JsObject.get (cellComps c) (getId b column)) as [[cell|]|] eqn:Hget.
  - left. exists cell. auto.
  - right. right. split; [left; discriminate | auto].
  - destruct (JsObject.inherited (getId b column)) eqn:Hin.
    + right. left. auto.
    + right. right. auto.
Qed.

(** X14.  On a row whose [cellComps] still has its own prototype,
    [getRenderedCellForColumn] answers the cell in the column's own slot when
    there is one, as [getCellForCol] does.  When the slot is cleared, or was
    never created and the column id names no member a plain object inherits,
    it answers the first materialized cell, in key order, whose span
    contains the column, and null when there is none.  A cell it answers is
    always a materialized cell of the row.  When the slot was never created
    and the id names an inherited member (["__proto__"] always does), it
    answers that member, neither a cell nor null, and in no other case. *)
Theorem spanning_cell_lookup b getColSpanningList c column :
  prototypeIntact c ->
  let colId := getId b column in
  let spans cell := existsb (Nat.eqb column) (getColSpanningList cell) in
  let found := getRenderedCellForColumn b getColSpanningList c column in
  let ownOrPlain :=
    JsObject.get (cellComps c) colId <> None \/ JsObject.inherited colId = false in
  (forall cell, getCellForCol b c column = Some cell -> found = RenderedCell cell)
  /\ (getCellForCol b c column = None -> ownOrPlain ->
      found = firstSpanning getColSpanningList column (materializedCells c))
  /\ (forall cell,
        found = RenderedCell cell ->
        In cell (materializedCells c)
        /\ (getCellForCol b c column = Some cell \/ spans cell = true))
  /\ (found = RenderedNull <->
      getCellForCol b c column = None
      /\ ownOrPlain
      /\ forall cell, In cell (materializedCells c) -> spans cell = false)
  /\ (forall name,
        found = RenderedMember name <->
        name = colId
        /\ JsObject.get (cellComps c) colId = None
        /\ JsObject.inherited colId = true)
  /\ (colId = "__proto__"%string -> found = RenderedMember colId).
Proof.
  intros Hproto. cbv zeta.
  destruct (getRenderedCellForColumn_cases b getColSpanningList c column)
    as [(own & Hget & Hdirect & Hfound)
       |[(Hget & Hin & Hdirect & Hfound)|(Hplain & Hdirect & Hfound)]];
    rewrite Hfound, Hdirect.
  - split; [intros cell [= <-]; reflexivity|].
    split; [discriminate|].
    split.
    { intros cell [= <-]. split; [|now left].
      eapply materialized_in_cells; eassumption. }
    split; [split; [discriminate | intros [H _]; discriminate]|].
    split; [split; [discriminate | intros (_ & H & _); congruence]|].
    intros Hid. unfold prototypeIntact in Hproto. rewrite Hid in Hget. congruence.
  - split; [discriminate|].
    split; [intros _ [H|H]; congruence|].
    split; [discriminate|].
    split; [split; [discriminate | intros (_ & [H|H] & _); congruence]|].
    split; [|reflexivity].
    intros name. split; [intros [= <-]; auto | intros (-> & _); reflexivity].
  - split; [discriminate|].
    split; [reflexivity|].
    split.
    { intros cell Hcell. apply firstSpanning_cell in Hcell. destruct Hcell.
      split; auto. }
    split.
    { rewrite firstSpanning_null. split; [auto | intros (_ & _ & H); exact H]. }
    split.
    { intros name. split.
      - intros H. now apply firstSpanning_no_member in H.
      - intros (_ & Hnone & Hin). destruct Hplain; congruence. }
    intros Hid. exfalso. rewrite Hid in Hplain. unfold prototypeIntact in Hproto.
    destruct Hplain as [H|H]; [contradiction | discriminate].
Qed.

(** X14, at a concrete row: column C has no slot of its own in the row with
    cells A and B, and cell B spans it. *)
Lemma spanning_cell_lookup_witness :
  getRenderedCellForColumn Samples.beansAB MoreSamples.spanOfB Samples.rowAB 2
  = firstSpanning MoreSamples.spanOfB 2 (materializedCells Samples.rowAB).
Proof.
  refine (proj1 (proj2
            (spanning_cell_lookup Samples.beansAB MoreSamples.spanOfB
               Samples.rowAB 2 _)) _ _).
  - reflexivity.
  - reflexivity.
  - right. reflexivity.
Defined.

(* ================================================================= *)
(** ** Column events without batching *)

Lemma sameRow_refl c : sameRow c c.
Proof. repeat split. Qed.

Lemma sameRow_trans c1 c2 c3 : sameRow c1 c2 -> sameRow c2 c3 -> sameRow c1 c3.
Proof. intros (A1 & A2 & A3) (B1 & B2 & B3). repeat split; congruence. Qed.

Lemma sameRow_fold {A} (f : RowController -> A -> RowController) l c :
  (forall c x, sameRow c (f c x)) -> sameRow c (fold_left f l c).
Proof.
  intros Hstep. apply (fold_left_inv f (sameRow c)); [apply sameRow_refl|].
  intros a x Ha. eapply sameRow_trans; eauto.
Qed.

Lemma sameRow_destroyCells ks c : sameRow c (destroyCells ks c).
Proof.
  unfold destroyCells. apply sameRow_fold. intros c0 key. unfold destroyCell.
  destruct (JsObject.get (cellComps c0) key) as [[cell|]|]; repeat split.
Qed.

Lemma sameRow_insertCell b eRow col c : sameRow c (insertCell b eRow col c).
Proof.
  unfold insertCell.
  destruct (match JsObject.get (cellComps c) (getId b col) with
            | Some (Some cell) => _ | _ => false end); [apply sameRow_refl|].
  set (c1 := if missing _ then c else destroyCells [getId b col] c).
  assert (H1 : sameRow c c1).
  { subst c1. destruct (missing _); [apply sameRow_refl | apply sameRow_destroyCells]. }
  eapply sameRow_trans; [exact H1|]. repeat split.
Qed.

Lemma sameRow_insertCellsIntoContainer b eRow cols c :
  sameRow c (insertCellsIntoContainer b eRow cols c).
Proof.
  unfold insertCellsIntoContainer.
  set (c' := fold_left (fun c col => insertCell b eRow col c) cols c).
  assert (H : sameRow c c').
  { apply sameRow_fold. intros. apply sameRow_insertCell. }
  destruct (elementOrderChanged c' && isEnsureDomOrder b); [|exact H].
  eapply sameRow_trans; [exact H|]. repeat split.
Qed.

Lemma sameRow_refreshCellsInAnimationFrame b c :
  sameRow c (refreshCellsInAnimationFrame b c).
Proof.
  unfold refreshCellsInAnimationFrame.
  destruct (negb (active c)); [apply sameRow_refl|].
  change (targetColumns b (set_columnRefreshPending false c)) with (targetColumns b c).
  destruct (targetColumns b c) as [[centerCols leftCols] rightCols].
  set (c0 := set_columnRefreshPending false c).
  set (c1 := insertCellsIntoContainer b (getGui SegCenter) centerCols c0).
  assert (H1 : sameRow c c1).
  { eapply sameRow_trans; [|apply sameRow_insertCellsIntoContainer]. repeat split. }
  set (c2 := match leftRowComp c1 with
             | Some _ => insertCellsIntoContainer b (getGui SegLeft) leftCols c1
             | None => c1 end).
  assert (H2 : sameRow c1 c2).
  { subst c2. destruct (leftRowComp c1);
      [apply sameRow_insertCellsIntoContainer | apply sameRow_refl]. }
  set (c3 := match rightRowComp c2 with
             | Some _ => insertCellsIntoContainer b (getGui SegRight) rightCols c2
             | None => c2 end).
  assert (H3 : sameRow c2 c3).
  { subst c3. destruct (rightRowComp c2);
      [apply sameRow_insertCellsIntoContainer | apply sameRow_refl]. }
  set (c4 := set_elementOrderChanged false c3).
  assert (H4 : sameRow c3 c4) by repeat split.
  eapply sameRow_trans; [|apply sameRow_destroyCells].
  eapply sameRow_trans; [exact H1|]. eapply sameRow_trans; [exact H2|].
  eapply sameRow_trans; [exact H3 | exact H4].
Qed.

(** X15.  The three column events end in the same place when requests are
    not batched.  A full-width row ignores them.  On a fully built normal
    row, without animation frames or in print layout, and with consistent
    target lists, [onDisplayedColumnsChanged] runs one reconcile pass at
    once, and [onVirtualColumnsChanged] and [onColumnResized] right after it
    leave the controller exactly as it is: no cell is created, destroyed or
    moved by the repeated notifications. *)
Theorem column_events_converge_without_batching b c :
  (isFullWidth c = true ->
   onDisplayedColumnsChanged b c = c
   /\ onVirtualColumnsChanged b c = c
   /\ onColumnResized b c = c)
  /\ (isFullWidth c = false ->
      areAllContainersReady c = true ->
      isSuppressAnimationFrame b || printLayout c = true ->
      JsObject.wf (cellComps c) ->
      targetsConsistent b c ->
      let shown := onDisplayedColumnsChanged b c in
      shown = refreshCellsInAnimationFrame b c
      /\ onVirtualColumnsChanged b shown = shown
      /\ onColumnResized b shown = shown).
Proof.
  split.
  - intros Hfull. unfold onDisplayedColumnsChanged, onVirtualColumnsChanged,
      onColumnResized. now rewrite Hfull.
  - intros Hnormal Hready Hskip Hwf Hcons shown.
    assert (Hrequest : forall c0,
              areAllContainersReady c0 = true ->
              isSuppressAnimationFrame b || printLayout c0 = true ->
              refreshCells b c0 = refreshCellsInAnimationFrame b c0).
    { intros c0 Hr Hs. unfold refreshCells. now rewrite Hr, Hs. }
    assert (Hshown : shown = refreshCellsInAnimationFrame b c).
    { subst shown. unfold onDisplayedColumnsChanged. rewrite Hnormal.
      now apply Hrequest. }
    destruct (sameRow_refreshCellsInAnimationFrame b c) as (Ft & Fn & Fp).
    rewrite <- Hshown in Ft, Fn, Fp.
    assert (Hagain : refreshCells b shown = shown).
    { rewrite Hrequest.
      - rewrite Hshown. now apply refreshCellsInAnimationFrame_fixpoint.
      - unfold areAllContainersReady in *. now rewrite Fn.
      - now rewrite Fp. }
    split; [exact Hshown|].
    unfold onVirtualColumnsChanged, onColumnResized, isFullWidth in *.
    rewrite Ft. now destruct (rowType c).
Qed.

(** X15, at a concrete row: columns A and B in a grid without animation
    frames. *)
Lemma column_events_converge_without_batching_witness :
  onVirtualColumnsChanged MoreSamples.beansABSync
    (onDisplayedColumnsChanged MoreSamples.beansABSync (Samples.freshRow false))
  = onDisplayedColumnsChanged MoreSamples.beansABSync (Samples.freshRow false).
Proof.
  refine (proj1 (proj2 (proj2
            (column_events_converge_without_batching MoreSamples.beansABSync
               (Samples.freshRow false)) _ _ _ _ _))).
  - reflexivity.
  - reflexivity.
  - reflexivity.
  - constructor.
  - vm_compute. repeat split; repeat constructor; simpl; intuition discriminate.
Defined.


(* ================================================================= *)
(** ** After the teardown *)

(** A worked pass: a row with center columns A, B, C gets three cells;
    reconciling it to B, C, D creates one cell (D), destroys one (A) and
    keeps B and C. *)
Lemma scenario_ABC_then_BCD :
  let beansABC := Samples.sampleBeans [0; 1; 2] [] [] [0; 1; 2] Samples.noPin false in
  let beansBCD := Samples.sampleBeans [1; 2; 4] [] [] [1; 2; 4] Samples.noPin false in
  let cell n col := {| cellId := n; getColumn := col; getParentRow := SegCenter |} in
  let rowABC := refreshCellsInAnimationFrame beansABC (Samples.freshRow false) in
  materializedCells rowABC = [cell 0 0; cell 1 1; cell 2 2]
  /\ effectsDuring (refreshCellsInAnimationFrame beansBCD) rowABC
     = [NewCellComp (cell 3 4) false false; AppendChild SegCenter (cell 3 4);
        CellDetach (cell 0 0); CellDestroy (cell 0 0)]
  /\ materializedCells (refreshCellsInAnimationFrame beansBCD rowABC)
     = [cell 1 1; cell 2 2; cell 3 4].
Proof. repeat split; vm_compute; reflexivity. Qed.

Lemma callRemoveFuncs_active funcs c :
  active (callRemoveFuncs funcs c) = active c.
Proof.
  unfold callRemoveFuncs.
  apply (fold_left_inv _ (fun c' => active c' = active c)); [reflexivity|].
  intros a func <-. destruct func as [|f]; [|reflexivity].
  simpl. unfold destroyContainingCells. apply destroyCells_frame.
Qed.

Lemma destroy_clears_active animate c : active (destroy animate c) = false.
Proof.
  destruct animate; [reflexivity|].
  unfold destroy, getAndClearDelayedDestroyFunctions.
  cbn [active emit dispatchEvent set_effects].
  rewrite callRemoveFuncs_active. cbn [active set_removeSecondPassFuncs].
  unfold destroyContainingCells.
  destruct (destroyCells_frame
              (JsObject.keys (cellComps (destroyFullWidthComponents (set_active false c))))
              (destroyFullWidthComponents (set_active false c))) as ((Ha & _) & _).
  rewrite Ha. reflexivity.
Qed.

(** X16.  Once [destroy] has run, with or without animation, the queued
    work that checks the active flag does nothing: a reconcile pass and a
    lazy cell creation both return the controller as it is. *)
Lemma queued_work_after_destroy_is_noop b animate cols eRow c :
  refreshCellsInAnimationFrame b (destroy animate c) = destroy animate c
  /\ lazyCreateCells b cols eRow (destroy animate c) = destroy animate c.
Proof.
  pose proof (destroy_clears_active animate c) as Ha. split.
  - now apply refreshCellsInAnimationFrame_inactive.
  - unfold lazyCreateCells. now rewrite Ha.
Qed.
